(** * Deck-Primer-Automation: text layout and card composition

    A shallow embedding of [src/Deck-Primer-Automation.py]: the [TextBox]
    class (word wrap, measurement and auto-fit in [calculate_text_bb]),
    [place_qr], [calculate_vertical_space], [create_image] and the loop of
    [main] over the rows.

    Conventions of the embedding.
    - Python [int] is [Z].  Python [float] (font scales, line spacing) is
      an exact rational [Q]: the program subtracts [0.5] from a scale,
      multiplies it by [3] and compares it; the rounding of binary floating
      point is not modelled.  Where a statement depends on a value the
      program rounds, it is made for scales and spacings the program
      computes without rounding ([half_integer], [quarter_steps]).
    - Python [str] is [string]; a character is a code point below 256.
    - [cv2.getTextSize], the [cv2] drawing calls and [qrcode.make] belong
      to libraries, not to this repository: they are the fields of the
      classes [GlyphMetrics] and [Cv2Draw].
    - A call either returns, raises, or recurses beyond the given budget:
      type [outcome].  The errors are those the program's own statements
      raise: [ValueError] from [split] and from the assignment of
      [place_qr], [re.error] and [UnboundLocalError] in [place_text].
      Recursion beyond the budget, [OutOfFuel], is where Python raises
      [RecursionError]; it is kept apart from the errors.  A call that
      raises hands back neither block nor log.
    - [logs = []] in the signature of [calculate_text_bb] is ONE list
      object, created when the function is defined and shared by every call
      that omits the argument.  The model keeps that object and the
      caller's list apart in [log_store].
    - A numpy image is a list of rows of pixels; drawing in place is a
      function from canvas to canvas.
    - Writing files ([cv2.imwrite], [write_log]) and showing images
      ([display_image]) leave the values of the program as they are and are
      left out; the log entries that go with them are kept.
    - [TextBox.place_text] appears twice: as the call [create_image]
      makes ([place_text]: the errors it can raise, and its effect on the
      canvas, [place_text_pixels]) and, without bold words, as the sequence
      of its [cv2.circle] and [cv2.putText] calls ([place_text_calls]).
      Of the regular expressions that mark the bold phrases the model keeps
      whether [re.sub] accepts its arguments (class [Regex]).
      [validate_parameters] goes through the cells of a pandas data frame
      and is not modelled. *)

From Stdlib Require Import ZArith QArith Qround Lqa Lia List String Ascii Bool.
From Stdlib Require Import Permutation.
Import ListNotations.

Open Scope string_scope.
Open Scope Z_scope.

(** ** Python primitives *)

Module Py.

(** [int(x)] on a float: truncation toward zero. *)
Definition int (q : Q) : Z := Z.quot (Qnum q) (Z.pos (Qden q)).

(** [math.ceil]. *)
Definition ceil (q : Q) : Z := Qceiling q.

(** [int(a / 2)] for an integer [a]. *)
Definition int_half (a : Z) : Z := Z.quot a 2.

(** The line feed, ['\n']. *)
Definition nl : string := String "010"%char "".

(** [c.isspace()] for a code point below 256. *)
Definition isspace (c : ascii) : bool :=
  let n := nat_of_ascii c in
  ((9 <=? n) && (n <=? 13) || (28 <=? n) && (n <=? 32)
   || (n =? 133) || (n =? 160))%nat.

(** [s.lstrip()]. *)
Fixpoint lstrip (s : string) : string :=
  match s with
  | String c rest => if isspace c then lstrip rest else s
  | EmptyString => EmptyString
  end.

(** [s[1:]]. *)
Definition tail (s : string) : string :=
  match s with
  | String _ rest => rest
  | EmptyString => EmptyString
  end.

(** [s.split(sep)] for a non-empty [sep]: non-overlapping occurrences of
    [sep], scanned from the left.  [skip] counts the characters of a
    matched separator still to be passed over. *)
Fixpoint split_from (sep : string) (skip : nat) (s : string) : list string :=
  match s with
  | EmptyString => [EmptyString]
  | String c rest =>
      match skip with
      | S k => split_from sep k rest
      | O =>
          if prefix sep s
          then EmptyString :: split_from sep (String.length sep - 1) rest
          else match split_from sep 0 rest with
               | h :: t => String c h :: t
               | [] => [String c EmptyString]
               end
      end
  end.

Definition split (sep s : string) : list string := split_from sep 0 s.

(** [sep.join(ls)]. *)
Definition join (sep : string) (ls : list string) : string :=
  String.concat sep ls.

End Py.

(** ** Outcomes of a call *)

Inductive exn : Type :=
| ValueError
| ReError
| UnboundLocal.

Inductive outcome (A : Type) : Type :=
| Returns (a : A)
| Raises (e : exn)
| OutOfFuel.

Arguments Returns {A} a.
Arguments Raises {A} e.
Arguments OutOfFuel {A}.

Definition bind {A B : Type} (m : outcome A) (k : A -> outcome B) : outcome B :=
  match m with
  | Returns a => k a
  | Raises e => Raises e
  | OutOfFuel => OutOfFuel
  end.

Notation "x <- m ;; k" := (bind m (fun x => k))
  (at level 61, m at next level, right associativity).
Notation "' p <- m ;; k" := (bind m (fun x => match x with p => k end))
  (at level 61, p pattern, m at next level, right associativity).

(** ** Images: row-major pixel arrays *)

Definition pixel : Type := (Z * Z * Z)%type.
Definition image : Type := list (list pixel).

(** [image.shape[0]] and [image.shape[1]]. *)
Definition shape0 (img : image) : Z := Z.of_nat (List.length img).
Definition shape1 (img : image) : Z := Z.of_nat (List.length (hd [] img)).

(** A numpy array is rectangular. *)
Definition rectangular (img : image) : Prop :=
  Forall (fun row => List.length row = List.length (hd [] img)) img.

(** [create_blank_image()] with its default resolution and fill. *)
Definition create_blank_image : image :=
  repeat (repeat (34, 34, 34) 4488) 3288.

(** ** Diagnostics *)

(** One constructor per f-string appended to a log list. *)
Inductive log_entry : Type :=
| CalculatingBoundingBoxes (image_name : string)
| ReachedMinimum (name : string)
| ExceededMaximum (name : string) (new_scale : Q)
| SavingQR (image_name : string)
| PointsSmallerThanPrefix (image_name : string)
| FrontOverflow (image_name : string)
| BackOverflow
| Saving (image_name : string)
| Processing (image_name : string)
| ImagesProcessed (count : nat).

(** The two list objects a call of [calculate_text_bb] can append to. *)
Record log_store : Type := mkStore {
  default_logs : list log_entry;
  caller_logs : list log_entry
}.

Inductive log_ref : Type :=
| DefaultArg
| CallerList.

(** [logs.append(e)] through the reference [r]. *)
Definition log_append (r : log_ref) (e : log_entry) (st : log_store) : log_store :=
  match r with
  | DefaultArg => mkStore (default_logs st ++ [e]) (caller_logs st)
  | CallerList => mkStore (default_logs st) (caller_logs st ++ [e])
  end.

(** ** Glyph metrics *)

(** [cv2.getTextSize(text, font, scale, thickness)[0]]: (width, height). *)
Class GlyphMetrics : Type := {
  getTextSize : string -> Z -> Q -> Z -> Z * Z
}.

(** ** TextBox *)

Record TextBox : Type := mkTextBox {
  name : string;
  text : string;
  font : Z;
  font_scale : Q;
  font_width : Z;
  font_color : Z * Z * Z;
  left_margin : Z;
  right_margin : Z;
  line_spacing : Q;
  paragraph_break : bool;
  circle : bool;
  circle_size : Z;
  paragraph_spacing : Q;
  bold_words : list string;
  delim : string;
  splitter : string;
  line_height : Z;
  height : Z;
  width : Z;
  bounding_box : Z * Z;
  paragraphs : list (list string)
}.

(** [TextBox.__init__] with every optional argument given. *)
Definition TextBox_init (name text : string) (font : Z) (font_scale : Q)
    (font_width : Z) (font_color : Z * Z * Z) (left_margin right_margin : Z)
    (line_spacing : Q) (paragraph_break circle : bool) (circle_size : Z)
    (paragraph_spacing : Q) (bold_words : list string)
    (delim splitter : string) : TextBox :=
  mkTextBox name text font font_scale font_width font_color left_margin
    right_margin line_spacing paragraph_break circle circle_size
    paragraph_spacing bold_words delim splitter 0 0 0 (0, 0) [].

(** [TextBox.__init__] with the defaults of the optional arguments. *)
Definition TextBox_default (name text : string) (font : Z) (font_scale : Q)
    (font_width : Z) (font_color : Z * Z * Z) (left_margin right_margin : Z)
    (line_spacing : Q) : TextBox :=
  TextBox_init name text font font_scale font_width font_color left_margin
    right_margin line_spacing false true 25 (3 # 2) [] " " "".

Definition set_left_margin (tb : TextBox) (m : Z) : TextBox :=
  mkTextBox (name tb) (text tb) (font tb) (font_scale tb) (font_width tb)
    (font_color tb) m (right_margin tb) (line_spacing tb)
    (paragraph_break tb) (circle tb) (circle_size tb) (paragraph_spacing tb)
    (bold_words tb) (delim tb) (splitter tb) (line_height tb) (height tb)
    (width tb) (bounding_box tb) (paragraphs tb).

Definition set_font (tb : TextBox) (scale : Q) (thickness : Z) : TextBox :=
  mkTextBox (name tb) (text tb) (font tb) scale thickness
    (font_color tb) (left_margin tb) (right_margin tb) (line_spacing tb)
    (paragraph_break tb) (circle tb) (circle_size tb) (paragraph_spacing tb)
    (bold_words tb) (delim tb) (splitter tb) (line_height tb) (height tb)
    (width tb) (bounding_box tb) (paragraphs tb).

Definition set_measure (tb : TextBox) (lh h w : Z) (bb : Z * Z)
    (ps : list (list string)) : TextBox :=
  mkTextBox (name tb) (text tb) (font tb) (font_scale tb) (font_width tb)
    (font_color tb) (left_margin tb) (right_margin tb) (line_spacing tb)
    (paragraph_break tb) (circle tb) (circle_size tb) (paragraph_spacing tb)
    (bold_words tb) (delim tb) (splitter tb) lh h w bb ps.

Section Measurement.

Context {metrics : GlyphMetrics}.

(** [cv2.getTextSize(s, self.font, self.font_scale, self.font_width)[0]]. *)
Definition text_size (tb : TextBox) (s : string) : Z * Z :=
  getTextSize s (font tb) (font_scale tb) (font_width tb).

(** *** Word wrap (the loop over [text_list]) *)

(** The word as measured and appended: stripped on the left, with a leading
    space unless it is the first, and with the splitter unless it is the
    last or the delimiter is a space. *)
Definition decorate_word (tb : TextBox) (n ix : nat) (word : string) : string :=
  let w := Py.lstrip word in
  let w := if (ix =? 0)%nat then w else " " ++ w in
  if negb (ix =? n - 1)%nat && negb (delim tb =? " ")%string
  then w ++ splitter tb else w.

(** One iteration: state is [(full_text, current_X)]. *)
Definition wrap_step (tb : TextBox) (img : image) (word : string)
    (st : string * Z) : string * Z :=
  let '(full_text, current_X) := st in
  let word_size := text_size tb word in
  if current_X + fst word_size <=? shape1 img - right_margin tb
  then (full_text ++ word, current_X + fst word_size)
  else (full_text ++ Py.nl ++ Py.tail word,
        left_margin tb + fst (text_size tb (Py.tail word))).

Fixpoint wrap_words (tb : TextBox) (img : image) (n ix : nat)
    (words : list string) (st : string * Z) : string * Z :=
  match words with
  | [] => st
  | word :: rest =>
      wrap_words tb img n (S ix) rest
        (wrap_step tb img (decorate_word tb n ix word) st)
  end.

(** The body of the loop over [paragraphs_raw]: the paragraph's text with
    its line breaks. *)
Definition wrap_paragraph (tb : TextBox) (img : image)
    (paragraph_raw : string) : string :=
  let text_list := Py.split (delim tb) paragraph_raw in
  fst (wrap_words tb img (List.length text_list) 0 text_list
         (EmptyString, left_margin tb)).

Definition paragraphs_raw (tb : TextBox) : list string :=
  if paragraph_break tb then Py.split "\p" (text tb) else [text tb].

(** *** Width and height of the wrapped paragraphs *)

(** The loop over the lines of one paragraph; state is [(height, width)]. *)
Fixpoint measure_lines (tb : TextBox) (space_h : Z) (lines : list string)
    (hw : Z * Z) : Z * Z :=
  match lines with
  | [] => hw
  | line :: rest =>
      let '(h, w) := hw in
      let line_size := text_size tb line in
      let h := h + snd line_size in
      let h := match rest with
               | [] => h
               | _ :: _ => h + Py.int (inject_Z space_h * line_spacing tb)
               end in
      let w := if fst line_size >? w then fst line_size else w in
      measure_lines tb space_h rest (h, w)
  end.

(** The loop over the paragraphs; [first] is [i == 0]. *)
Fixpoint measure_paragraphs (tb : TextBox) (space_h : Z) (first : bool)
    (ps : list (list string)) (hw : Z * Z) : Z * Z :=
  match ps with
  | [] => hw
  | p :: rest =>
      let '(h, w) := hw in
      let h := if first then h
               else h + Py.int (inject_Z space_h
                                * (paragraph_spacing tb * line_spacing tb)) in
      measure_paragraphs tb space_h false rest
        (measure_lines tb space_h p (h, w))
  end.

(** *** One pass of [calculate_text_bb], up to the bounding box *)

Definition measure_pass (tb : TextBox) (img : image) : TextBox :=
  let space_size := text_size tb " " in
  let tb1 :=
    if paragraph_break tb
    then set_left_margin tb (left_margin tb + circle_size tb + fst space_size)
    else tb in
  let ps := map (fun p => Py.split Py.nl (wrap_paragraph tb1 img p))
                (paragraphs_raw tb1) in
  let '(h, w) := measure_paragraphs tb1 (snd space_size) true ps
                   (height tb1, width tb1) in
  set_measure tb1 (snd space_size) h w (w + 100, h + 80) ps.

(** The fields assigned before the recursive call.  [Qred] keeps the
    fraction in lowest terms; the value is [font_scale - 0.5]. *)
Definition downscale (tb : TextBox) (original_left_margin : Z) : TextBox :=
  let s := Qred (font_scale tb - (1 # 2)) in
  set_measure
    (set_left_margin (set_font tb s (Py.ceil (s * 3))) original_left_margin)
    (line_height tb) 0 0 (bounding_box tb) (paragraphs tb).

(** *** [calculate_text_bb]

    [fuel] bounds the depth of the recursion.  [r] is the list the caller
    passed as [logs] ([DefaultArg] when the argument is omitted).  The
    recursive call omits [logs].  The list returned is the one behind [r].
    [split] raises [ValueError] on an empty separator; every call reaches
    [paragraph_raw.split(self.delim)] for its first paragraph. *)
Fixpoint calculate_text_bb (fuel : nat) (tb : TextBox) (img : image)
    (max_bb_size : Z) (min_font_scale : Q) (r : log_ref) (st : log_store)
    : outcome (TextBox * log_store) :=
  match fuel with
  | O => OutOfFuel
  | S fuel' =>
      if (delim tb =? "")%string then Raises ValueError
      else
        let tb1 := measure_pass tb img in
        if Qeq_bool (font_scale tb1) min_font_scale
        then Returns (tb1, log_append r (ReachedMinimum (name tb1)) st)
        else if snd (bounding_box tb1) >? max_bb_size
        then
          let tb2 := downscale tb1 (left_margin tb) in
          let st2 := log_append r (ExceededMaximum (name tb2) (font_scale tb2)) st in
          calculate_text_bb fuel' tb2 img max_bb_size min_font_scale
            DefaultArg st2
        else Returns (tb1, st)
  end.

End Measurement.

(** ** A sample font

    A monospace stand-in for a Hershey font, following the formula of
    [cv2.getTextSize]: width is the sum of the glyph advances plus the
    stroke width; height depends on scale and stroke width only. *)
Definition sample_glyph (scale : Q) : Z := Qceiling (20 * scale).

Definition sample_getTextSize (s : string) (font : Z) (scale : Q)
    (thickness : Z) : Z * Z :=
  (Z.of_nat (String.length s) * sample_glyph scale + thickness,
   Qceiling (21 * scale) + (thickness + 1) / 2).

Definition sample_metrics : GlyphMetrics :=
  {| getTextSize := sample_getTextSize |}.

(** A canvas of one row and [w] columns, enough for [shape[1]]. *)
Definition strip (w : nat) : image := [repeat (34, 34, 34) w].

Definition empty_store : log_store := mkStore [] [].

(** ** Drawing *)

(** What the program takes from OpenCV and [qrcode] to produce pixels.
    [place_text_pixels] is the effect on the canvas of a call of
    [TextBox.place_text] that runs to its end (arguments: block, canvas, x,
    y, bottom_left_origin, centered, bold).  That method draws with
    [cv2.circle] and [cv2.putText] after marking the bold phrases with
    [re.sub] and [re.search]; it reads the block and writes the canvas
    only, and no property below depends on which pixels a glyph covers.
    The calls that do not run to their end are those of [place_text]
    below. *)
Class Cv2Draw : Type := {
  cv2_line : image -> Z * Z -> Z * Z -> Z * Z * Z -> Z -> image;
  cv2_resize : image -> Z * Z -> image;
  qrcode_make : string -> image;
  place_text_pixels : TextBox -> image -> Z -> Z -> bool -> bool -> bool -> image
}.

(** What the program takes from [re]: does [re.sub(pattern, repl, s)]
    accept its first two arguments?  The call raises [re.error] where the
    pattern does not compile or the replacement template does not parse,
    whatever the string [s]. *)
Class Regex : Type := {
  re_sub_accepts : string -> string -> bool
}.

(** The two substitutions [place_text] makes for a bold phrase:
    [re.sub(phrase, '~' + ' ~'.join(phrase.split(' ')), ...)] and
    [re.sub(phrase_split, '~' + '~'.join(phrase_split.split('*')), ...)]
    with [phrase_split = '\n*'.join(phrase.split(' '))]. *)
Definition bold_markup_accepted {re : Regex} (phrase : string) : bool :=
  let phrase_split :=
    Py.join (Py.nl ++ "*") (Py.split " " phrase) in
  re_sub_accepts phrase ("~" ++ Py.join " ~" (Py.split " " phrase))
  && re_sub_accepts phrase_split
       ("~" ++ Py.join "~" (Py.split "*" phrase_split)).

(** *** numpy slices *)

(** A bound of [a:b] on an axis of length [len]: a negative bound counts
    from the end, and the result is clipped to [0, len]. *)
Definition slice_bound (i len : Z) : Z :=
  if i <? 0 then Z.max 0 (i + len) else Z.min i len.

Fixpoint mapi_from {A : Type} (i : nat) (f : nat -> A -> A) (l : list A) : list A :=
  match l with
  | [] => []
  | x :: rest => f i x :: mapi_from (S i) f rest
  end.

Definition mapi {A : Type} (f : nat -> A -> A) (l : list A) : list A :=
  mapi_from 0 f l.

Definition in_range (lo n : Z) (i : nat) : bool :=
  (lo <=? Z.of_nat i) && (Z.of_nat i <? lo + n).

(** Element [(i, j)] of [src] broadcast along the axes of length one. *)
Definition broadcast_at (src : image) (i j : Z) (keep : pixel) : pixel :=
  let i' := if shape0 src =? 1 then 0 else i in
  let j' := if shape1 src =? 1 then 0 else j in
  nth (Z.to_nat j') (nth (Z.to_nat i') src []) keep.

(** [img[r0:r1, c0:c1, :] = src].  numpy broadcasts the value to the shape
    of the slice: each of the two axes of [src] must have the length of the
    slice or length one, otherwise the assignment raises [ValueError]. *)
Definition setitem_region (img : image) (r0 r1 c0 c1 : Z) (src : image)
    : outcome image :=
  let rs := slice_bound r0 (shape0 img) in
  let cs := slice_bound c0 (shape1 img) in
  let nr := Z.max 0 (slice_bound r1 (shape0 img) - rs) in
  let nc := Z.max 0 (slice_bound c1 (shape1 img) - cs) in
  if ((shape0 src =? nr) || (shape0 src =? 1))
     && ((shape1 src =? nc) || (shape1 src =? 1))
  then Returns
         (mapi (fun r row =>
                  if in_range rs nr r
                  then mapi (fun c p =>
                               if in_range cs nc c
                               then broadcast_at src (Z.of_nat r - rs)
                                      (Z.of_nat c - cs) p
                               else p) row
                  else row) img)
  else Raises ValueError.

(** [place_qr(image, qr, x, y, padding)]: the canvas after the assignment
    and the pair returned. *)
Definition place_qr (img qr : image) (x y padding : Z)
    : outcome (image * (Z * Z)) :=
  let qr_x_coord := (x, x + shape1 qr) in
  let qr_y_coord := (y + Py.int_half padding,
                     y + Py.int_half padding + shape0 qr) in
  img' <- setitem_region img (fst qr_y_coord) (snd qr_y_coord)
            (fst qr_x_coord) (snd qr_x_coord) qr ;;
  Returns (img', (snd qr_x_coord, snd qr_y_coord)).

(** The pixel at row [r], column [c]. *)
Definition pixel_at (img : image) (r c : nat) : option pixel :=
  match nth_error img r with
  | Some row => nth_error row c
  | None => None
  end.

(** [calculate_vertical_space]. *)
Definition calculate_vertical_space (text_boxes : list TextBox)
    (qr_height top_margin bot_margin line_break_spacing num_line_breaks
       padding : Z) : Z :=
  fold_left
    (fun vertical_space text_box =>
       vertical_space + (snd (bounding_box text_box) + line_height text_box))
    text_boxes
    (top_margin + bot_margin + num_line_breaks * line_break_spacing
     + qr_height + padding).

(** ** One row of the configuration, after [validate_parameters] *)

Record Series : Type := mkSeries {
  image_name : string;
  title_text : string;
  points_text : string;
  summary_text : string;
  back_title_text : string;
  back_body_text : string;
  title_font_scale : Q;
  points_font_scale : Q;
  summary_font_scale : Q;
  back_title_font_scale : Q;
  back_body_font_scale : Q;
  title_font_color : Z;
  points_font_color : Z;
  summary_font_color : Z;
  back_title_font_color : Z;
  back_body_font_color : Z;
  title_line_spacing : Q;
  points_line_spacing : Q;
  summary_line_spacing : Q;
  back_title_line_spacing : Q;
  back_body_line_spacing : Q;
  top_margin : Z;
  bot_margin : Z;
  series_left_margin : Z;
  series_right_margin : Z;
  qr_url : string;
  qr_size : Z;
  qr_offset : Z;
  line_break_spacing : Z;
  bullet_points : Z;
  series_bold_words : string;
  series_paragraph_spacing : Q
}.

(** [cv2.FONT_HERSHEY_SIMPLEX]. *)
Definition FONT_HERSHEY_SIMPLEX : Z := 0.

Definition Qltb (a b : Q) : bool := negb (Qle_bool b a).

(** The text boxes of one card, as [create_image] names them. *)
Record Blocks : Type := mkBlocks {
  b_title_text : TextBox;
  b_points_prefix : TextBox;
  b_points_text : TextBox;
  b_summary_text : TextBox;
  b_qr_text : TextBox;
  b_back_title_text : TextBox;
  b_back_text : TextBox
}.

(** [text_boxes], the list [create_image] returns. *)
Definition text_boxes (b : Blocks) : list TextBox :=
  [b_title_text b; b_points_prefix b; b_points_text b; b_summary_text b;
   b_qr_text b; b_back_title_text b; b_back_text b].

Definition qr_caption : string :=
  "Scan the QR code on the right to see the full deck list on Moxfield. For more information, see the other side of this card.".

Section Card.

Context {metrics : GlyphMetrics} {draw : Cv2Draw} {re : Regex}.

(** [place_line]. *)
Definition place_line (img : image) (x_1 x_2 y_1 y_2 : Z) : image :=
  cv2_line img (x_1, y_1) (x_2, y_2) (255, 255, 255) 5.

Definition place_line_color (img : image) (x_1 x_2 y_1 y_2 : Z)
    (color : Z * Z * Z) : image :=
  cv2_line img (x_1, y_1) (x_2, y_2) color 5.

(** [show_margins] with its default colours.  The lines are drawn in
    place: [image.shape] is the same at each of the four calls. *)
Definition show_margins (img : image) (x_margin y_margin : Z) : image :=
  let y_color := (255, 255, 0) in
  let x_color := (0, 255, 255) in
  let rows := shape0 img in
  let cols := shape1 img in
  let img := place_line_color img x_margin (cols - x_margin)
               y_margin y_margin y_color in
  let img := place_line_color img x_margin (cols - x_margin)
               (rows - y_margin) (rows - y_margin) y_color in
  let img := place_line_color img x_margin x_margin
               y_margin (rows - y_margin) x_color in
  place_line_color img (cols - x_margin) (cols - x_margin)
    y_margin (rows - y_margin) x_color.

(** [TextBox.place_text]: the canvas drawn on, and the value returned.
    Two statements of the loop over the paragraphs can raise.  With
    [bold], each paragraph passes every bold phrase to [re.sub] as a
    pattern: [re.error] at the first paragraph if a phrase is not accepted.
    From the second paragraph on [space_size] is read, which is bound in
    paragraph mode only: [UnboundLocalError] otherwise. *)
Definition place_text (tb : TextBox) (img : image) (x y : Z)
    (centered bold : bool) : outcome (image * Z) :=
  let done :=
    Returns (place_text_pixels tb img x y false centered bold,
             y + snd (bounding_box tb)) in
  match paragraphs tb with
  | [] => done
  | _ :: more =>
      if bold && negb (forallb bold_markup_accepted (bold_words tb))
      then Raises ReError
      else match more with
           | [] => done
           | _ :: _ =>
               if paragraph_break tb then done else Raises UnboundLocal
           end
  end.

(** *** [create_image], first half: construction and measurement

    The QR image after [cv2.resize] is part of the result: the second half
    needs its shape and pixels. *)

(** The rescale of the points prefix (the [if] after the measurement of
    [points_text]). *)
Definition rescale_points (fuel : nat) (series : Series) (image_front : image)
    (points_prefix points_text : TextBox) (st : log_store)
    : outcome (TextBox * TextBox * log_store) :=
  if Qltb (font_scale points_text) (font_scale points_prefix)
  then
    let st := log_append CallerList
                (PointsSmallerThanPrefix (image_name series)) st in
    let points_prefix :=
      set_font points_prefix (font_scale points_text)
        (font_width points_text) in
    ' (points_prefix, st) <-
        calculate_text_bb fuel points_prefix image_front 200
          (font_scale points_text) CallerList st ;;
    let points_text :=
      set_left_margin points_text
        (series_left_margin series + width points_prefix) in
    ' (points_text, st) <-
        calculate_text_bb fuel points_text image_front 600
          (font_scale points_text) CallerList st ;;
    Returns (points_prefix, points_text, st)
  else Returns (points_prefix, points_text, st).

Definition measure_blocks (fuel : nat) (series : Series) (save : bool)
    (st : log_store) : outcome (Blocks * image * log_store) :=
  let st := log_append CallerList
              (CalculatingBoundingBoxes (image_name series)) st in
  let font := FONT_HERSHEY_SIMPLEX in
  let title_font_width := Py.ceil (title_font_scale series * 3) in
  let points_font_width := Py.ceil (points_font_scale series * 3) in
  let summary_font_width := Py.ceil (summary_font_scale series * 3) in
  let back_title_font_width := Py.ceil (back_title_font_scale series * 3) in
  let back_body_font_width := Py.ceil (back_body_font_scale series * 3) in
  let gray (c : Z) := (c, c, c) in
  let bold_words := Py.split ";" (series_bold_words series) in
  let circle := negb (bullet_points series =? 0) in
  let image_front := create_blank_image in
  let image_back := create_blank_image in
  let summary_text :=
    TextBox_init "Summary Text" (summary_text series) font
      (summary_font_scale series) summary_font_width
      (gray (summary_font_color series))
      (series_left_margin series) (series_right_margin series)
      (summary_line_spacing series) false true 25 (3 # 2) bold_words " " "" in
  ' (summary_text, st) <-
      calculate_text_bb fuel summary_text image_front 1000 (5 # 2)
        CallerList st ;;
  let qr_image := qrcode_make (qr_url series) in
  let st := if save
            then log_append CallerList (SavingQR (image_name series)) st
            else st in
  let qr_image := cv2_resize qr_image (qr_size series, qr_size series) in
  let qr_text :=
    TextBox_default "QR Text" qr_caption font
      (font_scale summary_text) (font_width summary_text)
      (font_color summary_text)
      (series_left_margin series)
      (series_right_margin series + qr_offset series + shape1 qr_image)
      (summary_line_spacing series) in
  ' (qr_text, st) <-
      calculate_text_bb fuel qr_text image_front 500
        (font_scale summary_text) CallerList st ;;
  let points_prefix :=
    TextBox_default "Points Prefix" "Points: " font
      (points_font_scale series) points_font_width
      (gray (points_font_color series))
      (series_left_margin series) (series_right_margin series)
      (points_line_spacing series) in
  ' (points_prefix, st) <-
      calculate_text_bb fuel points_prefix image_front 200
        (font_scale summary_text + (1 # 2)) CallerList st ;;
  let points_text :=
    TextBox_init "Points Text" (points_text series) font
      (points_font_scale series) points_font_width
      (gray (points_font_color series))
      (series_left_margin series + width points_prefix)
      (series_right_margin series)
      (points_line_spacing series) false true 25 (3 # 2) [] ";" "," in
  ' (points_text, st) <-
      calculate_text_bb fuel points_text image_front 600
        (font_scale summary_text + (1 # 2)) CallerList st ;;
  ' (points_prefix, points_text, st) <-
      rescale_points fuel series image_front points_prefix points_text st ;;
  let title_text :=
    TextBox_default "Front Title" (title_text series) font
      (title_font_scale series) title_font_width
      (gray (title_font_color series))
      (series_left_margin series) (series_right_margin series)
      (title_line_spacing series) in
  ' (title_text, st) <-
      calculate_text_bb fuel title_text image_front 280
        (font_scale points_text + (1 # 2)) CallerList st ;;
  let back_text :=
    TextBox_init "Back Body Text" (back_body_text series) font
      (back_body_font_scale series) back_body_font_width
      (gray (back_body_font_color series))
      (series_left_margin series) (series_right_margin series)
      (back_body_line_spacing series) true circle 25
      (series_paragraph_spacing series) bold_words " " "" in
  ' (back_text, st) <-
      calculate_text_bb fuel back_text image_back 2400 (5 # 2)
        CallerList st ;;
  let back_title_text :=
    TextBox_default "Back Title Text" (back_title_text series) font
      (back_title_font_scale series) back_title_font_width
      (gray (back_title_font_color series))
      (series_left_margin series) (series_right_margin series)
      (back_title_line_spacing series) in
  ' (back_title_text, st) <-
      calculate_text_bb fuel back_title_text image_back 280
        (font_scale back_text + 1) CallerList st ;;
  Returns (mkBlocks title_text points_prefix points_text summary_text
             qr_text back_title_text back_text, qr_image, st).

(** *** [create_image], second half: vertical budget and placement *)

Definition front_vertical_space (series : Series) (b : Blocks)
    (qr_image : image) : Z :=
  calculate_vertical_space
    [b_title_text b; b_points_text b; b_summary_text b]
    (shape0 qr_image) (top_margin series) (bot_margin series)
    (line_break_spacing series) 2 100.

Definition back_vertical_space (series : Series) (b : Blocks) : Z :=
  calculate_vertical_space [b_back_title_text b]
    0 (top_margin series) (bot_margin series)
    (line_break_spacing series) 1
    (line_height (b_back_text b) + height (b_back_text b)).

(** The [if] branch that writes the front face.  Text and lines are drawn
    in place, so [image_front.shape[1]] is read from the canvas as it was
    created. *)
Definition draw_front (series : Series) (b : Blocks) (qr_image : image)
    (image_front : image) : outcome image :=
  let title_text_Y := top_margin series + line_height (b_title_text b) in
  let title_points_line_Y :=
    title_text_Y + snd (bounding_box (b_title_text b))
    - line_break_spacing series in
  let points_text_Y :=
    title_points_line_Y + 2 * line_break_spacing series
    + line_height (b_points_text b) in
  let summary_text_Y :=
    points_text_Y + snd (bounding_box (b_points_text b))
    + line_height (b_summary_text b) in
  let summary_qr_line_Y :=
    summary_text_Y + snd (bounding_box (b_summary_text b))
    + line_break_spacing series in
  let left := series_left_margin series in
  let right := series_right_margin series in
  ' (img, _) <- place_text (b_title_text b) image_front left title_text_Y
                  true false ;;
  let img := place_line img (left - 50) (shape1 image_front - right + 50)
               title_points_line_Y title_points_line_Y in
  ' (img, _) <- place_text (b_points_prefix b) img left points_text_Y
                  false false ;;
  ' (img, _) <- place_text (b_points_text b) img
                  (left + width (b_points_prefix b)) points_text_Y
                  false false ;;
  ' (img, _) <- place_text (b_summary_text b) img left summary_text_Y
                  false true ;;
  let img := place_line img (left - 50) (shape1 image_front - right + 50)
               summary_qr_line_Y summary_qr_line_Y in
  ' (img, qr_coords) <-
      place_qr img qr_image (shape1 image_front - right - shape1 qr_image)
        summary_qr_line_Y 200 ;;
  let qr_text := b_qr_text b in
  ' (img, _) <- place_text qr_text img left
                  (snd qr_coords - snd (bounding_box qr_text)
                   + Py.int_half (snd (bounding_box qr_text) - height qr_text))
                  false false ;;
  Returns img.

(** The [if] branch that writes the back face.  The right end of its
    separator is taken from [image_front.shape[1]]. *)
Definition draw_back (series : Series) (b : Blocks)
    (image_front image_back : image) : outcome image :=
  let back_title_text_Y :=
    top_margin series + line_height (b_back_title_text b) in
  let back_title_body_line_Y :=
    back_title_text_Y + snd (bounding_box (b_back_title_text b))
    - line_break_spacing series in
  let back_body_text_Y :=
    back_title_body_line_Y + 2 * line_break_spacing series
    + line_height (b_back_text b) in
  let left := series_left_margin series in
  let right := series_right_margin series in
  ' (img, _) <- place_text (b_back_title_text b) image_back left
                  back_title_text_Y true false ;;
  let img := place_line img (left - 50) (shape1 image_front - right + 50)
               back_title_body_line_Y back_title_body_line_Y in
  ' (img, _) <- place_text (b_back_text b) img left back_body_text_Y
                  false true ;;
  Returns img.

Record Card : Type := mkCard {
  card_front : image;
  card_back : image;
  card_blocks : Blocks;
  card_store : log_store
}.

Definition compose_faces (series : Series) (margins save : bool)
    (b : Blocks) (qr_image : image) (st : log_store) : outcome Card :=
  let blank_front := create_blank_image in
  let blank_back := create_blank_image in
  ' (image_front, st) <-
      (if shape0 blank_front - front_vertical_space series b qr_image >=? 0
       then img <- draw_front series b qr_image blank_front ;;
            Returns (img, st)
       else Returns (blank_front,
                     log_append CallerList (FrontOverflow (image_name series))
                       st)) ;;
  ' (image_back, st) <-
      (if shape0 blank_back - back_vertical_space series b >=? 0
       then img <- draw_back series b blank_front blank_back ;;
            Returns (img, st)
       else Returns (blank_back, log_append CallerList BackOverflow st)) ;;
  let '(image_front, image_back) :=
    if margins
    then (show_margins image_front (series_left_margin series - 50)
            (top_margin series - 50),
          show_margins image_back (series_left_margin series - 50)
            (top_margin series - 50))
    else (image_front, image_back) in
  let st := if save
            then log_append CallerList (Saving (image_name series)) st
            else st in
  Returns (mkCard image_front image_back b st).

(** [create_image(series, margins = ..., save = ..., logs = logs)] with the
    caller's list in [caller_logs st], as [main] calls it.  The result
    stands for [(image_front, image_back), text_boxes, logs]. *)
Definition create_image (fuel : nat) (series : Series) (margins save : bool)
    (st : log_store) : outcome Card :=
  ' (b, qr_image, st) <- measure_blocks fuel series save st ;;
  compose_faces series margins save b qr_image st.

(** *** The loop of [main] over the rows

    [images] is the list built so far; the caller's list is handed from one
    call of [create_image] to the next. *)
Fixpoint process_rows (fuel : nat) (rows : list Series) (margins save : bool)
    (st : log_store) (images : list Card) : outcome (list Card * log_store) :=
  match rows with
  | [] => Returns (images, st)
  | row :: rest =>
      let st := log_append CallerList (Processing (image_name row)) st in
      card <- create_image fuel row margins save st ;;
      process_rows fuel rest margins save (card_store card)
        (images ++ [card])%list
  end.

Definition main_loop (fuel : nat) (rows : list Series) (margins save : bool)
    : outcome (list Card * log_store) :=
  ' (images, st) <- process_rows fuel rows margins save (mkStore [] []) [] ;;
  Returns (images,
           log_append CallerList (ImagesProcessed (List.length rows)) st).

End Card.

(** ** Auxiliary notions for the statements *)

(** Does the string hold a line feed? *)
Fixpoint has_nl (s : string) : bool :=
  match s with
  | EmptyString => false
  | String c rest => Ascii.eqb c "010" || has_nl rest
  end.


(** The stroke width agrees with the scale. *)
Definition stroke_ok (tb : TextBox) : Prop :=
  font_width tb = Py.ceil (font_scale tb * 3).

(** The block with its accumulated height and width cleared. *)
Definition fresh (tb : TextBox) : TextBox :=
  set_measure tb (line_height tb) 0 0 (bounding_box tb) (paragraphs tb).

(** The number of scale downgrades recorded in a list. *)
Definition count_exceeded (l : list log_entry) : nat :=
  List.length
    (filter (fun e => match e with ExceededMaximum _ _ => true | _ => false end) l).

(** The words of a paragraph as the wrap loop measures them. *)
Fixpoint decorate_all (tb : TextBox) (n ix : nat) (words : list string)
    : list string :=
  match words with
  | [] => []
  | w :: rest => decorate_word tb n ix w :: decorate_all tb n (S ix) rest
  end.

Definition paragraph_words (tb : TextBox) (paragraph_raw : string)
    : list string :=
  let text_list := Py.split (delim tb) paragraph_raw in
  decorate_all tb (List.length text_list) 0 text_list.

(** [piece] is [word] as it stands in a line: whole, or without its first
    character where it opens a line. *)
Definition piece_of (piece word : string) : Prop :=
  piece = word \/ piece = Py.tail word.

Section Packing.

Context {metrics : GlyphMetrics}.

(** Greedy packing as the specification words it: lines are lists of
    words; a word that keeps the running X within
    [canvas_width - right_margin] is appended to the current line, any other
    word opens a new line without its leading character.  State: the lines
    closed so far, the current line, the running X. *)
Definition pack_step (tb : TextBox) (img : image) (w : string)
    (s : list (list string) * list string * Z)
    : list (list string) * list string * Z :=
  let '(done, cur, x) := s in
  if x + fst (text_size tb w) <=? shape1 img - right_margin tb
  then (done, (cur ++ [w])%list, x + fst (text_size tb w))
  else ((done ++ [cur])%list, [Py.tail w],
        left_margin tb + fst (text_size tb (Py.tail w))).

Definition pack_from (tb : TextBox) (img : image) (words : list string)
    (s : list (list string) * list string * Z)
    : list (list string) * list string * Z :=
  fold_left (fun s w => pack_step tb img w s) words s.

Definition lines_of (s : list (list string) * list string * Z)
    : list (list string) :=
  let '(done, cur, _) := s in (done ++ [cur])%list.

Definition pack_lines (tb : TextBox) (img : image) (paragraph_raw : string)
    : list (list string) :=
  lines_of (pack_from tb img (paragraph_words tb paragraph_raw)
              ([], [], left_margin tb)).

End Packing.

(** A line as a string: its words one after the other. *)
Definition line_text (line : list string) : string := String.concat "" line.

(** A string without line feed. *)
Definition clean (s : string) : Prop := has_nl s = false.

(** The state of the wrap loop that a packing state stands for: the packed
    lines joined by line feeds, and the running X. *)
Definition render (s : list (list string) * list string * Z) : string * Z :=
  (Py.join Py.nl (map line_text (lines_of s)), snd s).


(** The fields a measurement never assigns. *)
Definition same_static (a b : TextBox) : Prop :=
  name a = name b /\ text a = text b /\ font a = font b
  /\ font_color a = font_color b /\ right_margin a = right_margin b
  /\ line_spacing a = line_spacing b
  /\ paragraph_break a = paragraph_break b /\ circle a = circle b
  /\ circle_size a = circle_size b
  /\ paragraph_spacing a = paragraph_spacing b
  /\ bold_words a = bold_words b /\ delim a = delim b
  /\ splitter a = splitter b.

(** The fields the wrap loop reads. *)
Definition same_wrap (a b : TextBox) : Prop :=
  font a = font b /\ font_scale a = font_scale b
  /\ font_width a = font_width b /\ left_margin a = left_margin b
  /\ right_margin a = right_margin b /\ delim a = delim b
  /\ splitter a = splitter b.

(** Scale downgrades recorded in either list. *)
Definition downgrades (st : log_store) : Z :=
  Z.of_nat (count_exceeded (default_logs st) + count_exceeded (caller_logs st)).

(** ** Concrete inputs *)

(** Drawing stand-ins: lines and text leave the canvas as it is, and
    [cv2.resize] hands back a white image of the size asked for. *)
Definition sample_draw : Cv2Draw :=
  {| cv2_line := fun img _ _ _ _ => img;
     cv2_resize := fun _ size =>
       repeat (repeat (255, 255, 255) (Z.to_nat (fst size)))
         (Z.to_nat (snd size));
     qrcode_make := fun _ => repeat (repeat (255, 255, 255) 4%nat) 4%nat;
     place_text_pixels := fun _ img _ _ _ _ _ => img |}.

(** A stand-in for [re]: a pattern is refused where it starts with a
    repetition operator or is a lone opening parenthesis ([re.error]:
    nothing to repeat, missing parenthesis); the replacements of the
    examples below hold no escape and are accepted.  The patterns of the
    examples are judged by it as [re.compile] judges them. *)
Definition sample_re : Regex :=
  {| re_sub_accepts := fun pattern _ =>
       negb (prefix "+" pattern || prefix "*" pattern || prefix "?" pattern
             || (pattern =? "(")%string) |}.

(** A summary block whose scale, 3.2, is not a whole number of half units
    above the floor 2.5. *)
Definition off_grid_block : TextBox :=
  TextBox_default "Summary Text" "Hello world" FONT_HERSHEY_SIMPLEX (16 # 5) 10
    (180, 180, 180) 400 400 (6 # 5).

(** A summary block at scale 3.5, one unit above the floor 2.5. *)
Definition tall_block : TextBox :=
  TextBox_default "Summary Text" "Hello world" FONT_HERSHEY_SIMPLEX (7 # 2) 11
    (180, 180, 180) 400 400 (6 # 5).

(** A title of one word on a canvas whose right margin leaves 88 pixels
    after the left margin. *)
Definition narrow_block : TextBox :=
  TextBox_default "Front Title" "Hello" FONT_HERSHEY_SIMPLEX 3 9
    (255, 255, 255) 400 4000 (6 # 5).

(** The scenario of the specification: a width that takes three words. *)
Definition scenario_block : TextBox :=
  TextBox_default "Summary Text" "Hello world this is a test"
    FONT_HERSHEY_SIMPLEX 1 3 (180, 180, 180) 0 0 (6 # 5).

(** The lines are made of the whole words of the paragraph, in order. *)
Definition whole_words (tb : TextBox) (paragraph_raw : string)
    (lines : list string) : Prop :=
  exists groups : list (list string),
    lines = map line_text groups
    /\ Forall2 piece_of (List.concat groups) (paragraph_words tb paragraph_raw).

(** A word that starts with the joining space. *)
Definition spaced (w : string) : Prop := exists w', w = String " " w'.

(** A text of two words, the first of which holds a line feed. *)
Definition line_feed_block : TextBox :=
  TextBox_default "Summary Text" (String "a" (String "010" "b c"))
    FONT_HERSHEY_SIMPLEX 3 9 (180, 180, 180) 400 400 (6 # 5).

(** The widest of an old width and the widths of new lines, as the
    measurement loop takes it. *)
Definition widest (w0 : Z) (ws : list Z) : Z :=
  fold_left (fun w lw => if lw >? w then lw else w) ws w0.

(** The measured widths of all the lines of a block. *)
Definition line_widths {metrics : GlyphMetrics} (tb : TextBox)
    (ps : list (list string)) : list Z :=
  map (fun l => fst (text_size tb l)) (List.concat ps).

(** The fields the height and width loops read. *)
Definition same_measure (a b : TextBox) : Prop :=
  font a = font b /\ font_scale a = font_scale b
  /\ font_width a = font_width b /\ line_spacing a = line_spacing b
  /\ paragraph_spacing a = paragraph_spacing b.

Section PassParts.

Context {metrics : GlyphMetrics}.

(** The block a pass wraps and measures: [tb] with the margin shifted in
    paragraph mode. *)
Definition shifted (tb : TextBox) : TextBox :=
  if paragraph_break tb
  then set_left_margin tb
         (left_margin tb + circle_size tb + fst (text_size tb " "))
  else tb.

Definition pass_lines (tb : TextBox) (img : image) : list (list string) :=
  map (fun p => Py.split Py.nl (wrap_paragraph (shifted tb) img p))
      (paragraphs_raw (shifted tb)).

End PassParts.

(** A row with the defaults of [validate_parameters] and short texts. *)
Definition sample_series : Series :=
  {| image_name := "atraxa";
     title_text := "Atraxa";
     points_text := "Sol Ring;Mana Crypt";
     summary_text := "Proliferate counters every turn";
     back_title_text := "Primer";
     back_body_text := "Play lands\pCast Atraxa";
     title_font_scale := 6;
     points_font_scale := 5;
     summary_font_scale := 7 # 2;
     back_title_font_scale := 6;
     back_body_font_scale := 7 # 2;
     title_font_color := 255;
     points_font_color := 220;
     summary_font_color := 180;
     back_title_font_color := 255;
     back_body_font_color := 180;
     title_line_spacing := 6 # 5;
     points_line_spacing := 6 # 5;
     summary_line_spacing := 6 # 5;
     back_title_line_spacing := 6 # 5;
     back_body_line_spacing := 11 # 10;
     top_margin := 400;
     bot_margin := 400;
     series_left_margin := 400;
     series_right_margin := 400;
     qr_url := "https://moxfield.com/decks/atraxa";
     qr_size := 600;
     qr_offset := 75;
     line_break_spacing := 35;
     bullet_points := 1;
     series_bold_words := "Proliferate";
     series_paragraph_spacing := 3 # 2 |}.


(** A points prefix at scale 5 and a points value that came out at 4.5. *)
Definition prefix_block : TextBox :=
  TextBox_default "Points Prefix" "Points: " FONT_HERSHEY_SIMPLEX 5 15
    (220, 220, 220) 400 400 (6 # 5).

Definition value_block : TextBox :=
  TextBox_init "Points Text" "Sol Ring;Mana Crypt" FONT_HERSHEY_SIMPLEX
    (9 # 2) 14 (220, 220, 220) 1000 400 (6 # 5) false true 25 (3 # 2) []
    ";" ",".

(** A block [place_text] goes through without reading [space_size]
    unbound: in paragraph mode, or of one paragraph at most. *)
Definition placeable (tb : TextBox) : Prop :=
  paragraph_break tb = true \/ (List.length (paragraphs tb) <= 1)%nat.

(** Every bold phrase of the row is accepted by the two substitutions of
    [place_text]. *)
Definition bold_words_accepted {re : Regex} (series : Series) : bool :=
  forallb bold_markup_accepted (Py.split ";" (series_bold_words series)).

(** What the measurement half of [create_image] leaves of a row: blocks
    that can be placed, none without a paragraph, the summary and the back
    body with the bold phrases of the row. *)
Definition measured_for (series : Series) (b : Blocks) : Prop :=
  Forall placeable (text_boxes b)
  /\ Forall (fun tb => paragraphs tb <> []) (text_boxes b)
  /\ bold_words (b_summary_text b) = Py.split ";" (series_bold_words series)
  /\ bold_words (b_back_text b) = Py.split ";" (series_bold_words series).


(** A 4 x 4 canvas and a 2 x 2 white square. *)
Definition tiny_canvas : image := repeat (repeat (34, 34, 34) 4%nat) 4%nat.
Definition tiny_qr : image := repeat (repeat (255, 255, 255) 2%nat) 2%nat.

(** Is pixel [(r, c)] inside the rectangle of [rows] x [cols] pixels whose
    top left corner is [(top, left)]? *)
Definition in_rectangle (top left rows cols : Z) (r c : nat) : bool :=
  in_range top rows r && in_range left cols c.

(** A half of an integer that a binary64 float holds exactly.  On such
    scales [font_scale - 0.5] and the comparison with the floor are computed
    by the program as they are here. *)
Definition half_integer (q : Q) : Prop :=
  exists n : Z, Z.abs n <= 2 ^ 53 /\ q == inject_Z n * (1 # 2).


(** The paragraph-mode scenario of the specification. *)
Definition bullets_block : TextBox :=
  TextBox_init "Back Body Text" "First point\pSecond point"
    FONT_HERSHEY_SIMPLEX (7 # 2) 11 (180, 180, 180) 400 400 (11 # 10)
    true true 25 (3 # 2) [] " " "".

(** The same block with a line spacing of five quarters. *)
Definition quarter_spaced_block : TextBox :=
  TextBox_init "Back Body Text" "First point\pSecond point"
    FONT_HERSHEY_SIMPLEX (7 # 2) 11 (180, 180, 180) 400 400 (5 # 4)
    true true 25 (3 # 2) [] " " "".

(** A spacing that is a whole number of quarters, 256 at most.  With such
    spacings and a line height up to [2 ^ 20], the sums and products of the
    spacings and the line height are computed by the program in binary64
    without rounding, as they are here. *)
Definition quarter_steps (q : Q) : Prop :=
  exists n : Z, 0 <= n <= 1024 /\ q == inject_Z n * (1 # 4).

(** A font in which every string measures 10 by 10 pixels. *)
Definition flat_metrics : GlyphMetrics :=
  {| getTextSize := fun _ _ _ _ => (10, 10) |}.

(** ** Further notions for the statements *)

(** [s[k:]]. *)
Fixpoint drop (k : nat) (s : string) : string :=
  match k, s with
  | O, _ => s
  | S k', String _ rest => drop k' rest
  | S _, EmptyString => EmptyString
  end.

(** The sum of the measured widths of a list of words. *)
Definition total_width {metrics : GlyphMetrics} (tb : TextBox)
    (words : list string) : Z :=
  fold_right Z.add 0 (map (fun w => fst (text_size tb w)) words).

(** A run of words as it stands on a line that a line break opened:
    without the first character of its first word. *)
Definition clip (run : list string) : list string :=
  match run with
  | [] => []
  | w :: rest => Py.tail w :: rest
  end.

Section Runs.

Context {metrics : GlyphMetrics}.
Variable tb : TextBox.
Variable img : image.

(** The running X of the wrap loop at the end of a line: the left margin
    plus the widths of the words of the line, each measured on its own. *)
Definition run_end (line : list string) : Z :=
  left_margin tb + total_width tb line.

(** Every line break was needed: the word that opens a line did not fit at
    the end of the line before it. *)
Fixpoint breaks_needed (previous : list string) (rest : list (list string))
    : Prop :=
  match rest with
  | [] => True
  | run :: more =>
      shape1 img - right_margin tb
      < run_end previous + fst (text_size tb (hd "" run))
      /\ breaks_needed (clip run) more
  end.

(** The words consumed so far are cut into consecutive runs, [first] and
    then those of [rest]; the lines are the runs, clipped from the second
    on; the running X is that of the last line. *)
Definition run_inv (s : list (list string) * list string * Z)
    (consumed : list string) : Prop :=
  let '(done, cur, x) := s in
  exists (first : list string) (rest : list (list string)),
    consumed = (first ++ List.concat rest)%list
    /\ Forall (fun run => run <> []) rest
    /\ (done ++ [cur])%list = first :: map clip rest
    /\ x = run_end cur
    /\ breaks_needed first rest
    /\ (first <> [] -> run_end first <= shape1 img - right_margin tb)
    /\ Forall (fun run => (2 <= List.length run)%nat ->
                          run_end (clip run) <= shape1 img - right_margin tb)
         rest.

(** The lines of a paragraph as the wrap loop leaves them.  The words of
    the paragraph, in order, are cut into consecutive runs, one per line;
    a line is the words of its run one after the other, and a run that
    opens a new line stands without the first character of its first word.
    A line is broken only where the next word does not fit, and the first
    line and every line of two or more words end within
    [canvas_width - right_margin].  The last part is about the width
    [getTextSize] gives for a whole line. *)
Definition wrapped_runs (paragraph_raw : string) (lines : list string)
    : Prop :=
  exists (first : list string) (rest : list (list string)),
    paragraph_words tb paragraph_raw = (first ++ List.concat rest)%list
    /\ Forall (fun run => run <> []) rest
    /\ lines = map line_text (first :: map clip rest)
    /\ breaks_needed first rest
    /\ (first <> [] -> run_end first <= shape1 img - right_margin tb)
    /\ Forall (fun run => (2 <= List.length run)%nat ->
                          run_end (clip run) <= shape1 img - right_margin tb)
         rest
    /\ ((forall a b,
           fst (text_size tb (a ++ b))
           <= fst (text_size tb a) + fst (text_size tb b)) ->
        0 <= left_margin tb ->
        Forall (fun line => (2 <= List.length line)%nat ->
                            fst (text_size tb (line_text line))
                            <= shape1 img - right_margin tb)
          (first :: map clip rest)).

End Runs.

(** A block whose left margin is negative: 300 pixels are left of the
    canvas edge. *)
Definition outdented_block : TextBox :=
  TextBox_default "Summary Text" "Hello world" FONT_HERSHEY_SIMPLEX 1 3
    (180, 180, 180) (-200) 0 (6 # 5).

(** A font in which a string is as wide as the square of its length: the
    width of two strings put together is more than the sum of their
    widths. *)
Definition spread_metrics : GlyphMetrics :=
  {| getTextSize := fun s _ _ _ =>
       (Z.of_nat (String.length s) * Z.of_nat (String.length s), 10) |}.

Definition spread_block : TextBox :=
  TextBox_default "Summary Text" "ab cd" FONT_HERSHEY_SIMPLEX 1 3
    (180, 180, 180) 0 0 (6 # 5).

(** The value a call returned, if it did. *)
Definition result_of {A : Type} (o : outcome A) : option A :=
  match o with
  | Returns a => Some a
  | _ => None
  end.


(** An entry that [calculate_text_bb] writes for the block called [n]. *)
Definition entry_of (n : string) (e : log_entry) : Prop :=
  e = ReachedMinimum n \/ exists s, e = ExceededMaximum n s.

(** *** Notions for [create_image] and [main] *)

(** Two canvases of one shape. *)
Definition same_shape (a b : image) : Prop :=
  shape0 b = shape0 a /\ shape1 b = shape1 a.

(** [cv2.line] and [cv2.putText] draw in place: the array they are handed
    keeps its shape. *)
Definition draws_in_place (draw : Cv2Draw) : Prop :=
  (forall img p q c t, same_shape img (cv2_line img p q c t))
  /\ (forall tb img x y o c b,
        same_shape img (place_text_pixels tb img x y o c b)).

(** A row with the defaults of [validate_parameters] wherever the CSV
    leaves a cell empty: the texts, the right margin and the bold words
    are given. *)
Definition sample_row (title points summary back_title back_body : string)
    (right : Z) (bold : string) : Series :=
  {| image_name := "atraxa";
     title_text := title;
     points_text := points;
     summary_text := summary;
     back_title_text := back_title;
     back_body_text := back_body;
     title_font_scale := 6;
     points_font_scale := 5;
     summary_font_scale := 7 # 2;
     back_title_font_scale := 6;
     back_body_font_scale := 7 # 2;
     title_font_color := 255;
     points_font_color := 220;
     summary_font_color := 180;
     back_title_font_color := 255;
     back_body_font_color := 180;
     title_line_spacing := 6 # 5;
     points_line_spacing := 6 # 5;
     summary_line_spacing := 6 # 5;
     back_title_line_spacing := 6 # 5;
     back_body_line_spacing := 11 # 10;
     top_margin := 400;
     bot_margin := 400;
     series_left_margin := 400;
     series_right_margin := right;
     qr_url := "https://moxfield.com/decks/atraxa";
     qr_size := 600;
     qr_offset := 75;
     line_break_spacing := 35;
     bullet_points := 1;
     series_bold_words := bold;
     series_paragraph_spacing := 3 # 2 |}.

(** A row whose points take three lines at scale 5. *)
Definition long_points_series : Series :=
  sample_row "Atraxa"
    "Sol Ring;Mana Crypt;Arcane Signet;Command Tower;Exotic Orchard;Mana Vault"
    "Proliferate counters every turn" "Primer" "Play lands\pCast Atraxa"
    400 "Proliferate".

(** A row whose right margin leaves the QR code no room on the canvas:
    [4488 - 3900 - 600 < 0]. *)
Definition overhang_series : Series :=
  sample_row "Atraxa" "Sol Ring" "Proliferate" "Primer" "Play lands"
    3900 "Proliferate".



(** The entry [main] writes before each row. *)
Definition is_processing (e : log_entry) : bool :=
  match e with
  | Processing _ => true
  | _ => false
  end.

(** What is left of a result once the log lists are set aside. *)
Definition forget {A : Type} (o : outcome (A * log_store)) : outcome A :=
  match o with
  | Returns (a, _) => Returns a
  | Raises e => Raises e
  | OutOfFuel => OutOfFuel
  end.

(** The two faces and the text boxes of a card. *)
Definition faces (o : outcome Card) : outcome (image * image * Blocks) :=
  match o with
  | Returns card => Returns (card_front card, card_back card, card_blocks card)
  | Raises e => Raises e
  | OutOfFuel => OutOfFuel
  end.

(** The log lists of [st'] are those of [st] with entries added at the end,
    none of them written by the loop of [main]. *)
Definition quiet_growth (st st' : log_store) : Prop :=
  exists a d,
    caller_logs st' = (caller_logs st ++ a)%list
    /\ default_logs st' = (default_logs st ++ d)%list
    /\ Forall (fun e => is_processing e = false) a.

(** The top row of the QR code on the front face. *)
Definition qr_top (series : Series) (b : Blocks) (qr_image : image) : Z :=
  front_vertical_space series b qr_image - bot_margin series
  - shape0 qr_image.

(** ** [TextBox.place_text] without bold words: the drawing calls

    [place_text] with [bold = False] reads the block and issues calls of
    [cv2.circle] and [cv2.putText]; below are those calls in the order of
    the source, with the local variables [current_X], [current_Y] and
    [word_size] threaded through the three loops.  [space_size] is bound in
    paragraph mode only and [word_size] by the first word written: reading
    either before that is Python's [UnboundLocalError].  Font, scale, stroke
    width, line type and [bottomLeftOrigin] are the same in every call of
    [cv2.putText] and are left out of [PutText]. *)

Inductive draw_call : Type :=
| Circle (center : Z * Z) (radius : Z) (color : Z * Z * Z)
| PutText (word : string) (org : Z * Z) (color : Z * Z * Z).

Inductive drawn (A : Type) : Type :=
| Drawn (a : A)
| UnboundLocalError (variable : string).

Arguments Drawn {A} a.
Arguments UnboundLocalError {A} variable.

Definition and_then {A B : Type} (m : drawn A) (k : A -> drawn B) : drawn B :=
  match m with
  | Drawn a => k a
  | UnboundLocalError v => UnboundLocalError v
  end.

Section PlaceText.

Context {metrics : GlyphMetrics}.

(** The loop over the words of a line, [k] counting them. *)
Fixpoint put_words (tb : TextBox) (current_Y : Z) (k : nat)
    (words : list string) (current_X : Z) (word_size : option (Z * Z))
    : list draw_call * (Z * option (Z * Z)) :=
  match words with
  | [] => ([], (current_X, word_size))
  | word :: rest =>
      let word := if (k =? 0)%nat then word else " " ++ word in
      let size := text_size tb word in
      let '(calls, state) :=
        put_words tb current_Y (S k) rest (current_X + fst size) (Some size) in
      (PutText word (current_X, current_Y) (font_color tb) :: calls, state)
  end.

(** The loop over the lines of a paragraph. *)
Fixpoint put_lines (tb : TextBox) (image_width : Z) (centered : bool)
    (x_left : Z) (lines : list string) (current_Y : Z)
    (word_size : option (Z * Z))
    : drawn (list draw_call * (Z * option (Z * Z))) :=
  match lines with
  | [] => Drawn ([], (current_Y, word_size))
  | line :: rest =>
      let current_X :=
        if centered
        then Py.int_half (image_width - fst (text_size tb line))
        else x_left in
      let '(calls, (_, word_size)) :=
        put_words tb current_Y 0 (Py.split " " line) current_X word_size in
      match rest with
      | [] => Drawn (calls, (current_Y, word_size))
      | _ :: _ =>
          match word_size with
          | None => UnboundLocalError "word_size"
          | Some size =>
              and_then
                (put_lines tb image_width centered x_left rest
                   (current_Y
                    + Py.int (inject_Z (snd size) * (1 + line_spacing tb)))
                   word_size)
                (fun '(more, state) => Drawn ((calls ++ more)%list, state))
          end
      end
  end.

(** The loop over the paragraphs, [i] counting them. *)
Fixpoint put_paragraphs (tb : TextBox) (image_width : Z) (centered : bool)
    (x : Z) (space_size : option (Z * Z)) (i : nat)
    (ps : list (list string)) (current_Y : Z) (word_size : option (Z * Z))
    : drawn (list draw_call * Z) :=
  match ps with
  | [] => Drawn ([], current_Y)
  | paragraph :: rest =>
      and_then
        (if (i =? 0)%nat then Drawn current_Y
         else match space_size with
              | None => UnboundLocalError "space_size"
              | Some size =>
                  Drawn (current_Y
                         + Py.int ((1 + paragraph_spacing tb * line_spacing tb)
                                   * inject_Z (snd size)))
              end)
        (fun current_Y =>
           and_then
             (if paragraph_break tb && circle tb
              then match space_size with
                   | None => UnboundLocalError "space_size"
                   | Some size =>
                       Drawn ([Circle (x, current_Y - Py.int_half (snd size))
                                 (circle_size tb) (font_color tb)],
                              x + circle_size tb + fst size)
                   end
              else Drawn ([], x))
             (fun '(bullet, x_left) =>
                and_then
                  (put_lines tb image_width centered x_left paragraph
                     current_Y word_size)
                  (fun '(calls, (current_Y, word_size)) =>
                     and_then
                       (put_paragraphs tb image_width centered x space_size
                          (S i) rest current_Y word_size)
                       (fun '(more, y_end) =>
                          Drawn ((bullet ++ calls ++ more)%list, y_end)))))
  end.

(** [self.place_text(image, x, y, centered = centered)], [image_width]
    being [image.shape[1]]: the calls and the value returned. *)
Definition place_text_calls (tb : TextBox) (image_width x y : Z)
    (centered : bool) : drawn (list draw_call * Z) :=
  let space_size :=
    if paragraph_break tb then Some (text_size tb " ") else None in
  let current_Y := y + Py.int_half (snd (bounding_box tb) - height tb) in
  and_then
    (put_paragraphs tb image_width centered x space_size 0 (paragraphs tb)
       current_Y None)
    (fun '(calls, _) => Drawn (calls, y + snd (bounding_box tb))).

End PlaceText.

(** The string a call writes, and the baseline it writes on. *)
Definition call_text (c : draw_call) : string :=
  match c with
  | PutText word _ _ => word
  | Circle _ _ _ => ""
  end.

Definition written (calls : list draw_call) : string :=
  line_text (map call_text calls).

Definition is_circle (c : draw_call) : bool :=
  match c with
  | Circle _ _ _ => true
  | PutText _ _ _ => false
  end.

Definition on_baseline (lo hi : Z) (c : draw_call) : Prop :=
  match c with
  | PutText _ (_, current_Y) _ => lo <= current_Y <= hi
  | Circle _ _ _ => True
  end.

(** A block outside paragraph mode with two paragraphs, as no call of
    [calculate_text_bb] leaves it. *)
Definition two_plain_paragraphs : TextBox :=
  set_measure
    (TextBox_default "Front Title" "Atraxa" FONT_HERSHEY_SIMPLEX 6 18
       (255, 255, 255) 400 400 (6 # 5))
    126 252 720 (820, 332) [["Atraxa"]; ["Praetors"]].

(** * Properties *)

(** ** Strings and [split] *)

Lemma append_nil_r (s : string) : s ++ "" = s.
Proof. induction s; simpl; congruence. Qed.

Lemma append_assoc (a b c : string) : (a ++ b) ++ c = a ++ (b ++ c).
Proof. induction a; simpl; congruence. Qed.

Lemma length_append (a b : string) :
  String.length (a ++ b) = (String.length a + String.length b)%nat.
Proof. induction a; simpl; congruence. Qed.

Lemma has_nl_append (a b : string) :
  has_nl (a ++ b) = has_nl a || has_nl b.
Proof.
  induction a as [|c a IH]; simpl; [reflexivity|].
  rewrite IH. now rewrite orb_assoc.
Qed.

Lemma has_nl_tail (s : string) : has_nl s = false -> has_nl (Py.tail s) = false.
Proof.
  destruct s as [|c s]; simpl; [reflexivity|].
  intros H. now apply orb_false_elim in H.
Qed.

Lemma has_nl_lstrip (s : string) :
  has_nl s = false -> has_nl (Py.lstrip s) = false.
Proof.
  induction s as [|c s IH]; simpl; [reflexivity|].
  intros H. destruct (Py.isspace c); [|exact H].
  apply IH. now apply orb_false_elim in H.
Qed.

Lemma split_from_not_nil (sep : string) (s : string) :
  forall k, Py.split_from sep k s <> [].
Proof.
  induction s as [|c s IH]; intros k; cbn [Py.split_from]; [discriminate|].
  destruct k; [|apply IH].
  destruct (prefix sep (String c s)); [discriminate|].
  destruct (Py.split_from sep 0 s); discriminate.
Qed.

Lemma split_not_nil (sep s : string) : Py.split sep s <> [].
Proof. apply split_from_not_nil. Qed.

(** The pieces of a string without line feed hold none, whatever the
    separator. *)
Lemma split_from_has_nl (sep : string) (s : string) :
  has_nl s = false ->
  forall k, Forall (fun w => has_nl w = false) (Py.split_from sep k s).
Proof.
  induction s as [|c s IH]; intros H k; cbn [Py.split_from].
  - repeat constructor.
  - simpl in H. apply orb_false_elim in H. destruct H as [Hc Hs].
    destruct k; [|now apply IH].
    destruct (prefix sep (String c s)).
    + constructor; [reflexivity|now apply IH].
    + specialize (IH Hs 0%nat).
      destruct (Py.split_from sep 0 s) as [|h t].
      * repeat constructor. simpl. now rewrite Hc.
      * inversion IH; subst. constructor; [|assumption].
        simpl. rewrite Hc. assumption.
Qed.

Lemma prefix_nl (c : ascii) (s : string) :
  prefix Py.nl (String c s) = Ascii.eqb c "010".
Proof.
  unfold Py.nl. cbn [prefix].
  destruct (ascii_dec "010" c) as [E|N].
  - subst c. now destruct s.
  - symmetry. apply Ascii.eqb_neq. congruence.
Qed.

Lemma split_nl_cons (c : ascii) (s : string) :
  Py.split Py.nl (String c s) =
  if Ascii.eqb c "010" then "" :: Py.split Py.nl s
  else match Py.split Py.nl s with
       | h :: t => String c h :: t
       | [] => [String c ""]
       end.
Proof.
  unfold Py.split. cbn [Py.split_from]. now rewrite prefix_nl.
Qed.

(** A prefix without line feed stays on the first line. *)
Lemma split_nl_app (a s : string) :
  has_nl a = false ->
  Py.split Py.nl (a ++ s) =
  match Py.split Py.nl s with
  | h :: t => (a ++ h) :: t
  | [] => [a]
  end.
Proof.
  induction a as [|c a IH]; intros H.
  - simpl. destruct (Py.split Py.nl s) eqn:E; [|reflexivity].
    now apply split_not_nil in E.
  - simpl in H. apply orb_false_elim in H. destruct H as [Hc Ha].
    simpl. rewrite split_nl_cons, Hc, (IH Ha).
    destruct (Py.split Py.nl s); reflexivity.
Qed.

Lemma split_nl_clean (a : string) :
  has_nl a = false -> Py.split Py.nl a = [a].
Proof.
  intros H. rewrite <- (append_nil_r a) at 1.
  rewrite (split_nl_app a "" H). simpl. now rewrite append_nil_r.
Qed.

Lemma split_nl_break (a s : string) :
  has_nl a = false ->
  Py.split Py.nl (a ++ Py.nl ++ s) = a :: Py.split Py.nl s.
Proof.
  intros H. rewrite (split_nl_app a _ H).
  change (Py.nl ++ s) with (String "010" s).
  rewrite split_nl_cons. simpl. now rewrite append_nil_r.
Qed.

(** [split] undoes [join] on lines without line feed. *)
Lemma split_join_nl (ls : list string) :
  ls <> [] -> Forall (fun l => has_nl l = false) ls ->
  Py.split Py.nl (Py.join Py.nl ls) = ls.
Proof.
  induction ls as [|a ls IH]; intros Hne Hall; [congruence|].
  inversion Hall as [|? ? Ha Hls]; subst.
  destruct ls as [|b ls].
  - simpl. now apply split_nl_clean.
  - change (Py.join Py.nl (a :: b :: ls))
      with (a ++ Py.nl ++ Py.join Py.nl (b :: ls)).
    rewrite (split_nl_break a _ Ha). f_equal. apply IH; [discriminate|assumption].
Qed.

Lemma join_cons (sep x : string) (ls : list string) :
  ls <> [] -> Py.join sep (x :: ls) = x ++ sep ++ Py.join sep ls.
Proof. destruct ls; [congruence|reflexivity]. Qed.

Lemma snoc_not_nil {A : Type} (ls : list A) (a : A) : (ls ++ [a])%list <> [].
Proof. destruct ls; discriminate. Qed.

Lemma join_snoc (sep : string) (ls : list string) (a b : string) :
  Py.join sep (ls ++ [a]) ++ sep ++ b = Py.join sep ((ls ++ [a]) ++ [b]).
Proof.
  induction ls as [|x ls IH].
  - reflexivity.
  - cbn [app]. rewrite !join_cons by apply snoc_not_nil.
    rewrite <- IH. now rewrite !append_assoc.
Qed.

Lemma join_last_append (sep : string) (ls : list string) (a w : string) :
  Py.join sep (ls ++ [a]) ++ w = Py.join sep (ls ++ [a ++ w]).
Proof.
  induction ls as [|x ls IH].
  - reflexivity.
  - cbn [app]. rewrite !join_cons by apply snoc_not_nil.
    rewrite <- IH. now rewrite !append_assoc.
Qed.

(** ** The scenarios of the specification *)

Example scenario_three_words_a_line :
  paragraphs (@measure_pass sample_metrics scenario_block (strip 340))
  = [["Hello world this"; "is a test"]].
Proof. vm_compute. reflexivity. Qed.

Example scenario_short_text_one_line :
  exists tb' st',
    @calculate_text_bb sample_metrics 4 scenario_block (strip 4488) 1000
      (1 # 2) CallerList empty_store = Returns (tb', st')
    /\ paragraphs tb' = [["Hello world this is a test"]]
    /\ font_scale tb' = 1%Q
    /\ caller_logs st' = [].
Proof. do 2 eexists. split; [vm_compute; reflexivity|]. repeat split. Qed.

Example scenario_two_bulleted_paragraphs :
  paragraphs (@measure_pass sample_metrics bullets_block (strip 4488))
  = [["First point"]; ["Second point"]]
  /\ left_margin (@measure_pass sample_metrics bullets_block (strip 4488))
     = left_margin bullets_block + circle_size bullets_block
       + fst (@text_size sample_metrics bullets_block " ").
Proof. split; vm_compute; reflexivity. Qed.

Example split_keeps_empty_pieces :
  Py.split ";" "a;;b;" = ["a"; ""; "b"; ""].
Proof. reflexivity. Qed.

Example lstrip_drops_leading_blanks :
  Py.lstrip "  a b " = "a b ".
Proof. reflexivity. Qed.

(** ** The wrap loop against greedy packing *)

Section WrapFacts.

Context {metrics : GlyphMetrics}.
Variable tb : TextBox.
Variable img : image.

Lemma wrap_words_fold (n : nat) (words : list string) :
  forall ix st,
    wrap_words tb img n ix words st =
    fold_left (fun st w => wrap_step tb img w st)
      (decorate_all tb n ix words) st.
Proof.
  induction words as [|w ws IH]; intros ix st; simpl; [reflexivity|].
  apply IH.
Qed.

Lemma line_text_cons (a : string) (l : list string) :
  line_text (a :: l) = a ++ line_text l.
Proof.
  unfold line_text. destruct l; simpl; [now rewrite append_nil_r|reflexivity].
Qed.

Lemma line_text_snoc (cur : list string) (w : string) :
  line_text (cur ++ [w]) = line_text cur ++ w.
Proof.
  induction cur as [|a cur IH].
  - reflexivity.
  - cbn [app]. rewrite !line_text_cons, IH. now rewrite append_assoc.
Qed.

Lemma wrap_step_render (w : string) (s : list (list string) * list string * Z) :
  wrap_step tb img w (render s) = render (pack_step tb img w s).
Proof.
  destruct s as [[done cur] x]. unfold render, wrap_step, pack_step.
  cbn [lines_of snd fst].
  destruct (x + fst (text_size tb w) <=? shape1 img - right_margin tb).
  - cbn [lines_of snd]. f_equal.
    rewrite !map_app. cbn [map]. rewrite line_text_snoc.
    apply join_last_append.
  - cbn [lines_of snd]. f_equal.
    rewrite !map_app. cbn [map].
    change (line_text [Py.tail w]) with (Py.tail w).
    apply join_snoc.
Qed.

Lemma wrap_fold_render (words : list string) :
  forall s,
    fold_left (fun st w => wrap_step tb img w st) words (render s) =
    render (pack_from tb img words s).
Proof.
  induction words as [|w ws IH]; intros s; [reflexivity|].
  unfold pack_from. cbn [fold_left]. rewrite wrap_step_render. apply IH.
Qed.

(** The paragraph text of the source is the packed lines joined by line
    feeds. *)
Lemma wrap_paragraph_pack (p : string) :
  wrap_paragraph tb img p =
  Py.join Py.nl (map line_text (pack_lines tb img p)).
Proof.
  unfold wrap_paragraph, pack_lines. rewrite wrap_words_fold.
  change (EmptyString, left_margin tb)
    with (render ([], [], left_margin tb)).
  rewrite wrap_fold_render. reflexivity.
Qed.

End WrapFacts.

(** ** Greedy packing: whole words, and lines that fit *)

Section PackFacts.

Context {metrics : GlyphMetrics}.
Variable tb : TextBox.
Variable img : image.

Local Abbreviation limit := (shape1 img - right_margin tb).
Local Abbreviation W s := (fst (text_size tb s)).

Lemma line_text_clean (g : list string) :
  Forall clean g -> clean (line_text g).
Proof.
  induction 1 as [|a g Ha _ IH]; [reflexivity|].
  rewrite line_text_cons. unfold clean in *.
  now rewrite has_nl_append, Ha, IH.
Qed.

(** Every step adds exactly one piece, at the end. *)
Lemma pack_step_pieces (w : string) (s : list (list string) * list string * Z) :
  exists piece,
    piece_of piece w /\
    List.concat (lines_of (pack_step tb img w s)) = (List.concat (lines_of s) ++ [piece])%list.
Proof.
  destruct s as [[done cur] x]. unfold pack_step.
  destruct (x + fst (text_size tb w) <=? shape1 img - right_margin tb).
  - exists w. split; [now left|]. cbn [lines_of].
    rewrite !concat_app. cbn [List.concat]. now rewrite !app_nil_r, app_assoc.
  - exists (Py.tail w). split; [now right|]. cbn [lines_of].
    rewrite (concat_app (done ++ [cur])). cbn [List.concat]. now rewrite app_nil_r.
Qed.

Lemma pack_from_pieces (words : list string) :
  forall s pre,
    Forall2 piece_of (List.concat (lines_of s)) pre ->
    Forall2 piece_of (List.concat (lines_of (pack_from tb img words s)))
      (pre ++ words).
Proof.
  induction words as [|w ws IH]; intros s pre H.
  - now rewrite app_nil_r.
  - unfold pack_from. cbn [fold_left].
    destruct (pack_step_pieces w s) as [piece [Hp E]].
    replace (pre ++ w :: ws)%list with ((pre ++ [w]) ++ ws)%list
      by now rewrite <- app_assoc.
    apply IH. rewrite E. apply Forall2_app; [assumption|].
    constructor; [assumption|constructor].
Qed.

Lemma pack_step_clean (w : string) (s : list (list string) * list string * Z) :
  clean w -> Forall (Forall clean) (lines_of s) ->
  Forall (Forall clean) (lines_of (pack_step tb img w s)).
Proof.
  destruct s as [[done cur] x]. unfold pack_step. cbn [lines_of].
  intros Hw H. apply Forall_app in H. destruct H as [Hd Hc].
  inversion Hc as [|? ? Hcur _]; subst.
  destruct (x + fst (text_size tb w) <=? shape1 img - right_margin tb);
    cbn [lines_of].
  - apply Forall_app. split; [assumption|]. constructor; [|constructor].
    apply Forall_app. split; [assumption|]. now constructor.
  - apply Forall_app. split.
    + apply Forall_app. split; [assumption|]. now constructor.
    + constructor; [|constructor]. constructor; [|constructor].
      now apply has_nl_tail.
Qed.

Lemma pack_from_clean (words : list string) :
  Forall clean words ->
  forall s, Forall (Forall clean) (lines_of s) ->
            Forall (Forall clean) (lines_of (pack_from tb img words s)).
Proof.
  induction 1 as [|w ws Hw _ IH]; intros s H; [assumption|].
  unfold pack_from. cbn [fold_left]. apply IH. now apply pack_step_clean.
Qed.

Lemma total_width_app (a b : list string) :
  total_width tb (a ++ b) = total_width tb a + total_width tb b.
Proof.
  unfold total_width. induction a as [|w a IH]; cbn [app map fold_right];
    [reflexivity|]. rewrite IH. lia.
Qed.

Lemma run_end_snoc (line : list string) (w : string) :
  run_end tb (line ++ [w]) = run_end tb line + W w.
Proof.
  unfold run_end. rewrite total_width_app. unfold total_width. cbn. lia.
Qed.

Lemma clip_snoc (run : list string) (w : string) :
  run <> [] -> clip (run ++ [w]) = (clip run ++ [w])%list.
Proof. destruct run; [congruence|reflexivity]. Qed.

Lemma hd_snoc (run : list string) (w : string) :
  run <> [] -> hd "" (run ++ [w]) = hd "" run.
Proof. destruct run; [congruence|reflexivity]. Qed.

Lemma last_cons {A : Type} (l : list A) (a d : A) :
  last (a :: l) d = last l a.
Proof.
  revert a d. induction l as [|b l IH]; intros a d; [reflexivity|].
  change (last (a :: b :: l) d) with (last (b :: l) d).
  now rewrite (IH b d), (IH b a).
Qed.

Lemma last_line (done : list (list string)) (cur first : list string)
    (stored : list (list string)) :
  (done ++ [cur])%list = first :: stored -> last stored first = cur.
Proof.
  intros H. rewrite <- (last_cons stored first []), <- H.
  apply last_last.
Qed.

Lemma breaks_needed_snoc (rest : list (list string)) :
  forall previous run,
    breaks_needed tb img previous (rest ++ [run])
    <-> breaks_needed tb img previous rest
        /\ limit < run_end tb (last (map clip rest) previous)
                    + W (hd "" run).
Proof.
  induction rest as [|r rest IH]; intros previous run.
  - cbn. tauto.
  - cbn [app breaks_needed map]. rewrite IH, last_cons. tauto.
Qed.

(** A step of the loop keeps the runs. *)
Lemma pack_step_runs (w : string) (s : list (list string) * list string * Z)
    (consumed : list string) :
  run_inv tb img s consumed ->
  run_inv tb img (pack_step tb img w s) (consumed ++ [w]).
Proof.
  destruct s as [[done cur] x]. unfold run_inv, pack_step.
  intros (first & rest & Hpre & Hne & Hlines & Hx & Hbr & Hfirst & Hfit).
  pose proof (last_line _ _ _ _ Hlines) as Hlast.
  destruct (x + W w <=? limit) eqn:E.
  - apply Z.leb_le in E.
    destruct rest as [|run rest0 _] using rev_ind.
    + cbn [map last] in Hlines, Hlast. subst cur.
      assert (done = []) by (destruct done as [|? [|? ?]]; now inversion Hlines).
      subst done.
      exists (first ++ [w])%list, []. cbn [List.concat map app].
      rewrite Hpre. cbn [List.concat]. rewrite !app_nil_r.
      repeat split; try constructor.
      * rewrite run_end_snoc. lia.
      * intros _. rewrite run_end_snoc. lia.
    + rewrite map_app in Hlines, Hlast. cbn [map] in Hlines, Hlast.
      rewrite last_last in Hlast. subst cur.
      change (first :: (map clip rest0 ++ [clip run])%list)
        with ((first :: map clip rest0) ++ [clip run])%list in Hlines.
      apply app_inj_tail in Hlines. destruct Hlines as [Hdone _].
      apply Forall_app in Hne. destruct Hne as [Hne0 Hrun].
      inversion Hrun as [|? ? Hrun0 _]; subst.
      apply Forall_app in Hfit. destruct Hfit as [Hfit0 _].
      apply breaks_needed_snoc in Hbr.
      exists first, (rest0 ++ [run ++ [w]])%list.
      split; [rewrite !concat_app; cbn [List.concat];
              rewrite !app_nil_r, !app_assoc; reflexivity|].
      split; [apply Forall_app; split; [exact Hne0|];
              constructor; [apply snoc_not_nil|constructor]|].
      split; [cbn [app]; rewrite map_app; cbn [map];
              now rewrite clip_snoc by exact Hrun0|].
      split; [rewrite run_end_snoc; lia|].
      split; [apply breaks_needed_snoc;
              now rewrite hd_snoc by exact Hrun0|].
      split; [exact Hfirst|].
      apply Forall_app. split; [exact Hfit0|].
      constructor; [|constructor]. intros _.
      rewrite clip_snoc by exact Hrun0. rewrite run_end_snoc. lia.
  - apply Z.leb_gt in E.
    exists first, (rest ++ [[w]])%list.
    split; [rewrite concat_app; cbn [List.concat app];
            rewrite Hpre, app_assoc; reflexivity|].
    split; [apply Forall_app; split; [exact Hne|];
            constructor; [discriminate|constructor]|].
    split; [rewrite Hlines, map_app; reflexivity|].
    split; [unfold run_end, total_width; cbn; lia|].
    split; [apply breaks_needed_snoc; split; [exact Hbr|];
            rewrite Hlast; cbn [hd]; lia|].
    split; [exact Hfirst|].
    apply Forall_app. split; [exact Hfit|].
    constructor; [|constructor]. cbn [List.length]. lia.
Qed.

Lemma pack_from_runs (words : list string) :
  forall s consumed,
    run_inv tb img s consumed ->
    run_inv tb img (pack_from tb img words s) (consumed ++ words).
Proof.
  induction words as [|w ws IH]; intros s consumed H.
  - now rewrite app_nil_r.
  - unfold pack_from. cbn [fold_left].
    replace (consumed ++ w :: ws)%list with ((consumed ++ [w]) ++ ws)%list
      by now rewrite <- app_assoc.
    apply IH. now apply pack_step_runs.
Qed.

(** Under sub-additive widths a line is no wider than its words together. *)
Lemma line_width_le_total (line : list string) :
  (forall a b, W (a ++ b) <= W a + W b) ->
  line <> [] -> W (line_text line) <= total_width tb line.
Proof.
  intros Hsub. induction line as [|a line IH]; [congruence|]. intros _.
  destruct line as [|b line].
  - unfold line_text, total_width. cbn. lia.
  - rewrite line_text_cons.
    specialize (Hsub a (line_text (b :: line))).
    specialize (IH ltac:(discriminate)).
    change (total_width tb (a :: b :: line))
      with (W a + total_width tb (b :: line)).
    lia.
Qed.

Lemma length_clip (run : list string) :
  List.length (clip run) = List.length run.
Proof. now destruct run. Qed.

(** The lines of the greedy packing of a paragraph. *)
Lemma pack_lines_runs (p : string) :
  wrapped_runs tb img p (map line_text (pack_lines tb img p)).
Proof.
  unfold pack_lines.
  pose proof (pack_from_runs (paragraph_words tb p)
                ([], [], left_margin tb) []) as H.
  cbn [app] in H.
  destruct (pack_from tb img (paragraph_words tb p) ([], [], left_margin tb))
    as [[done cur] x].
  destruct H as (first & rest & Hpre & Hne & Hlines & Hx & Hbr & Hfirst & Hfit).
  { exists [], []. cbn. repeat split; try constructor.
    - unfold run_end, total_width. cbn. lia.
    - congruence. }
  exists first, rest. cbn [lines_of]. rewrite Hlines.
  repeat (split; [assumption || reflexivity|]).
  intros Hsub Hleft. constructor.
  - intros H2. assert (Hn : first <> []) by (destruct first; cbn in H2; [lia|discriminate]).
    pose proof (line_width_le_total first Hsub Hn).
    specialize (Hfirst Hn). unfold run_end in Hfirst. lia.
  - apply Forall_map. eapply Forall_impl; [|exact Hfit].
    intros run Hrun H2. rewrite length_clip in H2. specialize (Hrun H2).
    assert (Hn : clip run <> [])
      by (destruct run; cbn in H2 |- *; [lia|discriminate]).
    pose proof (line_width_le_total (clip run) Hsub Hn).
    unfold run_end in Hrun. lia.
Qed.

End PackFacts.

(** ** One pass of the measurement *)

Section PassFacts.

Context {metrics : GlyphMetrics}.
Variable img : image.

Lemma same_static_refl (a : TextBox) : same_static a a.
Proof. repeat split. Qed.

Lemma same_static_trans (a b c : TextBox) :
  same_static a b -> same_static b c -> same_static a c.
Proof.
  unfold same_static. intros H1 H2.
  repeat match goal with H : _ /\ _ |- _ => destruct H end.
  repeat split; congruence.
Qed.

Lemma text_size_same (a b : TextBox) (s : string) :
  same_wrap a b -> text_size a s = text_size b s.
Proof.
  unfold same_wrap, text_size. intros (-> & -> & -> & _). reflexivity.
Qed.

Lemma decorate_all_same (a b : TextBox) (n : nat) (ws : list string) :
  same_wrap a b ->
  forall ix, decorate_all a n ix ws = decorate_all b n ix ws.
Proof.
  intros (_ & _ & _ & _ & _ & Hd & Hs).
  induction ws as [|w ws IH]; intros ix; [reflexivity|].
  cbn [decorate_all]. rewrite IH. unfold decorate_word.
  now rewrite Hd, Hs.
Qed.

Lemma paragraph_words_same (a b : TextBox) (p : string) :
  same_wrap a b -> paragraph_words a p = paragraph_words b p.
Proof.
  intros H. unfold paragraph_words.
  rewrite (decorate_all_same a b _ _ H).
  destruct H as (_ & _ & _ & _ & _ & -> & _). reflexivity.
Qed.

Lemma wrap_step_same (a b : TextBox) (w : string) (st : string * Z) :
  same_wrap a b -> wrap_step a img w st = wrap_step b img w st.
Proof.
  intros H. unfold wrap_step. destruct st as [ft x].
  rewrite !(text_size_same a b _ H).
  destruct H as (_ & _ & _ & -> & -> & _). reflexivity.
Qed.

Lemma wrap_paragraph_same (a b : TextBox) (p : string) :
  same_wrap a b -> wrap_paragraph a img p = wrap_paragraph b img p.
Proof.
  intros H. unfold wrap_paragraph. rewrite !wrap_words_fold.
  pose proof H as (_ & _ & _ & Hl & _ & Hd & _).
  rewrite Hd, Hl, (decorate_all_same a b _ _ H).
  f_equal. generalize (EmptyString, left_margin b).
  induction (decorate_all b (List.length (Py.split (delim b) p)) 0
               (Py.split (delim b) p)) as [|w ws IH]; intros st.
  - reflexivity.
  - cbn [fold_left]. rewrite (wrap_step_same a b w st H). apply IH.
Qed.

(** The block on which the wrap loop of a pass runs. *)
Lemma measure_pass_static (tb : TextBox) :
  same_static tb (measure_pass tb img)
  /\ font_scale (measure_pass tb img) = font_scale tb
  /\ font_width (measure_pass tb img) = font_width tb.
Proof.
  unfold measure_pass.
  destruct (paragraph_break tb) eqn:E;
    match goal with
    | |- context [measure_paragraphs ?a ?b ?c ?d ?e] =>
        destruct (measure_paragraphs a b c d e)
    end; repeat split; symmetry; assumption || reflexivity.
Qed.

Lemma measure_pass_left_margin (tb : TextBox) :
  left_margin (measure_pass tb img) =
  if paragraph_break tb
  then left_margin tb + circle_size tb + fst (text_size tb " ")
  else left_margin tb.
Proof.
  unfold measure_pass.
  destruct (paragraph_break tb);
    match goal with
    | |- context [measure_paragraphs ?a ?b ?c ?d ?e] =>
        destruct (measure_paragraphs a b c d e)
    end; reflexivity.
Qed.

(** The lines a pass leaves are the wrap of its own paragraphs, read with
    the margin and font the pass leaves. *)
Lemma measure_pass_paragraphs (tb : TextBox) :
  paragraphs (measure_pass tb img) =
  map (fun p => Py.split Py.nl (wrap_paragraph (measure_pass tb img) img p))
      (paragraphs_raw tb).
Proof.
  unfold measure_pass.
  destruct (paragraph_break tb) eqn:E;
    match goal with
    | |- context [measure_paragraphs ?a ?b ?c ?d ?e] =>
        destruct (measure_paragraphs a b c d e) as [h w]
    end; cbn [paragraphs set_measure].
  - unfold paragraphs_raw at 1. cbn [paragraph_break set_left_margin text].
    unfold paragraphs_raw. rewrite E.
    apply map_ext. intros p. f_equal.
    apply wrap_paragraph_same. repeat split.
  - unfold paragraphs_raw. rewrite E.
    apply map_ext. intros p. f_equal.
    apply wrap_paragraph_same. repeat split.
Qed.

End PassFacts.

(** ** The auto-fit recursion *)

Section AutoFit.

Context {metrics : GlyphMetrics}.
Variable img : image.
Variable max_bb_size : Z.
Variable min_font_scale : Q.

Lemma calculate_text_bb_unfold (fuel : nat) (tb : TextBox) (r : log_ref)
    (st : log_store) :
  calculate_text_bb (S fuel) tb img max_bb_size min_font_scale r st =
  if (delim tb =? "")%string then Raises ValueError
  else
    let tb1 := measure_pass tb img in
    if Qeq_bool (font_scale tb1) min_font_scale
    then Returns (tb1, log_append r (ReachedMinimum (name tb1)) st)
    else if snd (bounding_box tb1) >? max_bb_size
    then
      let tb2 := downscale tb1 (left_margin tb) in
      calculate_text_bb fuel tb2 img max_bb_size min_font_scale DefaultArg
        (log_append r (ExceededMaximum (name tb2) (font_scale tb2)) st)
    else Returns (tb1, st).
Proof. reflexivity. Qed.

Lemma downscale_static (tb : TextBox) (m : Z) : same_static tb (downscale tb m).
Proof. repeat split. Qed.

Lemma downscale_stroke (tb : TextBox) (m : Z) : stroke_ok (downscale tb m).
Proof. reflexivity. Qed.

Lemma downscale_scale (tb : TextBox) (m : Z) :
  font_scale (downscale tb m) == font_scale tb - (1 # 2).
Proof.
  change (font_scale (downscale tb m))
    with (Qred (font_scale tb - (1 # 2))).
  apply Qred_correct.
Qed.

(** A call that returns leaves the block as its last pass left it; that
    pass started from the block given or from one with height and width
    cleared. *)
Lemma calculate_text_bb_last_pass (fuel : nat) :
  forall tb r st tb' st',
    calculate_text_bb fuel tb img max_bb_size min_font_scale r st
    = Returns (tb', st') ->
    exists tb0,
      tb' = measure_pass tb0 img /\ same_static tb tb0
      /\ (tb0 = tb \/ height tb0 = 0 /\ width tb0 = 0).
Proof.
  induction fuel as [|fuel IH]; intros tb r st tb' st' H; [discriminate|].
  rewrite calculate_text_bb_unfold in H.
  destruct (delim tb =? "")%string; [discriminate|].
  cbv zeta in H.
  destruct (Qeq_bool _ _).
  - injection H as <- <-. exists tb.
    split; [reflexivity|]. split; [apply same_static_refl|now left].
  - destruct (_ >? _).
    + apply IH in H. destruct H as (tb0 & E & S0 & Hfrom). exists tb0.
      split; [assumption|]. split.
      * eapply same_static_trans; [|exact S0].
        eapply same_static_trans; [apply (measure_pass_static img tb)|].
        apply downscale_static.
      * right. destruct Hfrom as [-> | Hz]; [split; reflexivity|exact Hz].
    + injection H as <- <-. exists tb.
      split; [reflexivity|]. split; [apply same_static_refl|now left].
Qed.

Lemma calculate_text_bb_static (fuel : nat) (tb : TextBox) (r : log_ref)
    (st : log_store) (tb' : TextBox) (st' : log_store) :
  calculate_text_bb fuel tb img max_bb_size min_font_scale r st
  = Returns (tb', st') ->
  same_static tb tb'.
Proof.
  intros H. apply calculate_text_bb_last_pass in H.
  destruct H as (tb0 & -> & S0 & _).
  eapply same_static_trans; [exact S0|apply measure_pass_static].
Qed.

(** The lines a call leaves are the wrap of the paragraphs of its text,
    read with the margin and font the call leaves. *)
Lemma calculate_text_bb_paragraphs (fuel : nat) (tb : TextBox) (r : log_ref)
    (st : log_store) (tb' : TextBox) (st' : log_store) :
  calculate_text_bb fuel tb img max_bb_size min_font_scale r st
  = Returns (tb', st') ->
  paragraphs tb' =
  map (fun p => Py.split Py.nl (wrap_paragraph tb' img p)) (paragraphs_raw tb).
Proof.
  intros H. apply calculate_text_bb_last_pass in H.
  destruct H as (tb0 & -> & S0 & _).
  rewrite measure_pass_paragraphs. f_equal.
  unfold paragraphs_raw.
  destruct S0 as (_ & -> & _ & _ & _ & _ & -> & _). reflexivity.
Qed.

(** The stroke width follows the scale through a whole call. *)
Lemma calculate_text_bb_stroke (fuel : nat) :
  forall tb r st tb' st',
    stroke_ok tb ->
    calculate_text_bb fuel tb img max_bb_size min_font_scale r st
    = Returns (tb', st') ->
    stroke_ok tb'.
Proof.
  induction fuel as [|fuel IH]; intros tb r st tb' st' Hok H; [discriminate|].
  rewrite calculate_text_bb_unfold in H.
  destruct (delim tb =? "")%string; [discriminate|].
  cbv zeta in H.
  assert (Hpass : stroke_ok (measure_pass tb img)).
  { unfold stroke_ok.
    destruct (measure_pass_static img tb) as (_ & -> & ->). exact Hok. }
  destruct (Qeq_bool _ _).
  - injection H as <- <-. exact Hpass.
  - destruct (_ >? _).
    + eapply IH; [|exact H]. apply downscale_stroke.
    + injection H as <- <-. exact Hpass.
Qed.

Lemma downgrades_append_exceeded (r : log_ref) (n : string) (s : Q)
    (st : log_store) :
  downgrades (log_append r (ExceededMaximum n s) st) = downgrades st + 1.
Proof.
  unfold downgrades, count_exceeded.
  destruct r; cbn [log_append default_logs caller_logs];
    rewrite filter_app, length_app; cbn; lia.
Qed.

Lemma downgrades_append_reached (r : log_ref) (n : string) (st : log_store) :
  downgrades (log_append r (ReachedMinimum n) st) = downgrades st.
Proof.
  unfold downgrades, count_exceeded.
  destruct r; cbn [log_append default_logs caller_logs];
    rewrite filter_app, length_app; cbn; lia.
Qed.

(** Within one call the scale only goes down, by one half per recorded
    downgrade. *)
Lemma calculate_text_bb_scale (fuel : nat) :
  forall tb r st tb' st',
    calculate_text_bb fuel tb img max_bb_size min_font_scale r st
    = Returns (tb', st') ->
    downgrades st <= downgrades st'
    /\ font_scale tb' ==
       font_scale tb - inject_Z (downgrades st' - downgrades st) * (1 # 2).
Proof.
  induction fuel as [|fuel IH]; intros tb r st tb' st' H; [discriminate|].
  rewrite calculate_text_bb_unfold in H.
  destruct (delim tb =? "")%string; [discriminate|].
  cbv zeta in H.
  pose proof (measure_pass_static img tb) as (_ & Hs & _).
  destruct (Qeq_bool _ _).
  - injection H as <- <-. rewrite downgrades_append_reached, Hs.
    split; [lia|]. rewrite Z.sub_diag. ring.
  - destruct (_ >? _).
    + apply IH in H. destruct H as [Hle Heq].
      rewrite downgrades_append_exceeded in *. split; [lia|].
      rewrite Heq, downscale_scale, Hs.
      replace (downgrades st' - downgrades st)
        with ((downgrades st' - (downgrades st + 1)) + 1) by lia.
      rewrite inject_Z_plus. ring.
    + injection H as <- <-. rewrite Hs. split; [lia|].
      rewrite Z.sub_diag. ring.
Qed.

(** Where the starting scale sits on the half-unit grid above the floor,
    the call returns within [k] downgrades and never passes the floor. *)
Lemma calculate_text_bb_on_grid (k : nat) :
  forall fuel tb r st,
    delim tb <> "" ->
    font_scale tb == min_font_scale + inject_Z (Z.of_nat k) * (1 # 2) ->
    (k < fuel)%nat ->
    exists tb' st',
      calculate_text_bb fuel tb img max_bb_size min_font_scale r st
      = Returns (tb', st')
      /\ (min_font_scale <= font_scale tb')%Q
      /\ downgrades st' - downgrades st <= Z.of_nat k.
Proof.
  induction k as [|k IH]; intros fuel tb r st Hd Hs Hf;
    (destruct fuel as [|fuel]; [lia|]);
    rewrite calculate_text_bb_unfold;
    (destruct (delim tb =? "")%string eqn:Ed;
     [apply String.eqb_eq in Ed; contradiction|]);
    cbv zeta;
    pose proof (measure_pass_static img tb) as (_ & Hsc & _).
  - assert (E : Qeq_bool (font_scale (measure_pass tb img)) min_font_scale = true).
    { apply Qeq_bool_iff. rewrite Hsc, Hs. cbn. ring. }
    rewrite E. do 2 eexists. split; [reflexivity|].
    rewrite downgrades_append_reached, Hsc, Hs. split; [|lia].
    cbn. ring_simplify. apply Qle_refl.
  - assert (E : Qeq_bool (font_scale (measure_pass tb img)) min_font_scale = false).
    { apply not_true_is_false. intros C. apply Qeq_bool_iff in C.
      rewrite Hsc, Hs in C.
      assert (0 < inject_Z (Z.of_nat (S k)) * (1 # 2))%Q.
      { apply Qmult_lt_0_compat; [|reflexivity].
        rewrite <- (Zlt_Qlt 0). lia. }
      lra. }
    rewrite E.
    destruct (_ >? _).
    + set (tb2 := downscale (measure_pass tb img) (left_margin tb)).
      destruct (IH fuel tb2 DefaultArg
                  (log_append r (ExceededMaximum (name tb2) (font_scale tb2)) st))
        as (tb' & st' & Hr & Hmin & Hcount).
      * destruct (downscale_static (measure_pass tb img) (left_margin tb))
          as (_ & _ & _ & _ & _ & _ & _ & _ & _ & _ & _ & Hdd & _).
        destruct (measure_pass_static img tb)
          as ((_ & _ & _ & _ & _ & _ & _ & _ & _ & _ & _ & Hdp & _) & _).
        unfold tb2. congruence.
      * unfold tb2. rewrite downscale_scale, Hsc, Hs.
        rewrite Nat2Z.inj_succ, <- Z.add_1_r, inject_Z_plus. ring.
      * lia.
      * exists tb', st'. split; [exact Hr|]. split; [exact Hmin|].
        rewrite downgrades_append_exceeded in Hcount. lia.
    + do 2 eexists. split; [reflexivity|]. split; [|lia].
      rewrite Hsc, Hs.
      assert (0 <= inject_Z (Z.of_nat (S k)) * (1 # 2))%Q.
      { apply Qmult_le_0_compat; [|discriminate].
        rewrite <- (Zle_Qle 0). lia. }
      lra.
Qed.

(** On the grid the scale a call leaves is on the grid too, between the
    floor and the starting scale. *)
Lemma calculate_text_bb_on_grid_scale (k : nat) (fuel : nat) (tb : TextBox)
    (r : log_ref) (st : log_store) :
  delim tb <> "" ->
  font_scale tb == min_font_scale + inject_Z (Z.of_nat k) * (1 # 2) ->
  (k < fuel)%nat ->
  exists tb' st' j,
    calculate_text_bb fuel tb img max_bb_size min_font_scale r st
    = Returns (tb', st')
    /\ (j <= k)%nat
    /\ font_scale tb' == min_font_scale + inject_Z (Z.of_nat j) * (1 # 2).
Proof.
  intros Hd Hs Hf.
  destruct (calculate_text_bb_on_grid k fuel tb r st Hd Hs Hf)
    as (tb' & st' & Hr & _ & Hcount).
  destruct (calculate_text_bb_scale _ _ _ _ _ _ Hr) as [Hle Heq].
  exists tb', st', (k - Z.to_nat (downgrades st' - downgrades st))%nat.
  split; [exact Hr|]. split; [lia|].
  rewrite Heq, Hs.
  replace (Z.of_nat k)
    with (Z.of_nat (k - Z.to_nat (downgrades st' - downgrades st))
          + (downgrades st' - downgrades st)) by lia.
  rewrite inject_Z_plus. ring.
Qed.

(** Off the grid the floor is never met: a call that returns does so
    because the bounding box fits, at whatever scale that happens. *)
Lemma calculate_text_bb_off_grid (fuel : nat) :
  forall tb r st tb' st',
    (forall k : nat,
        ~ font_scale tb == min_font_scale + inject_Z (Z.of_nat k) * (1 # 2)) ->
    calculate_text_bb fuel tb img max_bb_size min_font_scale r st
    = Returns (tb', st') ->
    ~ font_scale tb' == min_font_scale
    /\ snd (bounding_box tb') <= max_bb_size.
Proof.
  induction fuel as [|fuel IH]; intros tb r st tb' st' Hoff H; [discriminate|].
  rewrite calculate_text_bb_unfold in H.
  destruct (delim tb =? "")%string; [discriminate|].
  cbv zeta in H.
  pose proof (measure_pass_static img tb) as (_ & Hsc & _).
  destruct (Qeq_bool _ _) eqn:Eq.
  - apply Qeq_bool_iff in Eq. rewrite Hsc in Eq.
    exfalso. apply (Hoff 0%nat). rewrite Eq. cbn. ring.
  - destruct (_ >? _) eqn:Eb.
    + eapply IH; [|exact H]. intros k C.
      rewrite downscale_scale, Hsc in C.
      apply (Hoff (S k)).
      rewrite Nat2Z.inj_succ, <- Z.add_1_r, inject_Z_plus.
      rewrite <- (Qplus_inj_r _ _ (- (1 # 2))). rewrite C. ring.
    + injection H as <- <-. split.
      * intros C. apply Qeq_bool_iff in C. congruence.
      * rewrite Z.gtb_ltb in Eb. apply Z.ltb_ge in Eb. exact Eb.
Qed.

(** Only an empty delimiter makes a call raise. *)
Lemma calculate_text_bb_raises (fuel : nat) :
  forall tb r st e,
    calculate_text_bb fuel tb img max_bb_size min_font_scale r st = Raises e ->
    delim tb = "".
Proof.
  induction fuel as [|fuel IH]; intros tb r st e H; [discriminate|].
  rewrite calculate_text_bb_unfold in H.
  destruct (delim tb =? "")%string eqn:Ed; [now apply String.eqb_eq|].
  cbv zeta in H.
  destruct (Qeq_bool _ _); [discriminate|].
  destruct (_ >? _); [|discriminate].
  apply IH in H. exfalso. apply String.eqb_neq in Ed.
  destruct (measure_pass_static img tb)
    as ((_ & _ & _ & _ & _ & _ & _ & _ & _ & _ & _ & Hdp & _) & _).
  cbn [delim downscale set_measure set_left_margin set_font] in H.
  congruence.
Qed.

(** Off the grid, a text whose bounding box exceeds the maximum at every
    scale keeps the recursion going beyond any budget. *)
Lemma calculate_text_bb_off_grid_never_returns (fuel : nat) (tb : TextBox)
    (r : log_ref) (st : log_store) :
  delim tb <> "" ->
  0 <= height tb ->
  (forall k : nat,
      ~ font_scale tb == min_font_scale + inject_Z (Z.of_nat k) * (1 # 2)) ->
  (forall tb0,
      same_static tb tb0 -> 0 <= height tb0 ->
      snd (bounding_box (measure_pass tb0 img)) > max_bb_size) ->
  calculate_text_bb fuel tb img max_bb_size min_font_scale r st = OutOfFuel.
Proof.
  intros Hd Hh Hoff Hbig.
  destruct (calculate_text_bb fuel tb img max_bb_size min_font_scale r st)
    as [[tb' st']|e|] eqn:E.
  - destruct (calculate_text_bb_off_grid _ _ _ _ _ _ Hoff E) as [_ Hfit].
    destruct (calculate_text_bb_last_pass _ _ _ _ _ _ E)
      as (tb0 & -> & S0 & Hfrom).
    assert (H0 : 0 <= height tb0)
      by (destruct Hfrom as [-> | [-> _]]; [exact Hh|lia]).
    specialize (Hbig tb0 S0 H0). lia.
  - apply calculate_text_bb_raises in E. contradiction.
  - reflexivity.
Qed.

End AutoFit.

(** ** The scale floor *)

(** C1 (defect of the code).  The floor is tested with [==]:
    a block at scale 3.2 with floor 2.5 is downgraded three times, to
    2.7, 2.2 and 1.7, more than [ceil((3.2 - 2.5) / 0.5) = 2] times, and the
    call returns with scale 1.7, below the floor. *)
Theorem auto_fit_passes_floor :
  exists tb' st',
    @calculate_text_bb sample_metrics 10 off_grid_block (strip 4488) 120
      (5 # 2) CallerList empty_store = Returns (tb', st')
    /\ (5 # 2 <= font_scale off_grid_block)%Q
    /\ Qceiling ((font_scale off_grid_block - (5 # 2)) / (1 # 2)) = 2
    /\ downgrades st' = 3
    /\ font_scale tb' = 17 # 10
    /\ (font_scale tb' < 5 # 2)%Q.
Proof.
  do 2 eexists. split; [vm_compute; reflexivity|].
  repeat split; vm_compute; congruence.
Qed.

(** ** The diagnostics a caller receives *)

Section CallerLogs.

Context {metrics : GlyphMetrics}.
Variable img : image.
Variable max_bb_size : Z.
Variable min_font_scale : Q.

(** A call that omits [logs] leaves the caller's list alone. *)
Lemma calculate_text_bb_default_arg (fuel : nat) :
  forall tb st tb' st',
    calculate_text_bb fuel tb img max_bb_size min_font_scale DefaultArg st
    = Returns (tb', st') ->
    caller_logs st' = caller_logs st.
Proof.
  induction fuel as [|fuel IH]; intros tb st tb' st' H; [discriminate|].
  rewrite calculate_text_bb_unfold in H.
  destruct (delim tb =? "")%string; [discriminate|].
  cbv zeta in H.
  destruct (Qeq_bool _ _).
  - injection H as <- <-. reflexivity.
  - destruct (_ >? _).
    + apply IH in H. exact H.
    + injection H as <- <-. reflexivity.
Qed.

(** However many downgrades a call goes through, the list the caller
    passed grows by one entry at most. *)
Lemma calculate_text_bb_caller_log (fuel : nat) (tb : TextBox)
    (st : log_store) (tb' : TextBox) (st' : log_store) :
  calculate_text_bb fuel tb img max_bb_size min_font_scale CallerList st
  = Returns (tb', st') ->
  exists added,
    caller_logs st' = (caller_logs st ++ added)%list
    /\ (List.length added <= 1)%nat.
Proof.
  destruct fuel as [|fuel]; intros H; [discriminate|].
  rewrite calculate_text_bb_unfold in H.
  destruct (delim tb =? "")%string; [discriminate|].
  cbv zeta in H.
  destruct (Qeq_bool _ _).
  - injection H as <- <-. eexists. split; [reflexivity|]. simpl. lia.
  - destruct (_ >? _).
    + apply calculate_text_bb_default_arg in H. rewrite H.
      eexists. split; [reflexivity|]. simpl. lia.
    + injection H as <- <-. exists []. split; [now rewrite app_nil_r|].
      simpl. lia.
Qed.

End CallerLogs.

(** C7 (defect of the code).  The recursive call omits
    [logs], so its entries go to the default list of the function.  A block
    at scale 3.5 with floor 2.5 goes through three events; the caller's list
    receives the first only. *)
Theorem recursive_events_miss_caller_log :
  exists tb' st',
    @calculate_text_bb sample_metrics 10 tall_block (strip 4488) 120
      (5 # 2) CallerList empty_store = Returns (tb', st')
    /\ caller_logs st' = [ExceededMaximum "Summary Text" 3]
    /\ default_logs st' = [ExceededMaximum "Summary Text" (5 # 2);
                           ReachedMinimum "Summary Text"]
    /\ font_scale tb' = 5 # 2.
Proof.
  do 2 eexists. split; [vm_compute; reflexivity|].
  repeat split.
Qed.

(** ** A first word that does not fit *)

Section FirstWord.

Context {metrics : GlyphMetrics}.
Variable img : image.

Lemma wrap_fold_extends (tb : TextBox) (ws : list string) :
  forall ft x,
    exists rest,
      fst (fold_left (fun st w => wrap_step tb img w st) ws (ft, x))
      = ft ++ rest.
Proof.
  induction ws as [|w ws IH]; intros ft x.
  - exists "". cbn. now rewrite append_nil_r.
  - cbn [fold_left]. unfold wrap_step at 2.
    destruct (_ <=? _).
    + destruct (IH (ft ++ w) (x + fst (text_size tb w))) as [rest E].
      exists (w ++ rest). rewrite E. apply append_assoc.
    + destruct (IH (ft ++ Py.nl ++ Py.tail w)
                  (left_margin tb + fst (text_size tb (Py.tail w))))
        as [rest E].
      exists ((Py.nl ++ Py.tail w) ++ rest). rewrite E. apply append_assoc.
Qed.

Lemma paragraph_words_not_nil (tb : TextBox) (p : string) :
  paragraph_words tb p <> [].
Proof.
  unfold paragraph_words.
  destruct (Py.split (delim tb) p) eqn:E; [now apply split_not_nil in E|].
  discriminate.
Qed.

(** The text of a paragraph whose first word overflows: a line feed, the
    word without its first character, and what follows. *)
Lemma wrap_paragraph_first_overflow (tb : TextBox) (p : string) :
  left_margin tb + fst (text_size tb (hd "" (paragraph_words tb p)))
  > shape1 img - right_margin tb ->
  exists rest,
    wrap_paragraph tb img p
    = Py.nl ++ Py.tail (hd "" (paragraph_words tb p)) ++ rest.
Proof.
  intros Hover. unfold wrap_paragraph. rewrite wrap_words_fold.
  fold (paragraph_words tb p).
  destruct (paragraph_words tb p) as [|first ws] eqn:E;
    [now apply paragraph_words_not_nil in E|].
  cbn [hd] in *. cbn [fold_left]. unfold wrap_step at 2.
  destruct (_ <=? _) eqn:L; [apply Z.leb_le in L; lia|].
  destruct (wrap_fold_extends tb ws ("" ++ Py.nl ++ Py.tail first)
              (left_margin tb + fst (text_size tb (Py.tail first))))
    as [rest Hr].
  exists rest. rewrite Hr. reflexivity.
Qed.

End FirstWord.

(** C9.  Where the first word of a paragraph does not fit after the left
    margin, the paragraph's text starts with a line feed followed by the
    word without its first character: the first line of the paragraph is
    empty and the next line starts with the truncated word. *)
Theorem first_word_too_wide {metrics : GlyphMetrics} (fuel : nat)
    (tb : TextBox) (img : image) (max_bb_size : Z) (min_font_scale : Q)
    (r : log_ref) (st : log_store) (tb' : TextBox) (st' : log_store)
    (i : nat) (p : string) :
  calculate_text_bb fuel tb img max_bb_size min_font_scale r st
  = Returns (tb', st') ->
  nth_error (paragraphs_raw tb) i = Some p ->
  left_margin tb' + fst (text_size tb' (hd "" (paragraph_words tb' p)))
  > shape1 img - right_margin tb' ->
  exists rest second others,
    wrap_paragraph tb' img p
    = Py.nl ++ Py.tail (hd "" (paragraph_words tb' p)) ++ rest
    /\ nth_error (paragraphs tb') i = Some ("" :: second :: others)
    /\ (clean (hd "" (paragraph_words tb' p)) ->
        exists more,
          second = Py.tail (hd "" (paragraph_words tb' p)) ++ more).
Proof.
  intros Hret Hp Hover.
  destruct (wrap_paragraph_first_overflow img tb' p Hover) as [rest Hw].
  rewrite (calculate_text_bb_paragraphs _ _ _ _ _ _ _ _ _ Hret).
  rewrite nth_error_map, Hp. cbn [option_map]. rewrite Hw.
  set (first := hd "" (paragraph_words tb' p)) in *.
  change (Py.nl ++ Py.tail first ++ rest)
    with (String "010" (Py.tail first ++ rest)).
  rewrite split_nl_cons. cbn [Ascii.eqb Bool.eqb].
  destruct (Py.split Py.nl (Py.tail first ++ rest)) as [|second others] eqn:E;
    [now apply split_not_nil in E|].
  exists rest, second, others. repeat split.
  intros Hclean. apply has_nl_tail in Hclean.
  rewrite (split_nl_app _ rest Hclean) in E.
  destruct (Py.split Py.nl rest) as [|h t] eqn:Er;
    [now apply split_not_nil in Er|].
  injection E as <- _. now exists h.
Qed.

Lemma first_word_too_wide_witness :
  exists tb' st' rest second others,
    @calculate_text_bb sample_metrics 1 narrow_block (strip 4488) 280 3
      CallerList empty_store = Returns (tb', st')
    /\ @wrap_paragraph sample_metrics tb' (strip 4488) "Hello"
       = Py.nl ++ "ello" ++ rest
    /\ nth_error (paragraphs tb') 0 = Some ("" :: second :: others)
    /\ (clean "Hello" -> exists more, second = "ello" ++ more).
Proof.
  destruct (@first_word_too_wide sample_metrics 1 narrow_block (strip 4488)
              280 3 CallerList empty_store
              (@measure_pass sample_metrics narrow_block (strip 4488))
              (log_append CallerList (ReachedMinimum "Front Title") empty_store)
              0 "Hello")
    as (rest & second & others & H1 & H2 & H3).
  - vm_compute. reflexivity.
  - reflexivity.
  - vm_compute. reflexivity.
  - exists (@measure_pass sample_metrics narrow_block (strip 4488)),
      (log_append CallerList (ReachedMinimum "Front Title") empty_store),
      rest, second, others.
    split; [vm_compute; reflexivity|].
    split; [exact H1|]. split; [exact H2|exact H3].
Defined.

(** ** The lines of a paragraph without line feed *)

Section CleanParagraphs.

Context {metrics : GlyphMetrics}.
Variable tb : TextBox.
Variable img : image.

Lemma decorate_word_clean (n ix : nat) (w : string) :
  clean (splitter tb) -> clean w -> clean (decorate_word tb n ix w).
Proof.
  unfold clean, decorate_word. intros Hs Hw.
  apply has_nl_lstrip in Hw.
  destruct (negb (ix =? n - 1)%nat && negb (delim tb =? " ")%string);
    destruct (ix =? 0)%nat;
    repeat rewrite has_nl_append; cbn [has_nl Ascii.eqb Bool.eqb orb];
    rewrite ?Hw, ?Hs; reflexivity.
Qed.

Lemma decorate_all_clean (n : nat) (ws : list string) :
  clean (splitter tb) -> Forall clean ws ->
  forall ix, Forall clean (decorate_all tb n ix ws).
Proof.
  intros Hs. induction 1 as [|w ws Hw _ IH]; intros ix; cbn [decorate_all].
  - constructor.
  - constructor; [now apply decorate_word_clean|apply IH].
Qed.

Lemma paragraph_words_clean (p : string) :
  clean (splitter tb) -> clean p -> Forall clean (paragraph_words tb p).
Proof.
  intros Hs Hp. apply decorate_all_clean; [assumption|].
  apply split_from_has_nl. exact Hp.
Qed.

Lemma decorate_all_spaced (n : nat) (ws : list string) :
  forall ix, Forall spaced (decorate_all tb n (S ix) ws).
Proof.
  induction ws as [|w ws IH]; intros ix; cbn [decorate_all]; constructor.
  - unfold decorate_word. cbn [Nat.eqb].
    destruct (_ && _); eexists; reflexivity.
  - apply IH.
Qed.

Lemma lines_of_not_nil (s : list (list string) * list string * Z) :
  lines_of s <> [].
Proof. destruct s as [[done cur] x]. apply snoc_not_nil. Qed.

(** The lines of the source are the packed lines. *)
Lemma wrap_lines_pack (p : string) :
  clean (splitter tb) -> clean p ->
  Py.split Py.nl (wrap_paragraph tb img p)
  = map line_text (pack_lines tb img p).
Proof.
  intros Hs Hp. rewrite wrap_paragraph_pack. apply split_join_nl.
  - unfold pack_lines. intros C. apply map_eq_nil in C.
    now apply lines_of_not_nil in C.
  - apply Forall_map.
    assert (H : Forall (Forall clean) (pack_lines tb img p)).
    { apply pack_from_clean; [now apply paragraph_words_clean|].
      repeat constructor. }
    eapply Forall_impl; [|exact H]. intros g. apply line_text_clean.
Qed.

Lemma pack_lines_pieces (p : string) :
  Forall2 piece_of (List.concat (pack_lines tb img p)) (paragraph_words tb p).
Proof.
  unfold pack_lines.
  apply (pack_from_pieces tb img (paragraph_words tb p) ([], [], left_margin tb) []).
  constructor.
Qed.

(** Joining the packed lines with a space where each line feed went gives
    back the words, provided every line but the first was opened by a word
    that starts with the joining space. *)
Lemma pack_from_join (ws : list string) :
  Forall spaced ws ->
  forall s pre,
    Py.join " " (map line_text (lines_of s)) = line_text pre ->
    Py.join " " (map line_text (lines_of (pack_from tb img ws s)))
    = line_text (pre ++ ws).
Proof.
  induction 1 as [|w ws Hw _ IH]; intros s pre H.
  - now rewrite app_nil_r.
  - unfold pack_from. cbn [fold_left].
    replace (pre ++ w :: ws)%list with ((pre ++ [w]) ++ ws)%list
      by now rewrite <- app_assoc.
    apply IH. rewrite line_text_snoc, <- H.
    destruct s as [[done cur] x]. unfold pack_step.
    destruct (_ <=? _); cbn [lines_of].
    + rewrite !map_app. cbn [map]. rewrite line_text_snoc.
      symmetry. apply join_last_append.
    + rewrite !map_app. cbn [map].
      change (line_text [Py.tail w]) with (Py.tail w).
      rewrite <- join_snoc. destruct Hw as [w' ->]. reflexivity.
Qed.

(** Round trip, where the first word fits. *)
Lemma wrap_roundtrip_when_first_fits (p : string) :
  clean (splitter tb) -> clean p ->
  left_margin tb + fst (text_size tb (hd "" (paragraph_words tb p)))
  <= shape1 img - right_margin tb ->
  Py.join " " (Py.split Py.nl (wrap_paragraph tb img p))
  = line_text (paragraph_words tb p).
Proof.
  intros Hs Hp Hfit. rewrite (wrap_lines_pack p Hs Hp).
  unfold pack_lines, paragraph_words.
  destruct (Py.split (delim tb) p) as [|w0 ws] eqn:E;
    [now apply split_not_nil in E|].
  unfold paragraph_words in Hfit. rewrite E in Hfit.
  cbn [decorate_all hd] in *.
  unfold pack_from. cbn [fold_left]. unfold pack_step at 2.
  apply Z.leb_le in Hfit. rewrite Hfit.
  apply (pack_from_join _ (decorate_all_spaced _ ws 0) _
           [decorate_word tb (List.length (w0 :: ws)) 0 w0]).
  reflexivity.
Qed.

End CleanParagraphs.

(** C3 (defect of the code).  The word that opens a line
    loses its first character, which is meant to be the joining space; the
    first word of a paragraph has none.  ["Hello"] at scale 3 needs 309
    pixels where 88 are left: the lines are [""] and ["ello"], and no
    joining of them gives the word back. *)
Theorem first_word_loses_character :
  exists tb' st',
    @calculate_text_bb sample_metrics 1 narrow_block (strip 4488) 280 3
      CallerList empty_store = Returns (tb', st')
    /\ paragraph_words tb' (text narrow_block) = ["Hello"]
    /\ paragraphs tb' = [[""; "ello"]]
    /\ Py.join " " [""; "ello"] <> line_text (paragraph_words tb' "Hello")
    /\ Py.join "" [""; "ello"] <> line_text (paragraph_words tb' "Hello").
Proof.
  do 2 eexists. split; [vm_compute; reflexivity|].
  repeat split; vm_compute; congruence.
Qed.

(** ** Word wrap: whole words and line widths *)

Lemma paragraphs_raw_clean (tb : TextBox) :
  clean (text tb) -> Forall clean (paragraphs_raw tb).
Proof.
  intros H. unfold paragraphs_raw. destruct (paragraph_break tb).
  - apply split_from_has_nl. exact H.
  - now constructor.
Qed.

Lemma Forall2_map_r {A B : Type} (P : A -> B -> Prop) (f : A -> B)
    (l : list A) :
  Forall (fun a => P a (f a)) l -> Forall2 P l (map f l).
Proof. induction 1; cbn [map]; constructor; assumption. Qed.

(** C2 (amended).  For a text and a splitter without line feed, the words
    of every paragraph, in order, are cut into consecutive runs, one per
    line: no word is split.  A line is the words of its run one after the
    other; a run that opens a new line stands without the first character
    of its first word.  A line is broken only where the next word does not
    fit, and at the end of the first line and of every line of two or more
    words the running X, the left margin plus the widths of the words
    measured one by one, is within [canvas_width - right_margin].  Where
    the left margin is not negative and the widths are sub-additive under
    concatenation, the width of every line of two or more words, measured
    as a whole, is within that bound as well. *)
Theorem wrap_keeps_words_and_width {metrics : GlyphMetrics} (fuel : nat)
    (tb : TextBox) (img : image) (max_bb_size : Z) (min_font_scale : Q)
    (r : log_ref) (st : log_store) (tb' : TextBox) (st' : log_store) :
  calculate_text_bb fuel tb img max_bb_size min_font_scale r st
  = Returns (tb', st') ->
  clean (text tb) ->
  clean (splitter tb) ->
  Forall2 (wrapped_runs tb' img) (paragraphs_raw tb) (paragraphs tb').
Proof.
  intros Hret Htext Hsplit.
  rewrite (calculate_text_bb_paragraphs _ _ _ _ _ _ _ _ _ Hret).
  apply Forall2_map_r.
  pose proof (calculate_text_bb_static _ _ _ _ _ _ _ _ _ Hret)
    as (_ & _ & _ & _ & _ & _ & _ & _ & _ & _ & _ & _ & Hsp).
  assert (Hsplit' : clean (splitter tb')) by (rewrite <- Hsp; exact Hsplit).
  eapply Forall_impl; [|exact (paragraphs_raw_clean tb Htext)].
  intros p Hp. rewrite (wrap_lines_pack tb' img p Hsplit' Hp).
  apply pack_lines_runs.
Qed.

(** The sample font is sub-additive wherever the stroke width is not
    negative. *)
Lemma sample_subadditive (tb : TextBox) :
  0 <= font_width tb ->
  forall a b,
    fst (@text_size sample_metrics tb (a ++ b))
    <= fst (@text_size sample_metrics tb a)
       + fst (@text_size sample_metrics tb b).
Proof.
  intros H a b. unfold text_size. cbn [getTextSize sample_metrics].
  unfold sample_getTextSize. cbn [fst].
  rewrite length_append, Nat2Z.inj_add. lia.
Qed.

Lemma wrap_keeps_words_and_width_witness :
  exists tb' st',
    @calculate_text_bb sample_metrics 1 scenario_block (strip 340) 1000 1
      CallerList empty_store = Returns (tb', st')
    /\ paragraphs tb' = [["Hello world this"; "is a test"]]
    /\ Forall2 (@wrapped_runs sample_metrics tb' (strip 340))
         (paragraphs_raw scenario_block) (paragraphs tb').
Proof.
  exists (@measure_pass sample_metrics scenario_block (strip 340)),
    (log_append CallerList (ReachedMinimum "Summary Text") empty_store).
  split; [vm_compute; reflexivity|].
  split; [vm_compute; reflexivity|].
  apply (@wrap_keeps_words_and_width sample_metrics 1 scenario_block
           (strip 340) 1000 1 CallerList empty_store _
           (log_append CallerList (ReachedMinimum "Summary Text") empty_store)).
  - vm_compute. reflexivity.
  - reflexivity.
  - reflexivity.
Defined.

(** C2 as stated fails in three ways.  On a text that holds a line feed,
    [split('\n')] cuts at the line feeds of the text as well: the first
    word of ["a\nb c"] ends up on two lines.  With a negative left margin
    the running X stays within the bound while the line does not: the
    line ["Hello world"], 223 pixels wide, is emitted where
    [canvas_width - right_margin] is 100.  With a font whose widths are
    not sub-additive the words fit one by one and the line does not:
    ["ab cd"], 25 pixels wide, is emitted where the bound is 20. *)
Lemma wrap_splits_word_or_exceeds_width :
  (exists tb' st',
     @calculate_text_bb sample_metrics 1 line_feed_block (strip 4488) 280 3
       CallerList empty_store = Returns (tb', st')
     /\ paragraph_words tb' (text line_feed_block)
        = [String "a" (String "010" "b"); " c"]
     /\ paragraphs tb' = [["a"; "b c"]]
     /\ ~ whole_words tb' (text line_feed_block) ["a"; "b c"])
  /\ (exists tb' st',
        @calculate_text_bb sample_metrics 1 outdented_block (strip 100) 280 1
          CallerList empty_store = Returns (tb', st')
        /\ paragraphs tb' = [["Hello world"]]
        /\ shape1 (strip 100) - right_margin tb' = 100
        /\ fst (@text_size sample_metrics tb' "Hello world") = 223)
  /\ (exists tb' st',
        @calculate_text_bb spread_metrics 1 spread_block (strip 20) 280 1
          CallerList empty_store = Returns (tb', st')
        /\ 0 <= left_margin tb'
        /\ paragraphs tb' = [["ab cd"]]
        /\ shape1 (strip 20) - right_margin tb' = 20
        /\ fst (@text_size spread_metrics tb' "ab cd") = 25).
Proof.
  split; [|split].
  - do 2 eexists. split; [vm_compute; reflexivity|].
    split; [vm_compute; reflexivity|].
    split; [vm_compute; reflexivity|].
    intros (groups & Hl & Hp).
    replace (paragraph_words _ _)
      with [String "a" (String "010" "b"); " c"] in Hp
      by (vm_compute; reflexivity).
    destruct groups as [|g1 [|g2 [|g3 gs]]]; try discriminate Hl.
    cbn [map] in Hl. injection Hl as H1 H2.
    destruct g1 as [|x g1]; [discriminate H1|].
    cbn [List.concat app] in Hp.
    inversion Hp as [|? ? ? ? Hx _]; subst.
    rewrite line_text_cons in H1.
    destruct Hx as [-> | ->]; cbn in H1; discriminate H1.
  - do 2 eexists. split; [vm_compute; reflexivity|].
    repeat split; vm_compute; reflexivity.
  - do 2 eexists. split; [vm_compute; reflexivity|].
    split; [vm_compute; discriminate|].
    repeat split; vm_compute; reflexivity.
Qed.

(** ** Height and width accumulate *)

Section Accumulation.

Context {metrics : GlyphMetrics}.

Lemma widest_max (ws : list Z) :
  forall w0, widest w0 ws = fold_left Z.max ws w0.
Proof.
  unfold widest. induction ws as [|lw ws IH]; intros w0; [reflexivity|].
  cbn [fold_left]. rewrite IH. f_equal.
  destruct (lw >? w0) eqn:E.
  - apply Z.gtb_lt in E. lia.
  - rewrite Z.gtb_ltb in E. apply Z.ltb_ge in E. lia.
Qed.

Lemma widest_ge (ws : list Z) :
  forall w0, w0 <= widest w0 ws /\ Forall (fun w => w <= widest w0 ws) ws.
Proof.
  induction ws as [|lw ws IH]; intros w0.
  - split; [reflexivity|constructor].
  - unfold widest. cbn [fold_left].
    fold (widest (if lw >? w0 then lw else w0) ws).
    destruct (IH (if lw >? w0 then lw else w0)) as [H1 H2].
    assert (Hmax : w0 <= (if lw >? w0 then lw else w0)
                   /\ lw <= (if lw >? w0 then lw else w0)).
    { destruct (lw >? w0) eqn:E.
      - apply Z.gtb_lt in E. lia.
      - rewrite Z.gtb_ltb in E. apply Z.ltb_ge in E. lia. }
    split; [lia|]. constructor; [lia|exact H2].
Qed.

Lemma measure_lines_acc (tb : TextBox) (sh : Z) (lines : list string) :
  forall h w,
    measure_lines tb sh lines (h, w)
    = (h + fst (measure_lines tb sh lines (0, 0)),
       widest w (map (fun l => fst (text_size tb l)) lines)).
Proof.
  induction lines as [|l rest IH]; intros h w.
  - cbn. f_equal. lia.
  - cbn [measure_lines map]. unfold widest. cbn [fold_left].
    fold (widest (if fst (text_size tb l) >? w then fst (text_size tb l) else w)
            (map (fun l0 => fst (text_size tb l0)) rest)).
    rewrite IH. rewrite (IH (match rest with [] => _ | _ :: _ => _ end)).
    cbn [fst]. f_equal. destruct rest; lia.
Qed.

Lemma measure_lines_width_from (tb : TextBox) (sh : Z) (lines : list string)
    (h h' w : Z) :
  snd (measure_lines tb sh lines (h, w))
  = snd (measure_lines tb sh lines (h', w)).
Proof. now rewrite (measure_lines_acc tb sh lines h), (measure_lines_acc tb sh lines h'). Qed.

Lemma widest_app (w0 : Z) (a b : list Z) :
  widest w0 (a ++ b) = widest (widest w0 a) b.
Proof. unfold widest. apply fold_left_app. Qed.

Lemma measure_paragraphs_acc (tb : TextBox) (sh : Z)
    (ps : list (list string)) :
  forall first h w,
    measure_paragraphs tb sh first ps (h, w)
    = (h + fst (measure_paragraphs tb sh first ps (0, 0)),
       widest w (line_widths tb ps)).
Proof.
  unfold line_widths.
  induction ps as [|p rest IH]; intros first h w.
  - cbn. f_equal. lia.
  - cbn [measure_paragraphs List.concat]. rewrite map_app, widest_app.
    rewrite (measure_lines_acc tb sh p (if first then h else _)).
    rewrite (measure_lines_acc tb sh p (if first then 0 else _)).
    rewrite IH. rewrite (IH false (_ + _)). cbn [fst].
    f_equal. destruct first; lia.
Qed.

Lemma measure_lines_same (a b : TextBox) (sh : Z) (lines : list string) :
  same_measure a b ->
  forall hw, measure_lines a sh lines hw = measure_lines b sh lines hw.
Proof.
  intros (Hf & Hs & Hw & Hl & _).
  induction lines as [|l rest IH]; intros [h w]; [reflexivity|].
  cbn [measure_lines]. unfold text_size. rewrite Hf, Hs, Hw, Hl. apply IH.
Qed.

Lemma measure_paragraphs_same (a b : TextBox) (sh : Z)
    (ps : list (list string)) :
  same_measure a b ->
  forall first hw,
    measure_paragraphs a sh first ps hw = measure_paragraphs b sh first ps hw.
Proof.
  intros H. pose proof H as (_ & _ & _ & Hl & Hp).
  induction ps as [|p rest IH]; intros first [h w]; [reflexivity|].
  cbn [measure_paragraphs]. rewrite Hl, Hp.
  rewrite (measure_lines_same a b sh p H). apply IH.
Qed.

Lemma line_widths_same (a b : TextBox) (ps : list (list string)) :
  same_measure a b -> line_widths a ps = line_widths b ps.
Proof.
  intros (Hf & Hs & Hw & _). unfold line_widths, text_size.
  now rewrite Hf, Hs, Hw.
Qed.

Lemma measure_pass_eq (tb : TextBox) (img : image) :
  measure_pass tb img =
  let hw := measure_paragraphs (shifted tb) (snd (text_size tb " ")) true
              (pass_lines tb img)
              (height (shifted tb), width (shifted tb)) in
  set_measure (shifted tb) (snd (text_size tb " ")) (fst hw) (snd hw)
    (snd hw + 100, fst hw + 80) (pass_lines tb img).
Proof.
  unfold measure_pass, pass_lines, shifted.
  destruct (paragraph_break tb);
    match goal with
    | |- context [measure_paragraphs ?a ?b ?c ?d ?e] =>
        destruct (measure_paragraphs a b c d e)
    end; reflexivity.
Qed.

Lemma shifted_fresh_wrap (tb : TextBox) :
  same_wrap (shifted (fresh tb)) (shifted tb)
  /\ same_measure (shifted (fresh tb)) (shifted tb)
  /\ same_measure (shifted tb) tb
  /\ paragraphs_raw (shifted (fresh tb)) = paragraphs_raw (shifted tb)
  /\ height (shifted tb) = height tb /\ width (shifted tb) = width tb
  /\ height (shifted (fresh tb)) = 0 /\ width (shifted (fresh tb)) = 0.
Proof.
  unfold shifted, fresh, paragraphs_raw.
  cbn [paragraph_break set_measure].
  destruct (paragraph_break tb) eqn:E; cbn [paragraph_break set_left_margin];
    rewrite ?E; repeat split; try reflexivity.
  all: cbn; rewrite ?E; reflexivity.
Qed.

Lemma pass_lines_fresh (tb : TextBox) (img : image) :
  pass_lines (fresh tb) img = pass_lines tb img.
Proof.
  unfold pass_lines.
  destruct (shifted_fresh_wrap tb) as (Hw & _ & _ & -> & _).
  apply map_ext. intros p. now rewrite (wrap_paragraph_same img _ _ p Hw).
Qed.

Lemma measure_lines_grows (tb : TextBox) (sh : Z) (lines : list string) :
  (forall l, 0 <= snd (text_size tb l)) ->
  0 <= Py.int (inject_Z sh * line_spacing tb) ->
  forall h w, h <= fst (measure_lines tb sh lines (h, w)).
Proof.
  intros Hline Hgap.
  induction lines as [|l rest IH]; intros h w; cbn [measure_lines fst].
  - lia.
  - specialize (Hline l).
    etransitivity; [|apply IH]. destruct rest; lia.
Qed.

Lemma measure_paragraphs_grows (tb : TextBox) (sh : Z)
    (ps : list (list string)) :
  (forall l, 0 <= snd (text_size tb l)) ->
  0 <= Py.int (inject_Z sh * line_spacing tb) ->
  0 <= Py.int (inject_Z sh * (paragraph_spacing tb * line_spacing tb)) ->
  forall first h w, h <= fst (measure_paragraphs tb sh first ps (h, w)).
Proof.
  intros Hline Hgap Hpgap.
  induction ps as [|p rest IH]; intros first h w;
    cbn [measure_paragraphs fst].
  - lia.
  - destruct (measure_lines tb sh p (if first then h else _, w))
      as [h' w'] eqn:E.
    etransitivity; [|apply IH].
    pose proof (measure_lines_grows tb sh p Hline Hgap
                  (if first then h
                   else h + Py.int (inject_Z sh
                                    * (paragraph_spacing tb * line_spacing tb)))
                  w) as Hg.
    rewrite E in Hg. cbn [fst] in Hg. destruct first; lia.
Qed.

Lemma measure_pass_bounding_box (tb : TextBox) (img : image) :
  bounding_box (measure_pass tb img)
  = (width (measure_pass tb img) + 100, height (measure_pass tb img) + 80).
Proof. rewrite !measure_pass_eq. reflexivity. Qed.

Lemma measure_pass_accumulates (tb : TextBox) (img : image) :
  height (measure_pass tb img)
  = height tb + height (measure_pass (fresh tb) img)
  /\ width (measure_pass tb img)
     = widest (width tb)
         (line_widths (measure_pass tb img) (paragraphs (measure_pass tb img)))
  /\ width tb <= width (measure_pass tb img).
Proof.
  destruct (shifted_fresh_wrap tb)
    as (Hw & Hm & Hm' & Hp & Hh & Hwd & Hh0 & Hw0).
  assert (Hwidth : width (measure_pass tb img)
                   = widest (width tb)
                       (line_widths (measure_pass tb img)
                          (paragraphs (measure_pass tb img)))).
  { rewrite !measure_pass_eq. cbv zeta. cbn [width paragraphs set_measure].
    rewrite Hh, Hwd, measure_paragraphs_acc. cbn [snd]. reflexivity. }
  split; [|split; [exact Hwidth|]].
  - rewrite !measure_pass_eq. cbv zeta. cbn [height set_measure].
    rewrite pass_lines_fresh, Hh, Hwd, Hh0, Hw0.
    rewrite (measure_paragraphs_same _ _ _ _ Hm).
    change (text_size (fresh tb) " ") with (text_size tb " ").
    rewrite measure_paragraphs_acc.
    rewrite (measure_paragraphs_acc _ _ _ true 0 0). cbn [fst]. lia.
  - rewrite Hwidth. apply widest_ge.
Qed.

End Accumulation.

(** With the flat font and a maximum of 50 pixels no scale fits: from
    scale 3.2 with floor 2.5 the recursion never ends. *)
Example off_grid_block_never_returns (fuel : nat) :
  @calculate_text_bb flat_metrics fuel off_grid_block (strip 4488) 50 (5 # 2)
    CallerList empty_store = OutOfFuel.
Proof.
  apply calculate_text_bb_off_grid_never_returns.
  - discriminate.
  - cbn. lia.
  - intros k. unfold Qeq. cbn. lia.
  - intros tb0 S0 H0. rewrite measure_pass_bounding_box. cbn [snd].
    enough (height tb0 <= height (@measure_pass flat_metrics tb0 (strip 4488)))
      by lia.
    rewrite measure_pass_eq. cbv zeta. cbn [height set_measure].
    destruct (@shifted_fresh_wrap flat_metrics tb0)
      as (_ & _ & (_ & _ & _ & Hl & Hp) & _ & Hh & _).
    destruct S0 as (_ & _ & _ & _ & _ & Hl0 & _ & _ & _ & Hp0 & _).
    rewrite Hh at 1.
    apply measure_paragraphs_grows.
    + intros l. cbn. lia.
    + rewrite Hl, <- Hl0. vm_compute. discriminate.
    + rewrite Hl, Hp, <- Hl0, <- Hp0. vm_compute. discriminate.
Qed.

(** C6.  A pass adds to the height the block already has and keeps the
    width it already has unless a new line is wider; a call that stops
    after its first pass (scale at the floor, or bounding box within the
    maximum) returns that. Only the downgrade step clears the two. *)
Theorem remeasure_accumulates {metrics : GlyphMetrics} (tb : TextBox)
    (img : image) :
  height (measure_pass tb img)
  = height tb + height (measure_pass (fresh tb) img)
  /\ width (measure_pass tb img)
     = widest (width tb)
         (line_widths (measure_pass tb img) (paragraphs (measure_pass tb img)))
  /\ bounding_box (measure_pass tb img)
     = (width (measure_pass tb img) + 100, height (measure_pass tb img) + 80)
  /\ (forall fuel max_bb_size min_font_scale r st,
         delim tb <> "" ->
         font_scale tb == min_font_scale
         \/ snd (bounding_box (measure_pass tb img)) <= max_bb_size ->
         exists st',
           calculate_text_bb (S fuel) tb img max_bb_size min_font_scale r st
           = Returns (measure_pass tb img, st'))
  /\ (forall m,
         height (downscale (measure_pass tb img) m) = 0
         /\ width (downscale (measure_pass tb img) m) = 0).
Proof.
  destruct (shifted_fresh_wrap tb) as (Hw & Hm & Hm' & Hp & Hh & Hwd & Hh0 & Hw0).
  split; [|split; [|split; [|split]]].
  - rewrite !measure_pass_eq. cbv zeta. cbn [height set_measure].
    rewrite pass_lines_fresh, Hh, Hwd, Hh0, Hw0.
    rewrite (measure_paragraphs_same _ _ _ _ Hm).
    change (text_size (fresh tb) " ") with (text_size tb " ").
    rewrite measure_paragraphs_acc.
    rewrite (measure_paragraphs_acc _ _ _ true 0 0). cbn [fst]. lia.
  - rewrite !measure_pass_eq. cbv zeta. cbn [width paragraphs set_measure].
    rewrite Hh, Hwd, measure_paragraphs_acc. cbn [snd].
    reflexivity.
  - rewrite !measure_pass_eq. reflexivity.
  - intros fuel max_bb_size min_font_scale r st Hd Hstop.
    rewrite calculate_text_bb_unfold.
    destruct (delim tb =? "")%string eqn:Ed;
      [apply String.eqb_eq in Ed; contradiction|].
    cbv zeta.
    destruct (Qeq_bool _ _) eqn:Eq; [eexists; reflexivity|].
    destruct Hstop as [Hs | Hb].
    + destruct (measure_pass_static img tb) as (_ & Hsc & _).
      rewrite Hsc in Eq. apply Qeq_bool_iff in Hs. congruence.
    + destruct (_ >? _) eqn:Eb; [|eexists; reflexivity].
      apply Z.gtb_lt in Eb. lia.
  - intros m. split; reflexivity.
Qed.

Lemma remeasure_accumulates_witness :
  height (@measure_pass sample_metrics narrow_block (strip 4488)) = 217
  /\ exists st',
       @calculate_text_bb sample_metrics 1
         (@measure_pass sample_metrics narrow_block (strip 4488))
         (strip 4488) 280 3 CallerList empty_store
       = Returns
           (@measure_pass sample_metrics
              (@measure_pass sample_metrics narrow_block (strip 4488))
              (strip 4488), st')
       /\ height
            (@measure_pass sample_metrics
               (@measure_pass sample_metrics narrow_block (strip 4488))
               (strip 4488)) = 434.
Proof.
  split; [vm_compute; reflexivity|].
  destruct (@remeasure_accumulates sample_metrics
              (@measure_pass sample_metrics narrow_block (strip 4488))
              (strip 4488)) as (Hh & _ & _ & Hcall & _).
  destruct (Hcall 0%nat 280 3%Q CallerList empty_store) as [st' Hst'].
  - vm_compute. discriminate.
  - left. vm_compute. reflexivity.
  - exists st'. split; [exact Hst'|].
    rewrite Hh. vm_compute. reflexivity.
Defined.

(** ** The points prefix follows the points value *)

Lemma Qltb_lt (a b : Q) : Qltb a b = true <-> (a < b)%Q.
Proof.
  unfold Qltb. rewrite negb_true_iff. split.
  - intros H. apply Qnot_le_lt. intros C. apply Qle_bool_iff in C. congruence.
  - intros H. apply not_true_is_false. intros C. apply Qle_bool_iff in C.
    now apply Qlt_not_le in H.
Qed.

Lemma Qeq_bool_refl (a : Q) : Qeq_bool a a = true.
Proof. apply Qeq_bool_iff. reflexivity. Qed.

(** ** The text boxes of one card *)

Ltac bind_inv H :=
  match type of H with
  | bind ?m _ = Returns _ =>
      let E := fresh "E" in
      destruct m as [[? ?]| |] eqn:E; [|discriminate H..];
      cbn [bind] in H
  end.

Section CardFacts.

Context {metrics : GlyphMetrics} {draw : Cv2Draw}.

Lemma rescale_points_stroke (fuel : nat) (series : Series) (img : image)
    (pp pt : TextBox) (st : log_store) (pp' pt' : TextBox) (st' : log_store) :
  stroke_ok pp -> stroke_ok pt ->
  rescale_points fuel series img pp pt st = Returns (pp', pt', st') ->
  stroke_ok pp' /\ stroke_ok pt'.
Proof.
  intros Hpp Hpt H. unfold rescale_points in H.
  destruct (Qltb _ _).
  - bind_inv H. bind_inv H. injection H as <- <- <-.
    split.
    + eapply calculate_text_bb_stroke; [|exact E]. exact Hpt.
    + eapply calculate_text_bb_stroke; [|exact E0]. exact Hpt.
  - injection H as <- <- <-. now split.
Qed.

Lemma measure_blocks_stroke (fuel : nat) (series : Series) (save : bool)
    (st : log_store) (b : Blocks) (qr : image) (st' : log_store) :
  measure_blocks fuel series save st = Returns (b, qr, st') ->
  Forall stroke_ok (text_boxes b).
Proof.
  intros H. unfold measure_blocks in H. cbv zeta in H.
  bind_inv H. rename t into summary', E into Esummary.
  bind_inv H. rename t into qr', E into Eqr.
  bind_inv H. rename t into prefix', E into Eprefix.
  bind_inv H. rename t into value', E into Evalue.
  match type of H with
  | bind ?m _ = _ => destruct m as [[[prefix2 value2] st2]| |] eqn:Erescale;
                     [|discriminate H..]
  end.
  cbn [bind] in H.
  bind_inv H. rename t into title', E into Etitle.
  bind_inv H. rename t into back', E into Eback.
  bind_inv H. rename t into back_title', E into Eback_title.
  injection H as <- _ _.
  assert (Hsummary : stroke_ok summary')
    by (eapply calculate_text_bb_stroke; [|exact Esummary]; reflexivity).
  assert (Hprefix : stroke_ok prefix')
    by (eapply calculate_text_bb_stroke; [|exact Eprefix]; reflexivity).
  assert (Hvalue : stroke_ok value')
    by (eapply calculate_text_bb_stroke; [|exact Evalue]; reflexivity).
  destruct (rescale_points_stroke _ _ _ _ _ _ _ _ _ Hprefix Hvalue Erescale)
    as [Hprefix2 Hvalue2].
  unfold text_boxes. cbn [b_title_text b_points_prefix b_points_text
                           b_summary_text b_qr_text b_back_title_text
                           b_back_text].
  repeat constructor; try assumption.
  - eapply calculate_text_bb_stroke; [|exact Etitle]. reflexivity.
  - eapply calculate_text_bb_stroke; [|exact Eqr]. exact Hsummary.
  - eapply calculate_text_bb_stroke; [|exact Eback_title]. reflexivity.
  - eapply calculate_text_bb_stroke; [|exact Eback]. reflexivity.
Qed.


End CardFacts.

(** ** The measurement of a card returns *)

Section CardReturns.

Context {metrics : GlyphMetrics} {draw : Cv2Draw}.

(** A call whose floor is the scale of the block stops after one pass. *)
Lemma calculate_text_bb_at_floor (fuel : nat) (tb : TextBox) (img : image)
    (max_bb_size : Z) (r : log_ref) (st : log_store) :
  delim tb <> "" ->
  calculate_text_bb (S fuel) tb img max_bb_size (font_scale tb) r st
  = Returns (measure_pass tb img,
             log_append r (ReachedMinimum (name tb)) st).
Proof.
  intros Hd. rewrite calculate_text_bb_unfold.
  destruct (delim tb =? "")%string eqn:Ed;
    [apply String.eqb_eq in Ed; contradiction|].
  cbv zeta.
  destruct (measure_pass_static img tb) as ((Hn & _) & Hs & _).
  now rewrite Hs, Qeq_bool_refl, <- Hn.
Qed.



End CardReturns.

(** ** The points prefix after the points value

    The prefix and the value are measured a second time by the rescale of
    [create_image], and a second measurement does not start from nothing:
    the width of the prefix stays what the larger scale left unless a line
    is wider now, and the heights add up. *)

Section PointsPrefix.

Context {metrics : GlyphMetrics}.

Lemma rescale_points_accumulates (fuel : nat) (series : Series) (img : image)
    (points_prefix points_text : TextBox) (st : log_store) :
  (font_scale points_text < font_scale points_prefix)%Q ->
  delim points_prefix <> "" ->
  delim points_text <> "" ->
  paragraph_break points_text = false ->
  exists prefix' text' st',
    rescale_points (S fuel) series img points_prefix points_text st
    = Returns (prefix', text', st')
    /\ font_scale prefix' = font_scale points_text
    /\ font_width prefix' = font_width points_text
    /\ width prefix'
       = widest (width points_prefix)
           (line_widths prefix' (paragraphs prefix'))
    /\ width points_prefix <= width prefix'
    /\ height prefix'
       = height points_prefix
         + height (measure_pass
                     (fresh (set_font points_prefix (font_scale points_text)
                               (font_width points_text))) img)
    /\ left_margin text' = series_left_margin series + width prefix'
    /\ height text'
       = height points_text
         + height (measure_pass
                     (fresh (set_left_margin points_text
                               (series_left_margin series + width prefix')))
                     img).
Proof.
  intros Hlt Hdp Hdt Hpb. unfold rescale_points.
  apply Qltb_lt in Hlt. rewrite Hlt.
  pose proof (calculate_text_bb_at_floor fuel
                (set_font points_prefix (font_scale points_text)
                   (font_width points_text)) img 200
                CallerList
                (log_append CallerList
                   (PointsSmallerThanPrefix (image_name series)) st) Hdp)
    as H1.
  change (font_scale (set_font points_prefix (font_scale points_text)
                        (font_width points_text)))
    with (font_scale points_text) in H1.
  rewrite H1. cbn [bind]. clear H1.
  set (prefix' := measure_pass
                    (set_font points_prefix (font_scale points_text)
                       (font_width points_text)) img).
  match goal with
  | |- context [calculate_text_bb _ ?tb _ _ _ _ ?s] =>
      pose proof (calculate_text_bb_at_floor fuel tb img 600 CallerList s Hdt)
        as H2;
      rewrite H2; cbn [bind]; clear H2
  end.
  do 3 eexists. split; [reflexivity|].
  destruct (measure_pass_static img
              (set_font points_prefix (font_scale points_text)
                 (font_width points_text))) as (_ & Hs & Hw).
  destruct (measure_pass_accumulates
              (set_font points_prefix (font_scale points_text)
                 (font_width points_text)) img) as (Hh & Hwd & Hge).
  split; [exact Hs|]. split; [exact Hw|]. split; [exact Hwd|].
  split; [exact Hge|]. split; [exact Hh|]. split.
  - rewrite measure_pass_left_margin.
    cbn [paragraph_break set_left_margin left_margin]. now rewrite Hpb.
  - exact (proj1 (measure_pass_accumulates
                    (set_left_margin points_text
                       (series_left_margin series + width prefix')) img)).
Qed.

End PointsPrefix.

(** C5 (defect of the code).  With points that take three lines at scale
    5 the value ends at scale 4 and the prefix is measured again at that
    scale.  The width of the prefix is not updated by it: it stays 815,
    the width at scale 5, where the prefix measures 652 at scale 4, and the
    left margin of the value stays 400 + 815.  Both blocks end with the
    heights of their two measurements added up, 203 for 90 and 972 for
    486. *)
Theorem points_prefix_width_not_updated :
  exists b qr_image st,
    @measure_blocks sample_metrics sample_draw 6 long_points_series true
      empty_store = Returns (b, qr_image, st)
    /\ In (PointsSmallerThanPrefix "atraxa") (caller_logs st)
    /\ font_scale (b_points_text b) = 4%Q
    /\ font_scale (b_points_prefix b) = 4%Q
    /\ width (b_points_prefix b) = 815
    /\ width (@measure_pass sample_metrics (fresh (b_points_prefix b))
                create_blank_image) = 652
    /\ left_margin (b_points_text b) = 400 + 815
    /\ height (b_points_prefix b) = 113 + 90
    /\ height (@measure_pass sample_metrics (fresh (b_points_prefix b))
                 create_blank_image) = 90
    /\ height (b_points_text b) = 486 + 486
    /\ height (@measure_pass sample_metrics (fresh (b_points_text b))
                 create_blank_image) = 486.
Proof.
  assert (Hv : option_map
                 (fun r : Blocks * image * log_store =>
                    let b := fst (fst r) in
                    (existsb
                       (fun e => match e with
                                 | PointsSmallerThanPrefix n =>
                                     (n =? "atraxa")%string
                                 | _ => false
                                 end) (caller_logs (snd r)),
                     (font_scale (b_points_text b),
                      font_scale (b_points_prefix b)),
                     (width (b_points_prefix b),
                      width (@measure_pass sample_metrics
                               (fresh (b_points_prefix b))
                               create_blank_image),
                      left_margin (b_points_text b)),
                     (height (b_points_prefix b),
                      height (@measure_pass sample_metrics
                                (fresh (b_points_prefix b))
                                create_blank_image)),
                     (height (b_points_text b),
                      height (@measure_pass sample_metrics
                                (fresh (b_points_text b))
                                create_blank_image))))
                 (result_of
                    (@measure_blocks sample_metrics sample_draw 6
                       long_points_series true empty_store))
               = Some (true, (4%Q, 4%Q), (815, 652, 1215), (203, 90),
                       (972, 486)))
    by (vm_compute; reflexivity).
  revert Hv.
  destruct (@measure_blocks sample_metrics sample_draw 6 long_points_series
              true empty_store) as [[[b qr_image] st]| |];
    cbn [result_of option_map]; intros Hv; [|discriminate Hv..].
  cbv zeta in Hv. cbn [fst snd] in Hv.
  injection Hv as Hlog Hs1 Hs2 Hw1 Hw2 Hm Hh1 Hh2 Hh3 Hh4.
  exists b, qr_image, st. split; [reflexivity|].
  split.
  { apply existsb_exists in Hlog. destruct Hlog as (e & Hin & He).
    destruct e as [| | | |n| | | | |]; try discriminate He.
    apply String.eqb_eq in He. now subst n. }
  repeat split; assumption.
Qed.

(** C8.  The stroke width is [ceil(scale * 3)] wherever a scale is
    assigned: in a text box built from a scale of the record, after the
    downgrade step, in the points prefix given the font of the points value;
    it is kept through a whole call of [calculate_text_bb], and so holds for
    every text box that the measurement half of [create_image] returns, the
    QR caption and the rescaled points prefix included. *)
Theorem stroke_width_follows_scale {metrics : GlyphMetrics} {draw : Cv2Draw} :
  (forall name text font scale color left right spacing,
      stroke_ok (TextBox_default name text font scale (Py.ceil (scale * 3))
                   color left right spacing))
  /\ (forall tb m, stroke_ok (downscale tb m))
  /\ (forall points_prefix points_text,
         stroke_ok points_text ->
         stroke_ok (set_font points_prefix (font_scale points_text)
                      (font_width points_text)))
  /\ (forall fuel tb img max_bb_size min_font_scale r st tb' st',
         stroke_ok tb ->
         calculate_text_bb fuel tb img max_bb_size min_font_scale r st
         = Returns (tb', st') ->
         stroke_ok tb')
  /\ (forall fuel series save st b qr_image st',
         measure_blocks fuel series save st = Returns (b, qr_image, st') ->
         Forall stroke_ok (text_boxes b)).
Proof.
  split; [reflexivity|]. split; [exact downscale_stroke|].
  split; [intros pp pt H; exact H|]. split.
  - intros fuel tb img max_bb_size min_font_scale r st tb' st'.
    apply calculate_text_bb_stroke.
  - intros fuel series save st b qr_image st'. apply measure_blocks_stroke.
Qed.

Lemma stroke_width_follows_scale_witness :
  exists b qr_image st',
    @measure_blocks sample_metrics sample_draw 4 sample_series true empty_store
    = Returns (b, qr_image, st')
    /\ map font_scale (text_boxes b) = [6; 5; 5; 7 # 2; 7 # 2; 6; 7 # 2]%Q
    /\ map font_width (text_boxes b) = [18; 15; 15; 11; 11; 18; 11]
    /\ Forall stroke_ok (text_boxes b).
Proof.
  assert (Hv : option_map
                 (fun r : Blocks * image * log_store =>
                    (map font_scale (text_boxes (fst (fst r))),
                     map font_width (text_boxes (fst (fst r)))))
                 (result_of
                    (@measure_blocks sample_metrics sample_draw 4
                       sample_series true empty_store))
               = Some ([6; 5; 5; 7 # 2; 7 # 2; 6; 7 # 2]%Q,
                       [18; 15; 15; 11; 11; 18; 11]))
    by (vm_compute; reflexivity).
  revert Hv.
  destruct (@measure_blocks sample_metrics sample_draw 4 sample_series true
              empty_store) as [[[b qr_image] st']| |] eqn:Hm;
    cbn [result_of option_map]; intros Hv; [|discriminate Hv..].
  cbn [fst] in Hv.
  pose proof (f_equal (fun o => match o with
                                | Some p => fst p
                                | None => []
                                end) Hv) as Hs.
  pose proof (f_equal (fun o => match o with
                                | Some p => snd p
                                | None => []
                                end) Hv) as Hw.
  cbn [fst snd] in Hs, Hw.
  exists b, qr_image, st'. split; [reflexivity|].
  split; [exact Hs|]. split; [exact Hw|].
  exact (proj2 (proj2 (proj2 (proj2
           (@stroke_width_follows_scale sample_metrics sample_draw))))
           4%nat sample_series true empty_store b qr_image st' Hm).
Defined.

(** ** The vertical budget *)

Lemma fold_left_add_shift (f : TextBox -> Z) (l : list TextBox) :
  forall a,
    fold_left (fun acc tb => acc + f tb) l a
    = a + fold_right Z.add 0 (map f l).
Proof.
  induction l as [|x l IH]; intros a; cbn [fold_left map fold_right].
  - lia.
  - rewrite IH. lia.
Qed.

(** The space a face needs: the margins, the separators, the QR code, the
    padding, and for each block its bounding-box height and line height. *)
Lemma calculate_vertical_space_sum (tbs : list TextBox)
    (qr_height top bot spacing breaks padding : Z) :
  calculate_vertical_space tbs qr_height top bot spacing breaks padding
  = top + bot + breaks * spacing + qr_height + padding
    + fold_right Z.add 0
        (map (fun tb => snd (bounding_box tb) + line_height tb) tbs).
Proof. unfold calculate_vertical_space. apply fold_left_add_shift. Qed.

(** ** Placing the blocks of a card *)

Ltac block_in := unfold text_boxes; cbn [In]; tauto.

Section CardPlacing.

Context {metrics : GlyphMetrics} {draw : Cv2Draw} {re : Regex}.

(** A placeable block whose bold phrases, if it is placed with [bold],
    are accepted, is placed. *)
Lemma place_text_returns (tb : TextBox) (img : image) (x y : Z)
    (centered bold : bool) :
  placeable tb ->
  (bold = true -> forallb bold_markup_accepted (bold_words tb) = true) ->
  place_text tb img x y centered bold
  = Returns (place_text_pixels tb img x y false centered bold,
             y + snd (bounding_box tb)).
Proof.
  unfold place_text, placeable. cbv zeta. intros Hp Hb.
  destruct (paragraphs tb) as [|p [|p2 more]]; [reflexivity|..];
    (destruct bold; [rewrite (Hb eq_refl)|]); cbn [andb negb];
    try reflexivity;
    (destruct Hp as [-> | Hl]; [reflexivity|cbn [List.length] in Hl; lia]).
Qed.


Lemma measure_pass_placeable (tb : TextBox) (img : image) :
  placeable (measure_pass tb img) /\ paragraphs (measure_pass tb img) <> [].
Proof.
  destruct (measure_pass_static img tb)
    as ((_ & _ & _ & _ & _ & _ & Hb & _) & _).
  unfold placeable. rewrite (measure_pass_paragraphs img tb), <- Hb.
  unfold paragraphs_raw.
  destruct (paragraph_break tb).
  - split; [now left|].
    destruct (Py.split "\p" (text tb)) eqn:E;
      [now apply split_not_nil in E|discriminate].
  - split; [right; cbn [map List.length]; lia|discriminate].
Qed.

Lemma calculate_text_bb_placeable (fuel : nat) (tb : TextBox) (img : image)
    (max_bb_size : Z) (min_font_scale : Q) (r : log_ref) (st : log_store)
    (tb' : TextBox) (st' : log_store) :
  calculate_text_bb fuel tb img max_bb_size min_font_scale r st
  = Returns (tb', st') ->
  (placeable tb' /\ paragraphs tb' <> []) /\ bold_words tb' = bold_words tb.
Proof.
  intros H.
  pose proof (calculate_text_bb_static _ _ _ _ _ _ _ _ _ H)
    as (_ & _ & _ & _ & _ & _ & _ & _ & _ & _ & Hbw & _).
  apply calculate_text_bb_last_pass in H. destruct H as (tb0 & -> & _ & _).
  split; [apply measure_pass_placeable|now symmetry].
Qed.

Lemma rescale_points_placeable (fuel : nat) (series : Series) (img : image)
    (pp pt : TextBox) (st : log_store) (pp' pt' : TextBox) (st' : log_store) :
  placeable pp /\ paragraphs pp <> [] ->
  placeable pt /\ paragraphs pt <> [] ->
  rescale_points fuel series img pp pt st = Returns (pp', pt', st') ->
  (placeable pp' /\ paragraphs pp' <> [])
  /\ (placeable pt' /\ paragraphs pt' <> []).
Proof.
  intros Hpp Hpt H. unfold rescale_points in H.
  destruct (Qltb _ _).
  - bind_inv H. bind_inv H. injection H as <- <- <-.
    split.
    + exact (proj1 (calculate_text_bb_placeable _ _ _ _ _ _ _ _ _ E)).
    + exact (proj1 (calculate_text_bb_placeable _ _ _ _ _ _ _ _ _ E0)).
  - injection H as <- <- <-. now split.
Qed.

(** The blocks a measurement returns can all be placed; the summary and
    the back body carry the bold phrases of the row. *)
Lemma measure_blocks_measured (fuel : nat) (series : Series) (save : bool)
    (st : log_store) (b : Blocks) (qr : image) (st' : log_store) :
  measure_blocks fuel series save st = Returns (b, qr, st') ->
  measured_for series b.
Proof.
  intros H. unfold measure_blocks in H. cbv zeta in H.
  bind_inv H. rename t into summary', E into Esummary.
  bind_inv H. rename t into qr', E into Eqr.
  bind_inv H. rename t into prefix', E into Eprefix.
  bind_inv H. rename t into value', E into Evalue.
  match type of H with
  | bind ?m _ = _ => destruct m as [[[prefix2 value2] st2]| |] eqn:Erescale;
                     [|discriminate H..]
  end.
  cbn [bind] in H.
  bind_inv H. rename t into title', E into Etitle.
  bind_inv H. rename t into back', E into Eback.
  bind_inv H. rename t into back_title', E into Eback_title.
  injection H as <- _ _.
  apply calculate_text_bb_placeable in Esummary, Eqr, Eprefix, Evalue,
    Etitle, Eback, Eback_title.
  destruct Esummary as [Hsummary Hbs], Eback as [Hback Hbb].
  destruct (rescale_points_placeable _ _ _ _ _ _ _ _ _
              (proj1 Eprefix) (proj1 Evalue) Erescale) as [Hprefix Hvalue].
  unfold measured_for, text_boxes.
  cbn [b_title_text b_points_prefix b_points_text b_summary_text b_qr_text
         b_back_title_text b_back_text].
  split; [|split; [|split; [exact Hbs|exact Hbb]]];
    repeat apply Forall_cons; try apply Forall_nil;
    first [apply Hsummary | apply Hback | apply Hprefix | apply Hvalue
          | apply Etitle | apply Eqr | apply Eback_title].
Qed.

Lemma measured_block (series : Series) (b : Blocks) (tb : TextBox) :
  measured_for series b -> In tb (text_boxes b) ->
  placeable tb /\ paragraphs tb <> [].
Proof.
  intros (Hp & Hn & _) Hin. rewrite Forall_forall in Hp, Hn.
  split; [now apply Hp|now apply Hn].
Qed.

(** The back face: with every bold phrase accepted it is drawn, and the
    body raises [re.error] otherwise. *)
Lemma draw_back_returns (series : Series) (b : Blocks) (front back : image) :
  measured_for series b -> bold_words_accepted series = true ->
  exists img, draw_back series b front back = Returns img.
Proof.
  intros Hm Ha. unfold draw_back. cbv zeta.
  rewrite place_text_returns;
    [|apply (measured_block series b); [exact Hm|block_in]|discriminate].
  cbn [bind].
  rewrite place_text_returns;
    [|apply (measured_block series b); [exact Hm|block_in]|].
  - cbn [bind]. eexists. reflexivity.
  - intros _. destruct Hm as (_ & _ & _ & ->). exact Ha.
Qed.



End CardPlacing.

Ltac place_block Hm :=
  rewrite place_text_returns;
  [|apply (measured_block _ _ _ Hm); block_in|discriminate];
  cbn [bind].

Ltac place_summary Hm Ha :=
  rewrite place_text_returns;
  [|apply (measured_block _ _ _ Hm); block_in
   |intros _; destruct Hm as (_ & _ & -> & _); exact Ha];
  cbn [bind].

(** ** A face that needs more than the canvas height *)




(** ** Pasting the QR code *)

Lemma nth_error_mapi_from {A : Type} (f : nat -> A -> A) (l : list A) :
  forall i k,
    nth_error (mapi_from i f l) k = option_map (f (i + k)%nat) (nth_error l k).
Proof.
  induction l as [|a l IH]; intros i k.
  - destruct k; reflexivity.
  - destruct k as [|k]; cbn [mapi_from nth_error option_map].
    + now rewrite Nat.add_0_r.
    + rewrite IH. now rewrite Nat.add_succ_r.
Qed.

Lemma nth_error_mapi {A : Type} (f : nat -> A -> A) (l : list A) (k : nat) :
  nth_error (mapi f l) k = option_map (f k) (nth_error l k).
Proof. unfold mapi. now rewrite nth_error_mapi_from. Qed.

Lemma slice_bound_inside (i len : Z) :
  0 <= i <= len -> slice_bound i len = i.
Proof.
  intros H. unfold slice_bound.
  destruct (i <? 0) eqn:E; [apply Z.ltb_lt in E; lia|]. lia.
Qed.

Lemma rectangular_row (img : image) (r : nat) (row : list pixel) :
  rectangular img -> nth_error img r = Some row ->
  Z.of_nat (List.length row) = shape1 img.
Proof.
  intros Hrect Hr. unfold shape1. f_equal.
  unfold rectangular in Hrect. rewrite Forall_forall in Hrect.
  apply Hrect. eapply nth_error_In. exact Hr.
Qed.

Lemma pixel_at_nth (img : image) (r c : nat) (keep : pixel) :
  rectangular img ->
  Z.of_nat r < shape0 img -> Z.of_nat c < shape1 img ->
  pixel_at img r c = Some (nth c (nth r img []) keep).
Proof.
  intros Hrect Hr Hc. unfold pixel_at, shape0 in *.
  destruct (nth_error img r) as [row|] eqn:E.
  - pose proof (rectangular_row img r row Hrect E) as Hlen.
    rewrite (nth_error_nth _ _ [] E).
    apply nth_error_nth'. lia.
  - apply nth_error_None in E. lia.
Qed.

(** C10 (amended).  Where the rectangle of the QR code lies within the
    canvas, [place_qr] returns [(x + qr_width, y + padding/2 + qr_height)];
    afterwards each pixel of the rectangle is the pixel of the QR code at
    the same offset and every other pixel is as it was. *)
Theorem place_qr_within_canvas (img qr : image) (x y padding : Z) :
  rectangular img ->
  rectangular qr ->
  0 <= x ->
  x + shape1 qr <= shape1 img ->
  0 <= y + Py.int_half padding ->
  y + Py.int_half padding + shape0 qr <= shape0 img ->
  exists img',
    place_qr img qr x y padding
    = Returns (img', (x + shape1 qr, y + Py.int_half padding + shape0 qr))
    /\ forall r c,
         pixel_at img' r c
         = if in_rectangle (y + Py.int_half padding) x (shape0 qr) (shape1 qr)
                r c
           then pixel_at qr (Z.to_nat (Z.of_nat r - (y + Py.int_half padding)))
                  (Z.to_nat (Z.of_nat c - x))
           else pixel_at img r c.
Proof.
  intros Hrect Hqr Hx0 Hx1 Hy0 Hy1.
  set (top := y + Py.int_half padding) in *.
  assert (Hh : 0 <= shape0 qr) by (unfold shape0; lia).
  assert (Hw : 0 <= shape1 qr) by (unfold shape1; lia).
  unfold place_qr, setitem_region. cbn [fst snd]. fold top.
  rewrite !slice_bound_inside by lia.
  replace (Z.max 0 (top + shape0 qr - top)) with (shape0 qr) by lia.
  replace (Z.max 0 (x + shape1 qr - x)) with (shape1 qr) by lia.
  rewrite !Z.eqb_refl. cbn [orb andb bind].
  eexists. split; [reflexivity|].
  intros r c. unfold pixel_at at 1. rewrite nth_error_mapi.
  unfold in_rectangle.
  destruct (nth_error img r) as [row|] eqn:Er.
  - cbn [option_map].
    pose proof (rectangular_row img r row Hrect Er) as Hlen.
    assert (Hr : Z.of_nat r < shape0 img).
    { unfold shape0. apply Nat2Z.inj_lt. apply nth_error_Some. congruence. }
    destruct (in_range top (shape0 qr) r) eqn:Ir; cbn [andb].
    + rewrite nth_error_mapi.
      destruct (nth_error row c) as [p|] eqn:Ec.
      * cbn [option_map].
        destruct (in_range x (shape1 qr) c) eqn:Ic.
        -- unfold in_range in Ir, Ic.
           apply andb_true_iff in Ir. destruct Ir as [Ir1 Ir2].
           apply andb_true_iff in Ic. destruct Ic as [Ic1 Ic2].
           apply Z.leb_le in Ir1, Ic1. apply Z.ltb_lt in Ir2, Ic2.
           unfold broadcast_at.
           replace (if shape0 qr =? 1 then 0 else Z.of_nat r - top)
             with (Z.of_nat r - top)
             by (destruct (shape0 qr =? 1) eqn:E1;
                 [apply Z.eqb_eq in E1; lia|reflexivity]).
           replace (if shape1 qr =? 1 then 0 else Z.of_nat c - x)
             with (Z.of_nat c - x)
             by (destruct (shape1 qr =? 1) eqn:E1;
                 [apply Z.eqb_eq in E1; lia|reflexivity]).
           symmetry. apply pixel_at_nth; [assumption|lia|lia].
        -- unfold pixel_at. now rewrite Er, Ec.
      * cbn [option_map].
        assert (Hc : (List.length row <= c)%nat) by now apply nth_error_None.
        destruct (in_range x (shape1 qr) c) eqn:Ic.
        -- unfold in_range in Ic. apply andb_true_iff in Ic.
           destruct Ic as [Ic1 Ic2]. apply Z.ltb_lt in Ic2. lia.
        -- unfold pixel_at. now rewrite Er, Ec.
    + unfold pixel_at. now rewrite Er.
  - cbn [option_map].
    destruct (in_range top (shape0 qr) r) eqn:Ir; cbn [andb].
    + apply nth_error_None in Er. unfold in_range in Ir.
      apply andb_true_iff in Ir. destruct Ir as [_ Ir2].
      apply Z.ltb_lt in Ir2. unfold shape0 in *. lia.
    + unfold pixel_at. now rewrite Er.
Qed.

Lemma place_qr_within_canvas_witness :
  exists img',
    place_qr tiny_canvas tiny_qr 1 0 2 = Returns (img', (3, 3))
    /\ pixel_at img' 1 1 = Some (255, 255, 255)
    /\ pixel_at img' 0 1 = Some (34, 34, 34).
Proof.
  destruct (place_qr_within_canvas tiny_canvas tiny_qr 1 0 2)
    as (img' & Hr & Hp).
  - repeat constructor.
  - repeat constructor.
  - vm_compute. discriminate.
  - vm_compute. discriminate.
  - vm_compute. discriminate.
  - vm_compute. discriminate.
  - exists img'. split; [exact Hr|].
    split; rewrite Hp; reflexivity.
Defined.

(** C10 as stated fails outside the canvas: numpy counts a negative bound
    from the far edge and clips a bound beyond the edge.  With [x = -3] the
    2 x 2 square lands in columns 1 and 2 of a 4 x 4 canvas, outside the
    columns [-3, -1) of the rectangle; with [x = 3] the clipped slice is one
    column wide, the assignment raises and nothing is returned. *)
Lemma place_qr_wraps_and_raises :
  (exists img',
      place_qr tiny_canvas tiny_qr (-3) 0 0 = Returns (img', (-1, 2))
      /\ in_rectangle 0 (-3) 2 2 0 1 = false
      /\ pixel_at tiny_canvas 0 1 = Some (34, 34, 34)
      /\ pixel_at img' 0 1 = Some (255, 255, 255))
  /\ place_qr tiny_canvas tiny_qr 3 0 0 = Raises ValueError.
Proof.
  split; [eexists; split; [vm_compute; reflexivity|]|];
    repeat split.
Qed.

(** * Further properties of the code *)

(** ** [split] and [join] *)

Lemma prefix_drop (a s : string) :
  prefix a s = true -> s = a ++ drop (String.length a) s.
Proof.
  revert s. induction a as [|c a IH]; intros s H.
  - reflexivity.
  - destruct s as [|d s]; [discriminate|]. cbn [prefix] in H.
    destruct (ascii_dec c d) as [->|]; [|discriminate].
    cbn [String.length drop append]. f_equal. now apply IH.
Qed.

Lemma join_split_from (sep : string) :
  sep <> "" ->
  forall s k, Py.join sep (Py.split_from sep k s) = drop k s.
Proof.
  intros Hsep. induction s as [|c rest IH]; intros k.
  - now destruct k.
  - cbn [Py.split_from]. destruct k as [|k]; [|apply IH].
    destruct (prefix sep (String c rest)) eqn:P.
    + rewrite join_cons by apply split_from_not_nil.
      rewrite IH. cbn [append drop].
      rewrite (prefix_drop _ _ P) at 1.
      destruct sep as [|d sep']; [congruence|].
      cbn [String.length drop Nat.sub]. now rewrite Nat.sub_0_r.
    + specialize (IH 0%nat). cbn [drop] in *.
      destruct (Py.split_from sep 0 rest) as [|h t] eqn:E;
        [now apply split_from_not_nil in E|].
      destruct t as [|h' t'].
      * cbn in *. now rewrite IH.
      * rewrite join_cons in * by discriminate.
        cbn [append]. now rewrite IH.
Qed.

(** ** What a call of [calculate_text_bb] leaves *)


(** X1.  Within one call the scale never goes up: it goes down by exactly
    one half for every downgrade entry written to either list. *)
Theorem auto_fit_scale_accounting {metrics : GlyphMetrics} (fuel : nat)
    (tb : TextBox) (img : image) (max_bb_size : Z) (min_font_scale : Q)
    (r : log_ref) (st : log_store) (tb' : TextBox) (st' : log_store) :
  calculate_text_bb fuel tb img max_bb_size min_font_scale r st
  = Returns (tb', st') ->
  0 <= downgrades st' - downgrades st
  /\ font_scale tb'
     == font_scale tb - inject_Z (downgrades st' - downgrades st) * (1 # 2)
  /\ (font_scale tb' <= font_scale tb)%Q.
Proof.
  intros H. destruct (calculate_text_bb_scale _ _ _ _ _ _ _ _ _ H) as [Hle Heq].
  split; [lia|]. split; [exact Heq|].
  rewrite Heq.
  assert (0 <= inject_Z (downgrades st' - downgrades st) * (1 # 2))%Q.
  { apply Qmult_le_0_compat; [|discriminate]. rewrite <- (Zle_Qle 0). lia. }
  lra.
Qed.

Lemma auto_fit_scale_accounting_witness :
  exists tb' st',
    @calculate_text_bb sample_metrics 10 off_grid_block (strip 4488) 120
      (5 # 2) CallerList empty_store = Returns (tb', st')
    /\ downgrades st' - downgrades empty_store = 3
    /\ font_scale tb' == (16 # 5) - inject_Z 3 * (1 # 2).
Proof.
  assert (H : exists tb' st',
             @calculate_text_bb sample_metrics 10 off_grid_block (strip 4488)
               120 (5 # 2) CallerList empty_store = Returns (tb', st')
             /\ downgrades st' - downgrades empty_store = 3).
  { do 2 eexists. split; [vm_compute; reflexivity|]. reflexivity. }
  destruct H as (tb' & st' & H & Hd). exists tb', st'.
  split; [exact H|]. split; [exact Hd|].
  destruct (auto_fit_scale_accounting _ _ _ _ _ _ _ _ _ H) as (_ & Heq & _).
  rewrite Hd in Heq. exact Heq.
Defined.

(** X2.  With a floor and a starting scale that are halves of integers,
    the starting scale [k] half units above the floor, and a recursion
    budget above [k], the call returns after at most [k] downgrades, and the
    scale it leaves is on the same grid, between the floor and the starting
    scale. *)
Theorem auto_fit_on_grid_stops_at_floor {metrics : GlyphMetrics} (k fuel : nat)
    (tb : TextBox) (img : image) (max_bb_size : Z) (min_font_scale : Q)
    (r : log_ref) (st : log_store) :
  delim tb <> "" ->
  half_integer min_font_scale ->
  half_integer (font_scale tb) ->
  font_scale tb == min_font_scale + inject_Z (Z.of_nat k) * (1 # 2) ->
  (k < fuel)%nat ->
  exists tb' st' j,
    calculate_text_bb fuel tb img max_bb_size min_font_scale r st
    = Returns (tb', st')
    /\ (j <= k)%nat
    /\ font_scale tb' == min_font_scale + inject_Z (Z.of_nat j) * (1 # 2)
    /\ (min_font_scale <= font_scale tb')%Q
    /\ half_integer (font_scale tb')
    /\ downgrades st' - downgrades st = Z.of_nat (k - j).
Proof.
  intros Hd (n & Hn & Hmin) (m & Hm & Hstart) Hs Hf.
  destruct (calculate_text_bb_on_grid_scale img max_bb_size min_font_scale
              k fuel tb r st Hd Hs Hf) as (tb' & st' & j & Hr & Hj & Hs').
  assert (Hnm : m = n + Z.of_nat k).
  { rewrite Hstart, Hmin in Hs.
    assert (E : inject_Z m == inject_Z (n + Z.of_nat k)).
    { rewrite inject_Z_plus.
      set (M := inject_Z m) in *. set (N := inject_Z n) in *.
      set (K := inject_Z (Z.of_nat k)) in *. clearbody M N K. lra. }
    now apply (proj1 (inject_Z_injective _ _)) in E. }
  exists tb', st', j. split; [exact Hr|]. split; [exact Hj|].
  split; [exact Hs'|]. split; [|split].
  - rewrite Hs'.
    assert (0 <= inject_Z (Z.of_nat j) * (1 # 2))%Q.
    { apply Qmult_le_0_compat; [|discriminate]. rewrite <- (Zle_Qle 0). lia. }
    lra.
  - exists (n + Z.of_nat j). split; [lia|].
    rewrite Hs', Hmin, inject_Z_plus. ring.
  - destruct (calculate_text_bb_scale _ _ _ _ _ _ _ _ _ Hr) as [Hle Heq].
    rewrite Hs', Hs in Heq.
    assert (E : inject_Z (downgrades st' - downgrades st + Z.of_nat j)
                == inject_Z (Z.of_nat k)).
    { rewrite inject_Z_plus.
      set (D := inject_Z (downgrades st' - downgrades st)) in *.
      set (J := inject_Z (Z.of_nat j)) in *.
      set (K := inject_Z (Z.of_nat k)) in *.
      clearbody D J K. lra. }
    apply (proj1 (inject_Z_injective _ _)) in E. lia.
Qed.

Lemma auto_fit_on_grid_stops_at_floor_witness :
  exists tb' st' j,
    @calculate_text_bb sample_metrics 3 tall_block (strip 4488) 120 (5 # 2)
      CallerList empty_store = Returns (tb', st')
    /\ (j <= 2)%nat
    /\ font_scale tb' == (5 # 2) + inject_Z (Z.of_nat j) * (1 # 2)
    /\ (5 # 2 <= font_scale tb')%Q
    /\ half_integer (font_scale tb')
    /\ downgrades st' - downgrades empty_store = Z.of_nat (2 - j).
Proof.
  apply (@auto_fit_on_grid_stops_at_floor sample_metrics 2 3 tall_block
           (strip 4488) 120 (5 # 2) CallerList empty_store).
  - discriminate.
  - exists 5. split; [vm_compute; discriminate|reflexivity].
  - exists 7. split; [vm_compute; discriminate|reflexivity].
  - reflexivity.
  - lia.
Defined.

(** X3.  A call that returns has either met the floor or left a bounding
    box no higher than the maximum. *)
Theorem auto_fit_returns_fitting_or_at_floor {metrics : GlyphMetrics}
    (fuel : nat) (img : image) (max_bb_size : Z) (min_font_scale : Q) :
  forall tb r st tb' st',
    calculate_text_bb fuel tb img max_bb_size min_font_scale r st
    = Returns (tb', st') ->
    font_scale tb' == min_font_scale
    \/ snd (bounding_box tb') <= max_bb_size.
Proof.
  induction fuel as [|fuel IH]; intros tb r st tb' st' H; [discriminate|].
  rewrite calculate_text_bb_unfold in H.
  destruct (delim tb =? "")%string; [discriminate|].
  cbv zeta in H.
  destruct (Qeq_bool _ _) eqn:Eq.
  - injection H as <- <-. left. now apply Qeq_bool_iff.
  - destruct (_ >? _) eqn:Eb.
    + eapply IH. exact H.
    + injection H as <- <-. right.
      rewrite Z.gtb_ltb in Eb. now apply Z.ltb_ge in Eb.
Qed.

Lemma auto_fit_returns_fitting_or_at_floor_witness :
  exists tb' st',
    @calculate_text_bb sample_metrics 10 off_grid_block (strip 4488) 120
      (5 # 2) CallerList empty_store = Returns (tb', st')
    /\ (font_scale tb' == 5 # 2 \/ snd (bounding_box tb') <= 120).
Proof.
  assert (H : exists tb' st',
             @calculate_text_bb sample_metrics 10 off_grid_block (strip 4488)
               120 (5 # 2) CallerList empty_store = Returns (tb', st')).
  { do 2 eexists. vm_compute. reflexivity. }
  destruct H as (tb' & st' & H). exists tb', st'. split; [exact H|].
  exact (auto_fit_returns_fitting_or_at_floor _ _ _ _ _ _ _ _ _ H).
Defined.

(** X4.  The block a call returns is consistent: its bounding box is its
    width plus 100 by its height plus 80, its line height is the height of
    a space in the font it ends with, and no line is wider than its
    width. *)
Theorem measured_block_is_consistent {metrics : GlyphMetrics} (fuel : nat)
    (tb : TextBox) (img : image) (max_bb_size : Z) (min_font_scale : Q)
    (r : log_ref) (st : log_store) (tb' : TextBox) (st' : log_store) :
  calculate_text_bb fuel tb img max_bb_size min_font_scale r st
  = Returns (tb', st') ->
  bounding_box tb' = (width tb' + 100, height tb' + 80)
  /\ line_height tb' = snd (text_size tb' " ")
  /\ Forall (fun w => w <= width tb') (line_widths tb' (paragraphs tb')).
Proof.
  intros H.
  destruct (calculate_text_bb_last_pass _ _ _ _ _ _ _ _ _ H)
    as (tb0 & -> & _ & _).
  split; [apply measure_pass_bounding_box|].
  destruct (shifted_fresh_wrap tb0) as (_ & _ & (Hf & Hs & Hw & _) & _).
  rewrite !measure_pass_eq. cbv zeta.
  cbn [line_height width paragraphs set_measure]. split.
  - unfold text_size. cbn [font font_scale font_width set_measure].
    now rewrite Hf, Hs, Hw.
  - rewrite measure_paragraphs_acc. cbn [snd].
    replace (line_widths (set_measure _ _ _ _ _ _) (pass_lines tb0 img))
      with (line_widths (shifted tb0) (pass_lines tb0 img))
      by (apply line_widths_same; repeat split).
    apply widest_ge.
Qed.

Lemma measured_block_is_consistent_witness :
  exists tb' st',
    @calculate_text_bb sample_metrics 10 off_grid_block (strip 4488) 120
      (5 # 2) CallerList empty_store = Returns (tb', st')
    /\ bounding_box tb' = (width tb' + 100, height tb' + 80)
    /\ line_height tb' = snd (@text_size sample_metrics tb' " ")
    /\ Forall (fun w => w <= width tb')
         (@line_widths sample_metrics tb' (paragraphs tb')).
Proof.
  assert (H : exists tb' st',
             @calculate_text_bb sample_metrics 10 off_grid_block (strip 4488)
               120 (5 # 2) CallerList empty_store = Returns (tb', st')).
  { do 2 eexists. vm_compute. reflexivity. }
  destruct H as (tb' & st' & H). exists tb', st'. split; [exact H|].
  exact (measured_block_is_consistent _ _ _ _ _ _ _ _ _ H).
Defined.

(** X5.  A call leaves one list of lines for each paragraph of the text,
    none of them empty; outside paragraph mode that is a single paragraph. *)
Theorem measured_paragraphs_shape {metrics : GlyphMetrics} (fuel : nat)
    (tb : TextBox) (img : image) (max_bb_size : Z) (min_font_scale : Q)
    (r : log_ref) (st : log_store) (tb' : TextBox) (st' : log_store) :
  calculate_text_bb fuel tb img max_bb_size min_font_scale r st
  = Returns (tb', st') ->
  List.length (paragraphs tb') = List.length (paragraphs_raw tb)
  /\ Forall (fun lines => lines <> []) (paragraphs tb')
  /\ (paragraph_break tb = false -> exists lines, paragraphs tb' = [lines])
  /\ (paragraph_break tb = true ->
      List.length (paragraphs tb') = List.length (Py.split "\p" (text tb))).
Proof.
  intros H. rewrite (calculate_text_bb_paragraphs _ _ _ _ _ _ _ _ _ H).
  split; [apply length_map|]. split.
  - apply Forall_map. apply Forall_forall. intros p _. apply split_not_nil.
  - unfold paragraphs_raw. split; intros ->.
    + eexists. reflexivity.
    + apply length_map.
Qed.

Lemma measured_paragraphs_shape_witness :
  exists tb' st',
    @calculate_text_bb sample_metrics 4 bullets_block (strip 4488) 2400
      (5 # 2) CallerList empty_store = Returns (tb', st')
    /\ List.length (paragraphs tb') = 2%nat
    /\ Forall (fun lines => lines <> []) (paragraphs tb').
Proof.
  assert (H : exists tb' st',
             @calculate_text_bb sample_metrics 4 bullets_block (strip 4488)
               2400 (5 # 2) CallerList empty_store = Returns (tb', st')).
  { do 2 eexists. vm_compute. reflexivity. }
  destruct H as (tb' & st' & H). exists tb', st'. split; [exact H|].
  destruct (measured_paragraphs_shape _ _ _ _ _ _ _ _ _ H)
    as (Hlen & Hne & _ & Hpar).
  split; [|exact Hne]. rewrite (Hpar eq_refl). reflexivity.
Defined.

(** ** A paragraph that fits on one line *)

Section OneLine.

Context {metrics : GlyphMetrics}.
Variable tb : TextBox.
Variable img : image.

Lemma total_width_nonneg (ws : list string) :
  Forall (fun w => 0 <= fst (text_size tb w)) ws -> 0 <= total_width tb ws.
Proof.
  unfold total_width. induction 1 as [|w ws Hw _ IH]; cbn [map fold_right]; lia.
Qed.

Lemma wrap_fold_all_fit (ws : list string) :
  Forall (fun w => 0 <= fst (text_size tb w)) ws ->
  forall ft x,
    x + total_width tb ws <= shape1 img - right_margin tb ->
    fold_left (fun st w => wrap_step tb img w st) ws (ft, x)
    = (ft ++ line_text ws, x + total_width tb ws).
Proof.
  induction 1 as [|w ws Hw Hws IH]; intros ft x Hfit.
  - cbn. rewrite append_nil_r. f_equal. lia.
  - pose proof (total_width_nonneg ws Hws) as Hn.
    unfold total_width in Hfit, Hn |- *. cbn [map fold_right] in *.
    cbn [fold_left]. unfold wrap_step at 2.
    destruct (_ <=? _) eqn:E; [|apply Z.leb_gt in E; lia].
    rewrite IH by (unfold total_width; lia).
    rewrite line_text_cons, append_assoc. f_equal. unfold total_width. lia.
Qed.

Lemma wrap_paragraph_all_fit (p : string) :
  Forall (fun w => 0 <= fst (text_size tb w)) (paragraph_words tb p) ->
  left_margin tb + total_width tb (paragraph_words tb p)
  <= shape1 img - right_margin tb ->
  wrap_paragraph tb img p = line_text (paragraph_words tb p).
Proof.
  intros Hpos Hfit. unfold wrap_paragraph. rewrite wrap_words_fold.
  fold (paragraph_words tb p). now rewrite wrap_fold_all_fit.
Qed.

Lemma join_as_prefixed (sep : string) (ws : list string) :
  forall w0,
    Py.join sep (w0 :: ws) = w0 ++ line_text (map (fun w => sep ++ w) ws).
Proof.
  induction ws as [|w ws IH]; intros w0.
  - cbn. now rewrite append_nil_r.
  - rewrite join_cons by discriminate. rewrite IH. cbn [map].
    rewrite line_text_cons. now rewrite append_assoc.
Qed.

Lemma decorate_all_space_delim (n : nat) (ws : list string) :
  delim tb = " " ->
  forall ix,
    decorate_all tb n (S ix) ws = map (fun w => " " ++ Py.lstrip w) ws.
Proof.
  intros Hd. induction ws as [|w ws IH]; intros ix; [reflexivity|].
  cbn [decorate_all map]. rewrite IH. f_equal.
  unfold decorate_word. rewrite Hd. cbn [Nat.eqb].
  now rewrite andb_false_r.
Qed.

(** With a space as delimiter the words, one after the other, are the
    pieces of the paragraph stripped on the left and joined by spaces. *)
Lemma paragraph_words_space_delim (p : string) :
  delim tb = " " ->
  line_text (paragraph_words tb p)
  = Py.join " " (map Py.lstrip (Py.split " " p)).
Proof.
  intros Hd. unfold paragraph_words. rewrite Hd.
  destruct (Py.split " " p) as [|w0 ws] eqn:E;
    [now apply split_not_nil in E|].
  cbn [decorate_all map]. rewrite line_text_cons.
  rewrite (decorate_all_space_delim _ ws Hd).
  rewrite join_as_prefixed, map_map. f_equal.
  unfold decorate_word. rewrite Hd. cbn [Nat.eqb].
  now rewrite andb_false_r.
Qed.

End OneLine.

(** X6.  A paragraph without line feed whose words, measured one by one,
    fit together after the left margin is wrapped to exactly one line: its
    words one after the other.  With a space as delimiter and no piece that
    starts with white space, that line is the paragraph itself. *)
Theorem fitting_paragraph_stays_on_one_line {metrics : GlyphMetrics}
    (fuel : nat) (tb : TextBox) (img : image) (max_bb_size : Z)
    (min_font_scale : Q) (r : log_ref) (st : log_store) (tb' : TextBox)
    (st' : log_store) (i : nat) (p : string) :
  calculate_text_bb fuel tb img max_bb_size min_font_scale r st
  = Returns (tb', st') ->
  nth_error (paragraphs_raw tb) i = Some p ->
  clean p ->
  clean (splitter tb) ->
  Forall (fun w => 0 <= fst (text_size tb' w)) (paragraph_words tb' p) ->
  left_margin tb' + total_width tb' (paragraph_words tb' p)
  <= shape1 img - right_margin tb' ->
  nth_error (paragraphs tb') i = Some [line_text (paragraph_words tb' p)]
  /\ (delim tb = " " ->
      Forall (fun w => Py.lstrip w = w) (Py.split " " p) ->
      nth_error (paragraphs tb') i = Some [p]).
Proof.
  intros Hret Hp Hclean Hsplit Hpos Hfit.
  pose proof (calculate_text_bb_static _ _ _ _ _ _ _ _ _ Hret)
    as (_ & _ & _ & _ & _ & _ & _ & _ & _ & _ & _ & Hd & Hsp).
  rewrite (calculate_text_bb_paragraphs _ _ _ _ _ _ _ _ _ Hret).
  rewrite nth_error_map, Hp. cbn [option_map].
  rewrite (wrap_paragraph_all_fit tb' img p Hpos Hfit).
  assert (Hone : Py.split Py.nl (line_text (paragraph_words tb' p))
                 = [line_text (paragraph_words tb' p)]).
  { apply split_nl_clean. apply line_text_clean.
    apply paragraph_words_clean; [rewrite <- Hsp|]; assumption. }
  rewrite Hone. split; [reflexivity|].
  intros Hspace Hstrip. do 2 f_equal.
  rewrite paragraph_words_space_delim by congruence.
  replace (map Py.lstrip (Py.split " " p)) with (Py.split " " p).
  - apply (join_split_from " "); discriminate.
  - symmetry. rewrite <- (map_id (Py.split " " p)) at 2.
    apply map_ext_in. intros w Hw.
    rewrite Forall_forall in Hstrip. now apply Hstrip.
Qed.

Lemma fitting_paragraph_stays_on_one_line_witness :
  exists tb' st',
    @calculate_text_bb sample_metrics 1 scenario_block (strip 4488) 1000 1
      CallerList empty_store = Returns (tb', st')
    /\ nth_error (paragraphs tb') 0 = Some ["Hello world this is a test"].
Proof.
  assert (H : exists tb' st',
             @calculate_text_bb sample_metrics 1 scenario_block (strip 4488)
               1000 1 CallerList empty_store = Returns (tb', st')
             /\ tb' = @measure_pass sample_metrics scenario_block (strip 4488)).
  { do 2 eexists. split; [vm_compute; reflexivity|]. vm_compute. reflexivity. }
  destruct H as (tb' & st' & H & Etb). exists tb', st'. split; [exact H|].
  refine (proj2 (@fitting_paragraph_stays_on_one_line sample_metrics 1
                   scenario_block (strip 4488) 1000 1 CallerList empty_store
                   tb' st' 0 "Hello world this is a test" H _ _ _ _ _) _ _).
  - reflexivity.
  - reflexivity.
  - reflexivity.
  - rewrite Etb. vm_compute. repeat constructor; discriminate.
  - rewrite Etb. vm_compute. discriminate.
  - reflexivity.
  - vm_compute. repeat constructor.
Defined.

(** ** Errors and diagnostics of [calculate_text_bb] *)



Section LogGrowth.

Context {metrics : GlyphMetrics}.
Variable img : image.
Variable max_bb_size : Z.
Variable min_font_scale : Q.

Lemma log_append_extends (r : log_ref) (e : log_entry) (st : log_store) :
  exists a d,
    caller_logs (log_append r e st) = (caller_logs st ++ a)%list
    /\ default_logs (log_append r e st) = (default_logs st ++ d)%list
    /\ (a ++ d)%list = [e]
    /\ (r = DefaultArg -> a = []).
Proof.
  destruct r; cbn [log_append caller_logs default_logs].
  - exists [], [e]. rewrite app_nil_r. repeat split.
  - exists [e], []. rewrite app_nil_r. repeat split. discriminate.
Qed.

Lemma calculate_text_bb_extends (fuel : nat) :
  forall tb r st tb' st',
    calculate_text_bb fuel tb img max_bb_size min_font_scale r st
    = Returns (tb', st') ->
    exists a d,
      caller_logs st' = (caller_logs st ++ a)%list
      /\ default_logs st' = (default_logs st ++ d)%list
      /\ Forall (entry_of (name tb)) (a ++ d)
      /\ (r = DefaultArg -> a = []).
Proof.
  induction fuel as [|fuel IH]; intros tb r st tb' st' H; [discriminate|].
  rewrite calculate_text_bb_unfold in H.
  destruct (delim tb =? "")%string; [discriminate|].
  cbv zeta in H.
  destruct (measure_pass_static img tb) as ((Hn & _) & _).
  destruct (Qeq_bool _ _).
  - injection H as <- <-.
    destruct (log_append_extends r (ReachedMinimum (name (measure_pass tb img))) st)
      as (a & d & Ha & Hd & Had & Hr).
    exists a, d. repeat split; try assumption.
    rewrite Had. constructor; [|constructor]. left. now rewrite Hn.
  - destruct (_ >? _).
    + apply IH in H. destruct H as (a' & d' & Ha' & Hd' & Hall & Hr').
      specialize (Hr' eq_refl). subst a'. rewrite app_nil_r in Ha'.
      match type of Ha' with
      | _ = caller_logs (log_append r ?e st) =>
          destruct (log_append_extends r e st) as (a & d & Ha & Hd & Had & Hr)
      end.
      exists a, (d ++ d')%list. rewrite Ha', Hd', Ha, Hd.
      repeat split; try assumption.
      * now rewrite app_assoc.
      * rewrite app_assoc, Had. cbn [app]. constructor.
        -- right. eexists. cbn [name downscale set_measure set_left_margin
                                 set_font]. now rewrite <- Hn.
        -- cbn [app] in Hall.
           cbn [name downscale set_measure set_left_margin set_font] in Hall.
           now rewrite <- Hn in Hall.
    + injection H as <- <-. exists [], []. rewrite !app_nil_r.
      repeat split. constructor.
Qed.

End LogGrowth.

(** X8.  A call only appends to the two lists: what they held stays, and
    every entry added names the block.  The list the caller passed receives
    at most one entry, and none when the call omits [logs]. *)
Theorem measurement_only_appends_to_logs {metrics : GlyphMetrics}
    (fuel : nat) (tb : TextBox) (img : image) (max_bb_size : Z)
    (min_font_scale : Q) (r : log_ref) (st : log_store) (tb' : TextBox)
    (st' : log_store) :
  calculate_text_bb fuel tb img max_bb_size min_font_scale r st
  = Returns (tb', st') ->
  exists a d,
    caller_logs st' = (caller_logs st ++ a)%list
    /\ default_logs st' = (default_logs st ++ d)%list
    /\ Forall (entry_of (name tb)) (a ++ d)
    /\ (List.length a <= 1)%nat
    /\ (r = DefaultArg -> a = []).
Proof.
  intros H.
  destruct (calculate_text_bb_extends _ _ _ _ _ _ _ _ _ H)
    as (a & d & Ha & Hd & Hall & Hr).
  exists a, d. repeat split; try assumption.
  destruct r.
  - rewrite (Hr eq_refl). cbn. lia.
  - destruct (calculate_text_bb_caller_log _ _ _ _ _ _ _ _ H)
      as (a' & Ha' & Hlen).
    rewrite Ha in Ha'. apply app_inv_head in Ha'. now subst a'.
Qed.

Lemma measurement_only_appends_to_logs_witness :
  exists tb' st' a d,
    @calculate_text_bb sample_metrics 10 tall_block (strip 4488) 120 (5 # 2)
      CallerList (mkStore [ReachedMinimum "QR Text"] [SavingQR "atraxa"])
    = Returns (tb', st')
    /\ caller_logs st' = ([SavingQR "atraxa"] ++ a)%list
    /\ default_logs st' = ([ReachedMinimum "QR Text"] ++ d)%list
    /\ Forall (entry_of "Summary Text") (a ++ d)
    /\ (List.length a <= 1)%nat.
Proof.
  assert (H : exists tb' st',
             @calculate_text_bb sample_metrics 10 tall_block (strip 4488) 120
               (5 # 2) CallerList
               (mkStore [ReachedMinimum "QR Text"] [SavingQR "atraxa"])
             = Returns (tb', st')).
  { do 2 eexists. vm_compute. reflexivity. }
  destruct H as (tb' & st' & H).
  destruct (measurement_only_appends_to_logs _ _ _ _ _ _ _ _ _ H)
    as (a & d & Ha & Hd & Hall & Hlen & _).
  exists tb', st', a, d. repeat (split; [assumption|]). exact Hlen.
Defined.

(** ** Round trip and left margin *)

(** X9.  For a paragraph without line feed whose first word fits after the
    left margin, joining the lines with a space in place of each line break
    gives back the words of the paragraph, one after the other. *)
Theorem wrapped_lines_join_back {metrics : GlyphMetrics} (fuel : nat)
    (tb : TextBox) (img : image) (max_bb_size : Z) (min_font_scale : Q)
    (r : log_ref) (st : log_store) (tb' : TextBox) (st' : log_store)
    (i : nat) (p : string) :
  calculate_text_bb fuel tb img max_bb_size min_font_scale r st
  = Returns (tb', st') ->
  nth_error (paragraphs_raw tb) i = Some p ->
  clean p ->
  clean (splitter tb) ->
  left_margin tb' + fst (text_size tb' (hd "" (paragraph_words tb' p)))
  <= shape1 img - right_margin tb' ->
  exists lines,
    nth_error (paragraphs tb') i = Some lines
    /\ Py.join " " lines = line_text (paragraph_words tb' p).
Proof.
  intros Hret Hp Hclean Hsplit Hfit.
  pose proof (calculate_text_bb_static _ _ _ _ _ _ _ _ _ Hret)
    as (_ & _ & _ & _ & _ & _ & _ & _ & _ & _ & _ & _ & Hsp).
  rewrite (calculate_text_bb_paragraphs _ _ _ _ _ _ _ _ _ Hret).
  rewrite nth_error_map, Hp. cbn [option_map].
  eexists. split; [reflexivity|].
  apply wrap_roundtrip_when_first_fits; [rewrite <- Hsp| |]; assumption.
Qed.

Lemma wrapped_lines_join_back_witness :
  exists tb' st' lines,
    @calculate_text_bb sample_metrics 1 scenario_block (strip 340) 1000 1
      CallerList empty_store = Returns (tb', st')
    /\ nth_error (paragraphs tb') 0 = Some lines
    /\ lines = ["Hello world this"; "is a test"]
    /\ Py.join " " lines = "Hello world this is a test".
Proof.
  assert (H : exists tb' st',
             @calculate_text_bb sample_metrics 1 scenario_block (strip 340)
               1000 1 CallerList empty_store = Returns (tb', st')
             /\ tb' = @measure_pass sample_metrics scenario_block (strip 340)).
  { do 2 eexists. split; [vm_compute; reflexivity|]. vm_compute. reflexivity. }
  destruct H as (tb' & st' & H & Etb).
  destruct (@wrapped_lines_join_back sample_metrics 1 scenario_block
              (strip 340) 1000 1 CallerList empty_store tb' st' 0
              "Hello world this is a test" H)
    as (lines & Hl & Hj).
  - reflexivity.
  - reflexivity.
  - reflexivity.
  - rewrite Etb. vm_compute. discriminate.
  - exists tb', st', lines. split; [exact H|]. split; [exact Hl|].
    assert (El : lines = ["Hello world this"; "is a test"]).
    { rewrite Etb in Hl. vm_compute in Hl. now injection Hl as <-. }
    split; [exact El|]. rewrite El. reflexivity.
Defined.

(** X10.  The left margin a call leaves is the one it was given, shifted in
    paragraph mode by the bullet radius and the width of a space in the
    font the call ends with: downgrades do not add up shifts, but every
    further call on the block shifts it again. *)
Theorem left_margin_after_call {metrics : GlyphMetrics} (fuel : nat)
    (img : image) (max_bb_size : Z) (min_font_scale : Q) :
  forall tb r st tb' st',
    calculate_text_bb fuel tb img max_bb_size min_font_scale r st
    = Returns (tb', st') ->
    left_margin tb'
    = if paragraph_break tb
      then left_margin tb + circle_size tb + fst (text_size tb' " ")
      else left_margin tb.
Proof.
  induction fuel as [|fuel IH]; intros tb r st tb' st' H; [discriminate|].
  rewrite calculate_text_bb_unfold in H.
  destruct (delim tb =? "")%string; [discriminate|].
  cbv zeta in H.
  assert (Hpass : left_margin (measure_pass tb img)
                  = if paragraph_break tb
                    then left_margin tb + circle_size tb
                         + fst (text_size (measure_pass tb img) " ")
                    else left_margin tb).
  { rewrite measure_pass_left_margin.
    destruct (measure_pass_static img tb)
      as ((_ & _ & Hf & _) & Hs & Hw).
    unfold text_size. now rewrite <- Hf, Hs, Hw. }
  destruct (Qeq_bool _ _).
  - injection H as <- <-. exact Hpass.
  - destruct (_ >? _).
    + apply IH in H. rewrite H.
      destruct (measure_pass_static img tb)
        as ((_ & _ & _ & _ & _ & _ & Hpb & _ & Hcs & _) & _).
      cbn [paragraph_break left_margin circle_size downscale set_measure
             set_left_margin set_font].
      now rewrite <- Hpb, <- Hcs.
    + injection H as <- <-. exact Hpass.
Qed.

Lemma left_margin_after_call_witness :
  exists tb' st' tb'' st'',
    @calculate_text_bb sample_metrics 4 bullets_block (strip 4488) 2400
      (5 # 2) CallerList empty_store = Returns (tb', st')
    /\ left_margin tb' = 400 + 25 + 81
    /\ @calculate_text_bb sample_metrics 4 tb' (strip 4488) 2400
         (5 # 2) CallerList st' = Returns (tb'', st'')
    /\ left_margin tb'' = 400 + 25 + 81 + 25 + 81.
Proof.
  assert (H : exists tb' st' tb'' st'',
             @calculate_text_bb sample_metrics 4 bullets_block (strip 4488)
               2400 (5 # 2) CallerList empty_store = Returns (tb', st')
             /\ @calculate_text_bb sample_metrics 4 tb' (strip 4488) 2400
                  (5 # 2) CallerList st' = Returns (tb'', st'')
             /\ left_margin tb' = 506
             /\ paragraph_break tb' = true /\ circle_size tb' = 25
             /\ fst (@text_size sample_metrics tb'' " ") = 81).
  { do 4 eexists. split; [vm_compute; reflexivity|].
    split; [vm_compute; reflexivity|]. repeat split. }
  destruct H as (tb' & st' & tb'' & st'' & H1 & H2 & Hl & Hp & Hc & Hw).
  exists tb', st', tb'', st''. split; [exact H1|]. split; [exact Hl|].
  split; [exact H2|].
  rewrite (left_margin_after_call _ _ _ _ _ _ _ _ _ H2), Hp, Hl, Hc, Hw.
  reflexivity.
Defined.

(** ** More on [place_qr] *)

Lemma length_mapi_from {A : Type} (f : nat -> A -> A) (l : list A) :
  forall i, List.length (mapi_from i f l) = List.length l.
Proof.
  induction l as [|a l IH]; intros i; cbn [mapi_from List.length];
    [reflexivity|]. now rewrite IH.
Qed.

Lemma length_mapi {A : Type} (f : nat -> A -> A) (l : list A) :
  List.length (mapi f l) = List.length l.
Proof. apply length_mapi_from. Qed.

Lemma setitem_region_rows (img : image) (r0 r1 c0 c1 : Z) (src img' : image) :
  setitem_region img r0 r1 c0 c1 src = Returns img' ->
  List.length img' = List.length img
  /\ forall r row row',
       nth_error img r = Some row -> nth_error img' r = Some row' ->
       List.length row' = List.length row.
Proof.
  unfold setitem_region. destruct (_ && _); [|discriminate].
  intros H. injection H as <-. split; [apply length_mapi|].
  intros r row row' Hrow Hrow'. rewrite nth_error_mapi, Hrow in Hrow'.
  cbn [option_map] in Hrow'. injection Hrow' as <-.
  destruct (in_range _ _ r); [apply length_mapi|reflexivity].
Qed.

Lemma place_qr_shape (img qr : image) (x y padding : Z)
    (img' : image) (coords : Z * Z) :
  place_qr img qr x y padding = Returns (img', coords) ->
  same_shape img img' /\ (rectangular img -> rectangular img').
Proof.
  unfold place_qr.
  destruct (setitem_region _ _ _ _ _ _) as [img1| |] eqn:E;
    cbn [bind]; try discriminate.
  intros H. injection H as <- _.
  destruct (setitem_region_rows _ _ _ _ _ _ _ E) as [Hlen Hrows].
  assert (Hhd : List.length (hd [] img1) = List.length (hd [] img)).
  { destruct img as [|row0 img]; destruct img1 as [|row0' img1];
      try discriminate Hlen; [reflexivity|].
    apply (Hrows 0%nat); reflexivity. }
  split; [split; [unfold shape0; now rewrite Hlen
                 |unfold shape1; now rewrite Hhd]|].
  unfold rectangular. rewrite !Forall_forall. intros Hrect row' Hin.
  apply In_nth_error in Hin. destruct Hin as [r Hr'].
  assert (Hr : exists row, nth_error img r = Some row).
  { destruct (nth_error img r) as [row|] eqn:En; [now exists row|].
    apply nth_error_None in En.
    assert (r < List.length img1)%nat by (apply nth_error_Some; congruence).
    lia. }
  destruct Hr as [row Hr].
  rewrite (Hrows r row row' Hr Hr'), Hhd.
  apply Hrect. eapply nth_error_In. exact Hr.
Qed.

(** X11.  Whatever [place_qr] does when it returns, the canvas keeps its
    shape: the same number of rows, each of the same length. *)
Theorem place_qr_keeps_shape (img qr : image) (x y padding : Z)
    (img' : image) (coords : Z * Z) :
  place_qr img qr x y padding = Returns (img', coords) ->
  shape0 img' = shape0 img
  /\ shape1 img' = shape1 img
  /\ (rectangular img -> rectangular img').
Proof.
  intros H. destruct (place_qr_shape _ _ _ _ _ _ _ H) as [[H0 H1] Hr].
  now repeat split.
Qed.

Lemma place_qr_keeps_shape_witness :
  exists img',
    place_qr tiny_canvas tiny_qr (-3) 0 0 = Returns (img', (-1, 2))
    /\ shape0 img' = 4 /\ shape1 img' = 4 /\ rectangular img'.
Proof.
  assert (H : exists img',
             place_qr tiny_canvas tiny_qr (-3) 0 0 = Returns (img', (-1, 2))).
  { eexists. vm_compute. reflexivity. }
  destruct H as (img' & H). exists img'. split; [exact H|].
  destruct (place_qr_keeps_shape _ _ _ _ _ _ _ H) as (H0 & H1 & Hr).
  split; [exact H0|]. split; [exact H1|]. apply Hr. repeat constructor.
Defined.

Lemma setitem_region_side_raises (img src : image) (r0 r1 c0 : Z) :
  2 <= shape1 src ->
  0 <= c0 + shape1 src ->
  c0 < 0 \/ shape1 img < c0 + shape1 src ->
  setitem_region img r0 r1 c0 (c0 + shape1 src) src = Raises ValueError.
Proof.
  intros Hw Hend Hout. unfold setitem_region.
  assert (HW : 0 <= shape1 img) by (unfold shape1; lia).
  assert (Hcols : (shape1 src
                   =? Z.max 0 (slice_bound (c0 + shape1 src) (shape1 img)
                               - slice_bound c0 (shape1 img))) = false).
  { apply Z.eqb_neq. unfold slice_bound.
    destruct (c0 + shape1 src <? 0) eqn:E1; [apply Z.ltb_lt in E1; lia|].
    destruct (c0 <? 0) eqn:E2;
      [apply Z.ltb_lt in E2|apply Z.ltb_ge in E2]; lia. }
  assert (Hone : (shape1 src =? 1) = false) by (apply Z.eqb_neq; lia).
  rewrite Hcols, Hone. cbn [orb]. rewrite andb_false_r. reflexivity.
Qed.

Lemma place_qr_inside_returns (img qr : image) (x y padding : Z) :
  0 <= x -> x + shape1 qr <= shape1 img ->
  0 <= y + Py.int_half padding ->
  y + Py.int_half padding + shape0 qr <= shape0 img ->
  exists img',
    place_qr img qr x y padding
    = Returns (img', (x + shape1 qr, y + Py.int_half padding + shape0 qr)).
Proof.
  intros Hx0 Hx1 Hy0 Hy1.
  set (top := y + Py.int_half padding) in *.
  assert (Hh : 0 <= shape0 qr) by (unfold shape0; lia).
  assert (Hw : 0 <= shape1 qr) by (unfold shape1; lia).
  unfold place_qr, setitem_region. cbn [fst snd]. fold top.
  rewrite !slice_bound_inside by lia.
  replace (Z.max 0 (top + shape0 qr - top)) with (shape0 qr) by lia.
  replace (Z.max 0 (x + shape1 qr - x)) with (shape1 qr) by lia.
  rewrite !Z.eqb_refl. cbn [orb andb bind].
  eexists. reflexivity.
Qed.

(** X12.  A QR code at least two pixels wide that sticks out of the canvas
    on the left or on the right is not clipped: the assignment raises
    [ValueError]. *)
Theorem place_qr_across_side_edge_raises (img qr : image) (x y padding : Z) :
  2 <= shape1 qr ->
  0 <= x + shape1 qr ->
  x < 0 \/ shape1 img < x + shape1 qr ->
  place_qr img qr x y padding = Raises ValueError.
Proof.
  intros Hw Hend Hout. unfold place_qr. cbn [fst snd].
  now rewrite setitem_region_side_raises.
Qed.

Lemma place_qr_across_side_edge_raises_witness :
  place_qr tiny_canvas tiny_qr 3 0 0 = Raises ValueError
  /\ place_qr tiny_canvas tiny_qr (-1) 0 0 = Raises ValueError.
Proof.
  split.
  - apply place_qr_across_side_edge_raises.
    + vm_compute. discriminate.
    + vm_compute. discriminate.
    + right. vm_compute. reflexivity.
  - apply place_qr_across_side_edge_raises.
    + vm_compute. discriminate.
    + vm_compute. discriminate.
    + left. reflexivity.
Defined.

(** ** More on [calculate_vertical_space] *)


Lemma sum_permutation (l l' : list Z) :
  Permutation l l' -> fold_right Z.add 0 l = fold_right Z.add 0 l'.
Proof. induction 1; cbn [fold_right]; lia. Qed.

(** X13.  The vertical space does not depend on the order of the text
    boxes, and each further text box adds its bounding-box height and its
    line height. *)
Theorem vertical_space_adds_up (tbs tbs' more : list TextBox)
    (qr_height top bot spacing breaks padding : Z) :
  (Permutation tbs tbs' ->
   calculate_vertical_space tbs qr_height top bot spacing breaks padding
   = calculate_vertical_space tbs' qr_height top bot spacing breaks padding)
  /\ calculate_vertical_space (tbs ++ more) qr_height top bot spacing breaks
       padding
     = calculate_vertical_space tbs qr_height top bot spacing breaks padding
       + fold_right Z.add 0
           (map (fun tb => snd (bounding_box tb) + line_height tb) more).
Proof.
  split.
  - intros Hperm. rewrite !calculate_vertical_space_sum. f_equal.
    apply sum_permutation. now apply Permutation_map.
  - unfold calculate_vertical_space. rewrite fold_left_app.
    apply fold_left_add_shift.
Qed.

Lemma vertical_space_adds_up_witness :
  calculate_vertical_space [prefix_block; value_block] 0 400 400 35 2 100
  = calculate_vertical_space [value_block; prefix_block] 0 400 400 35 2 100.
Proof.
  apply (proj1 (vertical_space_adds_up [prefix_block; value_block]
                  [value_block; prefix_block] [] 0 400 400 35 2 100)).
  apply perm_swap.
Defined.

(** ** More on [create_image] *)

Lemma shape1_blank : shape1 create_blank_image = 4488.
Proof.
  unfold shape1, create_blank_image.
  change (hd [] (repeat (repeat (34, 34, 34) 4488%nat) 3288%nat))
    with (repeat ((34, 34, 34) : pixel) 4488%nat).
  now rewrite repeat_length.
Qed.

Section CardMeasured.

Context {metrics : GlyphMetrics} {draw : Cv2Draw}.

(** Outside paragraph mode a call leaves the left margin alone. *)
Lemma calculate_text_bb_margin_plain (fuel : nat) (img : image)
    (max_bb_size : Z) (min_font_scale : Q) :
  forall tb r st tb' st',
    paragraph_break tb = false ->
    calculate_text_bb fuel tb img max_bb_size min_font_scale r st
    = Returns (tb', st') ->
    left_margin tb' = left_margin tb.
Proof.
  induction fuel as [|fuel IH]; intros tb r st tb' st' Hp H; [discriminate|].
  rewrite calculate_text_bb_unfold in H.
  destruct (delim tb =? "")%string; [discriminate|].
  cbv zeta in H.
  pose proof (measure_pass_left_margin img tb) as Hpass.
  rewrite Hp in Hpass.
  destruct (Qeq_bool _ _).
  - injection H as <- <-. exact Hpass.
  - destruct (_ >? _).
    + apply IH in H; [exact H|].
      destruct (measure_pass_static img tb)
        as ((_ & _ & _ & _ & _ & _ & Hpb & _) & _).
      cbn [paragraph_break downscale set_measure set_left_margin set_font].
      now rewrite <- Hpb.
    + injection H as <- <-. exact Hpass.
Qed.

(** A call whose floor is the scale of the block returns its first pass. *)
Lemma calculate_text_bb_floor_inv (fuel : nat) (tb : TextBox) (img : image)
    (max_bb_size : Z) (r : log_ref) (st : log_store) (tb' : TextBox)
    (st' : log_store) :
  calculate_text_bb fuel tb img max_bb_size (font_scale tb) r st
  = Returns (tb', st') ->
  tb' = measure_pass tb img.
Proof.
  destruct fuel as [|fuel]; [discriminate|].
  rewrite calculate_text_bb_unfold.
  destruct (delim tb =? "")%string; [discriminate|].
  cbv zeta.
  destruct (measure_pass_static img tb) as (_ & Hs & _).
  rewrite Hs, Qeq_bool_refl. now intros [= <- _].
Qed.

Lemma rescale_points_invariant (fuel : nat) (series : Series) (img : image)
    (pp pt : TextBox) (st : log_store) (pp' pt' : TextBox) (st' : log_store) :
  paragraph_break pt = false ->
  left_margin pt = series_left_margin series + width pp ->
  rescale_points fuel series img pp pt st = Returns (pp', pt', st') ->
  (font_scale pp' <= font_scale pt')%Q
  /\ left_margin pt' = series_left_margin series + width pp'.
Proof.
  intros Hpb Hlm H. unfold rescale_points in H.
  destruct (Qltb _ _) eqn:Elt.
  - bind_inv H. bind_inv H. injection H as <- <- <-.
    apply (calculate_text_bb_floor_inv fuel
             (set_font pp (font_scale pt) (font_width pt))) in E.
    pose proof (calculate_text_bb_margin_plain _ _ _ _
                  (set_left_margin pt (series_left_margin series + width t))
                  _ _ _ _ Hpb E0) as Hm.
    cbn [left_margin set_left_margin] in Hm.
    match type of E0 with
    | calculate_text_bb _ ?tb _ _ _ _ _ = _ =>
        apply (calculate_text_bb_floor_inv fuel tb) in E0
    end.
    split.
    + subst t t0.
      match goal with
      | |- (font_scale (measure_pass ?a _) <= font_scale (measure_pass ?b _))%Q =>
          destruct (measure_pass_static img a) as (_ & -> & _);
          destruct (measure_pass_static img b) as (_ & -> & _)
      end.
      cbn [font_scale set_font set_left_margin]. apply Qle_refl.
    + exact Hm.
  - injection H as <- <- <-. split; [|exact Hlm].
    unfold Qltb in Elt. apply negb_false_iff in Elt.
    now apply Qle_bool_iff.
Qed.

(** X14.  The caption beside the QR code is measured in one pass with the
    scale, stroke width and colour the summary ended with, whatever its
    height; its right margin is the record's plus the QR offset and the QR
    width. *)
Theorem qr_caption_follows_summary (fuel : nat) (series : Series)
    (save : bool) (st : log_store) (b : Blocks) (qr_image : image)
    (st' : log_store) :
  measure_blocks fuel series save st = Returns (b, qr_image, st') ->
  font_scale (b_qr_text b) = font_scale (b_summary_text b)
  /\ font_width (b_qr_text b) = font_width (b_summary_text b)
  /\ font_color (b_qr_text b) = font_color (b_summary_text b)
  /\ right_margin (b_qr_text b)
     = series_right_margin series + qr_offset series + shape1 qr_image
  /\ paragraphs (b_qr_text b)
     = [Py.split Py.nl
          (wrap_paragraph (b_qr_text b) create_blank_image qr_caption)].
Proof.
  intros H. unfold measure_blocks in H. cbv zeta in H.
  bind_inv H. rename t into summary', E into Esummary.
  bind_inv H. rename t into qr', E into Eqr.
  bind_inv H. bind_inv H.
  match type of H with
  | bind ?m _ = _ => destruct m as [[[prefix2 value2] st2]| |];
                     [|discriminate H..]
  end.
  cbn [bind] in H.
  bind_inv H. bind_inv H. bind_inv H.
  injection H as <- <- _.
  cbn [b_qr_text b_summary_text].
  pose proof (calculate_text_bb_static _ _ _ _ _ _ _ _ _ Eqr)
    as (_ & _ & _ & Hc & Hr & _).
  pose proof (calculate_text_bb_paragraphs _ _ _ _ _ _ _ _ _ Eqr) as Hp.
  match type of Eqr with
  | calculate_text_bb _ ?tb _ _ _ _ _ = _ =>
      apply (calculate_text_bb_floor_inv fuel tb) in Eqr
  end.
  match type of Eqr with
  | _ = measure_pass ?tb _ =>
      destruct (measure_pass_static create_blank_image tb) as (_ & Hs & Hw)
  end.
  rewrite <- Eqr in Hs, Hw.
  split; [exact Hs|]. split; [exact Hw|].
  split; [now rewrite <- Hc|]. split; [now rewrite <- Hr|].
  exact Hp.
Qed.

(** X15.  In the text boxes [create_image] hands back the points prefix is
    never at a larger scale than the points value, and the left margin of
    the value is the record's left margin plus the width of the prefix. *)
Theorem points_value_starts_after_prefix (fuel : nat) (series : Series)
    (save : bool) (st : log_store) (b : Blocks) (qr_image : image)
    (st' : log_store) :
  measure_blocks fuel series save st = Returns (b, qr_image, st') ->
  (font_scale (b_points_prefix b) <= font_scale (b_points_text b))%Q
  /\ left_margin (b_points_text b)
     = series_left_margin series + width (b_points_prefix b).
Proof.
  intros H. unfold measure_blocks in H. cbv zeta in H.
  bind_inv H. rename t into summary', E into Esummary.
  bind_inv H. rename t into qr', E into Eqr.
  bind_inv H. rename t into prefix', E into Eprefix.
  bind_inv H. rename t into value', E into Evalue.
  match type of H with
  | bind ?m _ = _ => destruct m as [[[prefix2 value2] st2]| |] eqn:Erescale;
                     [|discriminate H..]
  end.
  cbn [bind] in H.
  bind_inv H. bind_inv H. bind_inv H.
  injection H as <- _ _.
  cbn [b_points_prefix b_points_text].
  pose proof (calculate_text_bb_static _ _ _ _ _ _ _ _ _ Evalue)
    as (_ & _ & _ & _ & _ & _ & Hpb & _).
  cbn [paragraph_break TextBox_init] in Hpb.
  match type of Evalue with
  | calculate_text_bb _ ?tb _ _ _ _ _ = _ =>
      pose proof (calculate_text_bb_margin_plain _ _ _ _ tb _ _ _ _
                    eq_refl Evalue) as Hm
  end.
  cbn [left_margin TextBox_init] in Hm.
  eapply rescale_points_invariant; [| |exact Erescale].
  - now rewrite <- Hpb.
  - exact Hm.
Qed.

End CardMeasured.

Lemma qr_caption_follows_summary_witness :
  exists b qr_image st',
    @measure_blocks sample_metrics sample_draw 4 sample_series true
      empty_store = Returns (b, qr_image, st')
    /\ font_scale (b_qr_text b) = font_scale (b_summary_text b)
    /\ right_margin (b_qr_text b) = 400 + 75 + 600.
Proof.
  assert (Hv : option_map
                 (fun r : Blocks * image * log_store => shape1 (snd (fst r)))
                 (result_of
                    (@measure_blocks sample_metrics sample_draw 4
                       sample_series true empty_store))
               = Some 600)
    by (vm_compute; reflexivity).
  revert Hv.
  destruct (@measure_blocks sample_metrics sample_draw 4 sample_series true
              empty_store) as [[[b qr_image] st']| |] eqn:Hm;
    cbn [result_of option_map]; intros Hv; [|discriminate Hv..].
  cbn [fst snd] in Hv. injection Hv as Hq.
  exists b, qr_image, st'. split; [reflexivity|].
  destruct (@qr_caption_follows_summary sample_metrics sample_draw 4
              sample_series true empty_store b qr_image st' Hm)
    as (Hs & _ & _ & Hr & _).
  split; [exact Hs|]. rewrite Hr, Hq. reflexivity.
Defined.

Lemma points_value_starts_after_prefix_witness :
  exists b qr_image st',
    @measure_blocks sample_metrics sample_draw 4 sample_series true
      empty_store = Returns (b, qr_image, st')
    /\ (font_scale (b_points_prefix b) <= font_scale (b_points_text b))%Q
    /\ left_margin (b_points_text b) = 400 + width (b_points_prefix b).
Proof.
  assert (Hv : option_map (fun _ : Blocks * image * log_store => tt)
                 (result_of
                    (@measure_blocks sample_metrics sample_draw 4
                       sample_series true empty_store))
               = Some tt)
    by (vm_compute; reflexivity).
  revert Hv.
  destruct (@measure_blocks sample_metrics sample_draw 4 sample_series true
              empty_store) as [[[b qr_image] st']| |] eqn:Hm;
    cbn [result_of option_map]; intros Hv; [|discriminate Hv..].
  exists b, qr_image, st'. split; [reflexivity|].
  exact (@points_value_starts_after_prefix sample_metrics sample_draw 4
           sample_series true empty_store b qr_image st' Hm).
Defined.

(** ** The front face and the QR code *)

Lemma same_shape_refl (a : image) : same_shape a a.
Proof. now split. Qed.

Lemma same_shape_trans (a b c : image) :
  same_shape a b -> same_shape b c -> same_shape a c.
Proof. intros [H0 H1] [H2 H3]. split; congruence. Qed.

Section CardDrawn.

Context {metrics : GlyphMetrics} {draw : Cv2Draw} {re : Regex}.
Hypothesis in_place : draws_in_place draw.

Lemma shape_line (a img : image) (x_1 x_2 y_1 y_2 : Z) :
  same_shape a img -> same_shape a (place_line img x_1 x_2 y_1 y_2).
Proof.
  intros H. eapply same_shape_trans; [exact H|]. apply (proj1 in_place).
Qed.

Lemma shape_pixels (a img : image) (tb : TextBox) (x y : Z) (o c b : bool) :
  same_shape a img -> same_shape a (place_text_pixels tb img x y o c b).
Proof.
  intros H. eapply same_shape_trans; [exact H|]. apply (proj2 in_place).
Qed.

Lemma shape_text (a img : image) (tb : TextBox) (x y : Z) (c b : bool)
    (img' : image) (y' : Z) :
  place_text tb img x y c b = Returns (img', y') ->
  same_shape a img -> same_shape a img'.
Proof.
  unfold place_text. cbv zeta. intros H Ha.
  destruct (paragraphs tb) as [|p [|p2 more]];
    [|destruct (b && _)..]; try discriminate H;
    try (destruct (paragraph_break tb); try discriminate H);
    injection H as <- _; now apply shape_pixels.
Qed.

Lemma shape_margins (a img : image) (x_margin y_margin : Z) :
  same_shape a img -> same_shape a (show_margins img x_margin y_margin).
Proof.
  intros H. unfold show_margins, place_line_color. cbv zeta.
  repeat (eapply same_shape_trans; [|apply (proj1 in_place)]). exact H.
Qed.

Lemma shape_draw_back (series : Series) (b : Blocks) (front back img : image) :
  draw_back series b front back = Returns img -> same_shape back img.
Proof.
  unfold draw_back. cbv zeta. intros H.
  destruct (place_text (b_back_title_text b) _ _ _ _ _) as [[img1 y1]| |] eqn:E1;
    [|discriminate H..].
  cbn [bind] in H.
  destruct (place_text (b_back_text b) _ _ _ _ _) as [[img2 y2]| |] eqn:E2;
    [|discriminate H..].
  cbn [bind] in H. injection H as <-.
  eapply shape_text; [exact E2|]. apply shape_line.
  eapply shape_text; [exact E1|]. apply same_shape_refl.
Qed.


Lemma draw_front_inside_returns (series : Series) (b : Blocks)
    (qr_image canvas : image) :
  measured_for series b ->
  bold_words_accepted series = true ->
  0 <= series_right_margin series ->
  series_right_margin series + shape1 qr_image <= shape1 canvas ->
  0 <= qr_top series b qr_image ->
  qr_top series b qr_image + shape0 qr_image <= shape0 canvas ->
  exists img,
    draw_front series b qr_image canvas = Returns img
    /\ same_shape canvas img.
Proof.
  intros Hm Ha Hr0 Hr1 Ht0 Ht1.
  unfold qr_top, front_vertical_space in Ht0, Ht1.
  rewrite calculate_vertical_space_sum in Ht0, Ht1.
  cbn [map fold_right] in Ht0, Ht1.
  unfold draw_front. cbv zeta.
  do 3 place_block Hm. place_summary Hm Ha.
  match goal with
  | |- context [place_qr ?I ?q ?x ?y ?p] =>
      assert (Hshape : same_shape canvas I)
        by (apply shape_line, shape_pixels, shape_pixels, shape_pixels,
              shape_line, shape_pixels, same_shape_refl);
      destruct (place_qr_inside_returns I q x y p) as (img' & Hq)
  end.
  - lia.
  - destruct Hshape as [_ ->]. lia.
  - change (Py.int_half 200) with 100. lia.
  - destruct Hshape as [-> _]. change (Py.int_half 200) with 100. lia.
  - rewrite Hq. cbn [bind]. place_block Hm.
    eexists. split; [reflexivity|].
    apply shape_pixels. eapply same_shape_trans; [exact Hshape|].
    apply (place_qr_shape _ _ _ _ _ _ _ Hq).
Qed.


Lemma compose_faces_in_bounds (series : Series) (margins save : bool)
    (b : Blocks) (qr_image : image) (st1 : log_store) :
  measured_for series b ->
  bold_words_accepted series = true ->
  0 <= bot_margin series ->
  0 <= series_right_margin series ->
  series_right_margin series + shape1 qr_image <= 4488 ->
  0 <= qr_top series b qr_image ->
  exists card,
    compose_faces series margins save b qr_image st1 = Returns card
    /\ card_blocks card = b
    /\ same_shape create_blank_image (card_front card)
    /\ same_shape create_blank_image (card_back card).
Proof.
  intros Hm Ha Hbot Hr0 Hr1 Ht.
  destruct (draw_back_returns series b create_blank_image create_blank_image
              Hm Ha) as (back & Hback).
  pose proof (shape_draw_back _ _ _ _ _ Hback) as Hsb.
  unfold compose_faces. cbv zeta.
  destruct (_ - front_vertical_space _ _ _ >=? 0) eqn:E.
  - rewrite Z.geb_leb in E. apply Z.leb_le in E.
    destruct (draw_front_inside_returns series b qr_image
                create_blank_image) as (img & Hd & Hs);
      [exact Hm|exact Ha|exact Hr0|now rewrite shape1_blank|exact Ht
      |unfold qr_top in *; lia|].
    rewrite Hd. cbn [bind].
    destruct (_ - back_vertical_space _ _ >=? 0);
      rewrite ?Hback; cbn [bind]; destruct margins;
      eexists; (split; [reflexivity|]);
      cbn [card_blocks card_front card_back];
      (split; [reflexivity|]); split;
      repeat first [apply shape_margins | assumption | apply same_shape_refl].
  - cbn [bind].
    destruct (_ - back_vertical_space _ _ >=? 0);
      rewrite ?Hback; cbn [bind]; destruct margins;
      eexists; (split; [reflexivity|]);
      cbn [card_blocks card_front card_back];
      (split; [reflexivity|]); split;
      repeat first [apply shape_margins | assumption | apply same_shape_refl].
Qed.

(** X17.  Where every bold phrase of the row is accepted by [re.sub], the
    QR code has room between the side edges and its top row is not above
    the canvas, [create_image] returns a card after the measurement: the
    card holds the measured text boxes, and both faces have the shape of
    the blank canvas, with or without margin guides. *)
Theorem create_image_returns_card (fuel : nat) (series : Series)
    (margins save : bool) (st : log_store) (b : Blocks) (qr_image : image)
    (st1 : log_store) :
  measure_blocks fuel series save st = Returns (b, qr_image, st1) ->
  bold_words_accepted series = true ->
  0 <= bot_margin series ->
  0 <= series_right_margin series ->
  series_right_margin series + shape1 qr_image <= 4488 ->
  0 <= qr_top series b qr_image ->
  exists card,
    create_image fuel series margins save st = Returns card
    /\ card_blocks card = b
    /\ same_shape create_blank_image (card_front card)
    /\ same_shape create_blank_image (card_back card).
Proof.
  intros Hm Ha Hbot Hr0 Hr1 Ht.
  pose proof (measure_blocks_measured _ _ _ _ _ _ _ Hm) as Hmeas.
  unfold create_image. rewrite Hm. cbn [bind].
  now apply compose_faces_in_bounds.
Qed.

End CardDrawn.

Lemma sample_draw_in_place : draws_in_place sample_draw.
Proof. split; intros; apply same_shape_refl. Qed.


Lemma create_image_returns_card_witness :
  exists card,
    @create_image sample_metrics sample_draw sample_re 4 sample_series
      true true empty_store = Returns card
    /\ same_shape create_blank_image (card_front card)
    /\ same_shape create_blank_image (card_back card).
Proof.
  assert (Hv : option_map
                 (fun r : Blocks * image * log_store =>
                    (qr_top sample_series (fst (fst r)) (snd (fst r)),
                     shape1 (snd (fst r))))
                 (result_of
                    (@measure_blocks sample_metrics sample_draw 4
                       sample_series true empty_store))
               = Some (1466, 600))
    by (vm_compute; reflexivity).
  revert Hv.
  destruct (@measure_blocks sample_metrics sample_draw 4 sample_series true
              empty_store) as [[[b qr_image] st1]| |] eqn:Hm;
    cbn [result_of option_map]; intros Hv; [|discriminate Hv..].
  cbn [fst snd] in Hv. injection Hv as Ht Hq.
  destruct (@create_image_returns_card sample_metrics sample_draw sample_re
              sample_draw_in_place 4 sample_series true true empty_store
              b qr_image st1 Hm)
    as (card & Hc & _ & Hf & Hb).
  - reflexivity.
  - discriminate.
  - discriminate.
  - rewrite Hq. discriminate.
  - rewrite Ht. discriminate.
  - exists card. split; [exact Hc|]. split; [exact Hf|exact Hb].
Defined.

(** ** The log lists and the cards *)

Lemma forget_bind {A B : Type} (m1 m2 : outcome (A * log_store))
    (k1 k2 : A * log_store -> outcome (B * log_store)) :
  forget m1 = forget m2 ->
  (forall a s1 s2, forget (k1 (a, s1)) = forget (k2 (a, s2))) ->
  forget (bind m1 k1) = forget (bind m2 k2).
Proof.
  intros Hm Hk.
  destruct m1 as [[a1 s1]| |], m2 as [[a2 s2]| |]; cbn [forget bind] in *;
    try discriminate Hm; try (injection Hm as ->; reflexivity).
  - injection Hm as ->. apply Hk.
  - reflexivity.
Qed.

Lemma faces_bind {A : Type} (m1 m2 : outcome (A * log_store))
    (k1 k2 : A * log_store -> outcome Card) :
  forget m1 = forget m2 ->
  (forall a s1 s2, faces (k1 (a, s1)) = faces (k2 (a, s2))) ->
  faces (bind m1 k1) = faces (bind m2 k2).
Proof.
  intros Hm Hk.
  destruct m1 as [[a1 s1]| |], m2 as [[a2 s2]| |];
    cbn [forget faces bind] in *;
    try discriminate Hm; try (injection Hm as ->; reflexivity).
  - injection Hm as ->. apply Hk.
  - reflexivity.
Qed.

Lemma filter_quiet (a : list log_entry) :
  Forall (fun e => is_processing e = false) a -> filter is_processing a = [].
Proof.
  induction 1 as [|e a He _ IH]; cbn [filter]; [reflexivity|].
  now rewrite He.
Qed.

Lemma quiet_refl (st : log_store) : quiet_growth st st.
Proof. exists [], []. rewrite !app_nil_r. repeat split. constructor. Qed.

Lemma quiet_trans (a b c : log_store) :
  quiet_growth a b -> quiet_growth b c -> quiet_growth a c.
Proof.
  intros (a1 & d1 & Hc1 & Hd1 & Hq1) (a2 & d2 & Hc2 & Hd2 & Hq2).
  exists (a1 ++ a2)%list, (d1 ++ d2)%list.
  rewrite Hc2, Hc1, Hd2, Hd1, !app_assoc.
  repeat split. now apply Forall_app.
Qed.

Lemma quiet_append (r : log_ref) (e : log_entry) (st : log_store) :
  is_processing e = false -> quiet_growth st (log_append r e st).
Proof.
  intros He. destruct r; cbn [log_append].
  - exists [], [e]. cbn [caller_logs default_logs]. rewrite app_nil_r.
    repeat split. constructor.
  - exists [e], []. cbn [caller_logs default_logs]. rewrite app_nil_r.
    repeat split. now constructor.
Qed.

Lemma quiet_save (c : bool) (r : log_ref) (e : log_entry) (st : log_store) :
  is_processing e = false ->
  quiet_growth st (if c then log_append r e st else st).
Proof. destruct c; [apply quiet_append|intros _; apply quiet_refl]. Qed.

Ltac quiet_back :=
  repeat first
    [ eassumption
    | apply quiet_refl
    | eapply quiet_trans; [|eassumption]
    | eapply quiet_trans; [|apply quiet_append; reflexivity]
    | eapply quiet_trans; [|apply quiet_save; reflexivity] ].

Ltac quiet_direct :=
  unfold quiet_growth; cbn [caller_logs default_logs log_append];
  rewrite <- ?app_assoc; eexists _, [];
  (split; [reflexivity|]);
  (split; [now rewrite app_nil_r|repeat constructor]).

Section CardLogs.

Context {metrics : GlyphMetrics} {draw : Cv2Draw} {re : Regex}.

Lemma calculate_text_bb_forget (img : image) (max_bb_size : Z)
    (min_font_scale : Q) (fuel : nat) :
  forall tb r1 st1 r2 st2,
    forget (calculate_text_bb fuel tb img max_bb_size min_font_scale r1 st1)
    = forget (calculate_text_bb fuel tb img max_bb_size min_font_scale r2 st2).
Proof.
  induction fuel as [|fuel IH]; intros tb r1 st1 r2 st2; [reflexivity|].
  rewrite !calculate_text_bb_unfold.
  destruct (delim tb =? "")%string; [reflexivity|].
  cbv zeta.
  destruct (Qeq_bool _ _); [reflexivity|].
  destruct (_ >? _); [apply IH|reflexivity].
Qed.

Lemma rescale_points_forget (fuel : nat) (series : Series) (img : image)
    (pp pt : TextBox) (st1 st2 : log_store) :
  forget (rescale_points fuel series img pp pt st1)
  = forget (rescale_points fuel series img pp pt st2).
Proof.
  unfold rescale_points. destruct (Qltb _ _); [|reflexivity].
  cbv zeta.
  apply forget_bind; [apply calculate_text_bb_forget|].
  intros a s1 s2. cbv beta iota.
  apply forget_bind; [apply calculate_text_bb_forget|].
  intros a' s1' s2'. reflexivity.
Qed.

Lemma measure_blocks_forget (fuel : nat) (series : Series) (save : bool)
    (st1 st2 : log_store) :
  forget (measure_blocks fuel series save st1)
  = forget (measure_blocks fuel series save st2).
Proof.
  unfold measure_blocks. cbv zeta.
  do 4 (apply forget_bind; [apply calculate_text_bb_forget|];
        intros ? ? ?; cbv beta iota).
  apply forget_bind; [apply rescale_points_forget|].
  intros [prefix2 value2] ? ?. cbv beta iota.
  do 3 (apply forget_bind; [apply calculate_text_bb_forget|];
        intros ? ? ?; cbv beta iota).
  reflexivity.
Qed.

Lemma compose_faces_forget (series : Series) (margins save : bool)
    (b : Blocks) (qr_image : image) (st1 st2 : log_store) :
  faces (compose_faces series margins save b qr_image st1)
  = faces (compose_faces series margins save b qr_image st2).
Proof.
  unfold compose_faces. cbv zeta.
  destruct (_ - front_vertical_space _ _ _ >=? 0).
  - destruct (draw_front _ _ _ _); cbn [bind]; try reflexivity.
    destruct (_ - back_vertical_space _ _ >=? 0);
      [destruct (draw_back _ _ _ _)|]; cbn [bind]; try reflexivity;
      destruct margins, save; reflexivity.
  - cbn [bind].
    destruct (_ - back_vertical_space _ _ >=? 0);
      [destruct (draw_back _ _ _ _)|]; cbn [bind]; try reflexivity;
      destruct margins, save; reflexivity.
Qed.

Lemma calculate_text_bb_quiet (img : image) (max_bb_size : Z)
    (min_font_scale : Q) (fuel : nat) (tb : TextBox) (r : log_ref)
    (st : log_store) (tb' : TextBox) (st' : log_store) :
  calculate_text_bb fuel tb img max_bb_size min_font_scale r st
  = Returns (tb', st') ->
  quiet_growth st st'.
Proof.
  intros H. apply calculate_text_bb_extends in H.
  destruct H as (a & d & Hc & Hd & Hall & _).
  exists a, d. repeat (split; [assumption|]).
  apply Forall_app in Hall. destruct Hall as [Ha _].
  eapply Forall_impl; [|exact Ha].
  intros e [-> | [s ->]]; reflexivity.
Qed.

Lemma rescale_points_quiet (fuel : nat) (series : Series) (img : image)
    (pp pt : TextBox) (st : log_store) (pp' pt' : TextBox) (st' : log_store) :
  rescale_points fuel series img pp pt st = Returns (pp', pt', st') ->
  quiet_growth st st'.
Proof.
  intros H. unfold rescale_points in H.
  destruct (Qltb _ _).
  - bind_inv H. bind_inv H. injection H as _ _ <-.
    apply calculate_text_bb_quiet in E, E0. quiet_back.
  - injection H as _ _ <-. apply quiet_refl.
Qed.

Lemma measure_blocks_quiet (fuel : nat) (series : Series) (save : bool)
    (st : log_store) (b : Blocks) (qr_image : image) (st' : log_store) :
  measure_blocks fuel series save st = Returns (b, qr_image, st') ->
  quiet_growth st st'.
Proof.
  intros H. unfold measure_blocks in H. cbv zeta in H.
  bind_inv H. apply calculate_text_bb_quiet in E. rename E into Q1.
  bind_inv H. apply calculate_text_bb_quiet in E. rename E into Q2.
  bind_inv H. apply calculate_text_bb_quiet in E. rename E into Q3.
  bind_inv H. apply calculate_text_bb_quiet in E. rename E into Q4.
  match type of H with
  | bind ?m _ = _ => destruct m as [[[prefix2 value2] st2]| |] eqn:Erescale;
                     [|discriminate H..]
  end.
  cbn [bind] in H. apply rescale_points_quiet in Erescale.
  bind_inv H. apply calculate_text_bb_quiet in E. rename E into Q5.
  bind_inv H. apply calculate_text_bb_quiet in E. rename E into Q6.
  bind_inv H. apply calculate_text_bb_quiet in E. rename E into Q7.
  injection H as _ _ <-. quiet_back.
Qed.

Lemma compose_faces_quiet (series : Series) (margins save : bool)
    (b : Blocks) (qr_image : image) (st : log_store) (card : Card) :
  compose_faces series margins save b qr_image st = Returns card ->
  quiet_growth st (card_store card).
Proof.
  unfold compose_faces. cbv zeta.
  destruct (_ - front_vertical_space _ _ _ >=? 0).
  - destruct (draw_front _ _ _ _); cbn [bind]; try discriminate.
    destruct (_ - back_vertical_space _ _ >=? 0);
      [destruct (draw_back _ _ _ _)|]; cbn [bind]; try discriminate;
      destruct margins, save; intros [= <-]; cbn [card_store];
      first [apply quiet_refl | quiet_direct].
  - cbn [bind].
    destruct (_ - back_vertical_space _ _ >=? 0);
      [destruct (draw_back _ _ _ _)|]; cbn [bind]; try discriminate;
      destruct margins, save; intros [= <-]; cbn [card_store];
      first [apply quiet_refl | quiet_direct].
Qed.

Lemma create_image_quiet (fuel : nat) (series : Series) (margins save : bool)
    (st : log_store) (card : Card) :
  create_image fuel series margins save st = Returns card ->
  quiet_growth st (card_store card).
Proof.
  unfold create_image. intros H.
  destruct (measure_blocks fuel series save st) as [[[b qr_image] st1]| |]
    eqn:Em; try discriminate H.
  cbn [bind] in H.
  eapply quiet_trans;
    [eapply measure_blocks_quiet; exact Em
    |eapply compose_faces_quiet; exact H].
Qed.

Lemma process_rows_log (fuel : nat) (margins save : bool) :
  forall rows st images images' st',
    process_rows fuel rows margins save st images = Returns (images', st') ->
    exists new,
      images' = (images ++ new)%list
      /\ Forall2 (fun row card =>
                    exists st0,
                      create_image fuel row margins save st0 = Returns card)
           rows new
      /\ filter is_processing (caller_logs st')
         = (filter is_processing (caller_logs st)
            ++ map (fun row => Processing (image_name row)) rows)%list
      /\ exists d, default_logs st' = (default_logs st ++ d)%list.
Proof.
  induction rows as [|row rest IH]; intros st images images' st' H;
    cbn [process_rows] in H.
  - injection H as <- <-. exists []. rewrite !app_nil_r.
    repeat split; [constructor|]. exists []. now rewrite app_nil_r.
  - destruct (create_image fuel row margins save _) as [card| |] eqn:Ec;
      try discriminate H.
    cbn [bind] in H. apply IH in H.
    destruct H as (new & -> & Hall & Hf & d2 & Hd2).
    pose proof (create_image_quiet _ _ _ _ _ _ Ec) as (a & d & Hc & Hd & Hq).
    cbn [log_append caller_logs default_logs] in Hc, Hd.
    exists (card :: new). split; [now rewrite <- app_assoc|].
    split; [constructor; [eexists; exact Ec|exact Hall]|].
    split.
    + rewrite Hf, Hc, !filter_app, (filter_quiet a Hq), app_nil_r.
      cbn [filter is_processing map]. now rewrite <- app_assoc.
    + exists (d ++ d2)%list. now rewrite Hd2, Hd, app_assoc.
Qed.

Lemma create_image_forget (fuel : nat) (series : Series)
    (margins save : bool) (st1 st2 : log_store) :
  faces (create_image fuel series margins save st1)
  = faces (create_image fuel series margins save st2).
Proof.
  unfold create_image.
  apply faces_bind; [apply measure_blocks_forget|].
  intros [b qr_image] s1 s2. apply compose_faces_forget.
Qed.

Lemma Forall2_In_l {A B : Type} (R : A -> B -> Prop) (l : list A)
    (l' : list B) (a : A) :
  Forall2 R l l' -> In a l -> exists b, In b l' /\ R a b.
Proof.
  induction 1 as [|x y l l' Hxy _ IH]; intros Hin; [contradiction|].
  destruct Hin as [-> | Hin].
  - exists y. split; [now left|exact Hxy].
  - destruct (IH Hin) as (b & Hb & Hab). exists b. split; [now right|exact Hab].
Qed.

(** X18.  The log lists have no part in what is measured or drawn: with
    any two contents of the lists, and whether or not a list is handed in,
    [calculate_text_bb] leaves the same block, and [create_image] ends the
    same way with the same faces and text boxes. *)
Theorem logs_do_not_steer_the_card :
  (forall fuel tb img max_bb_size min_font_scale r1 st1 r2 st2,
     forget (calculate_text_bb fuel tb img max_bb_size min_font_scale r1 st1)
     = forget (calculate_text_bb fuel tb img max_bb_size min_font_scale r2 st2))
  /\ forall fuel series margins save st1 st2,
       faces (create_image fuel series margins save st1)
       = faces (create_image fuel series margins save st2).
Proof.
  split.
  - intros. apply calculate_text_bb_forget.
  - intros. apply create_image_forget.
Qed.

(** X19.  When the loop of [main] comes to its end, [images] holds one
    card per row, in the order of the rows, each the card [create_image]
    makes of its row; the entries the loop wrote to the log before each row
    name the rows in that order, and the last entry of the log is the count
    of the rows. *)
Theorem main_loop_cards_and_log (fuel : nat) (rows : list Series)
    (margins save : bool) (images : list Card) (st : log_store) :
  main_loop fuel rows margins save = Returns (images, st) ->
  Forall2 (fun row card =>
             exists st0, create_image fuel row margins save st0 = Returns card)
    rows images
  /\ List.length images = List.length rows
  /\ filter is_processing (caller_logs st)
     = map (fun row => Processing (image_name row)) rows
  /\ exists l,
       caller_logs st = (l ++ [ImagesProcessed (List.length rows)])%list.
Proof.
  unfold main_loop. intros H.
  destruct (process_rows fuel rows margins save (mkStore [] []) [])
    as [[images0 st0]| |] eqn:Ep; try discriminate H.
  cbn [bind] in H. injection H as <- <-.
  apply process_rows_log in Ep.
  destruct Ep as (new & -> & Hall & Hf & _).
  cbn [app caller_logs filter] in Hf |- *.
  split; [exact Hall|].
  split; [symmetry; eapply Forall2_length; exact Hall|].
  split.
  - cbn [log_append caller_logs]. rewrite filter_app, Hf.
    cbn [filter is_processing]. apply app_nil_r.
  - cbn [log_append caller_logs]. now exists (caller_logs st0).
Qed.

(** X24.  If one row makes [create_image] raise, the loop of [main] does
    not come to its end, wherever the row stands and whatever the log held
    when the row was tried: no card of the batch is handed back. *)
Theorem failing_row_fails_the_batch (fuel : nat) (rows : list Series)
    (margins save : bool) (row : Series) (st0 : log_store) (e : exn) :
  In row rows ->
  create_image fuel row margins save st0 = Raises e ->
  forall result, main_loop fuel rows margins save <> Returns result.
Proof.
  intros Hin Hraise [images st] Hret. unfold main_loop in Hret.
  destruct (process_rows fuel rows margins save (mkStore [] []) [])
    as [[images0 st1]| |] eqn:Ep; try discriminate Hret.
  apply process_rows_log in Ep. destruct Ep as (new & _ & Hall & _).
  destruct (Forall2_In_l _ _ _ _ Hall Hin) as (card & _ & st2 & Hcard).
  pose proof (create_image_forget fuel row margins save st0 st2) as Hsame.
  rewrite Hraise, Hcard in Hsame. discriminate Hsame.
Qed.

(** X25.  Each card of a finished batch is the card its row gives on its
    own, with empty log lists: the faces and text boxes of a row do not
    depend on the rows before it, although the log lists, the shared
    default list among them, are handed on from row to row. *)
Theorem cards_do_not_depend_on_earlier_rows (fuel : nat)
    (rows : list Series) (margins save : bool) (images : list Card)
    (st : log_store) :
  main_loop fuel rows margins save = Returns (images, st) ->
  Forall2 (fun row card =>
             faces (create_image fuel row margins save (mkStore [] []))
             = Returns (card_front card, card_back card, card_blocks card))
    rows images.
Proof.
  unfold main_loop. intros Hret.
  destruct (process_rows fuel rows margins save (mkStore [] []) [])
    as [[images0 st0]| |] eqn:Ep; try discriminate Hret.
  cbn [bind] in Hret. injection Hret as <- _.
  apply process_rows_log in Ep. destruct Ep as (new & -> & Hall & _).
  cbn [app]. eapply Forall2_impl; [|exact Hall].
  intros row card (st1 & Hcard). cbv beta.
  rewrite (create_image_forget fuel row margins save _ st1), Hcard.
  reflexivity.
Qed.



End CardLogs.

(** The batch of the one sample row comes to its end. *)
Lemma sample_batch_returns :
  exists card,
    @main_loop sample_metrics sample_draw sample_re 4 [sample_series]
      true true
    = Returns ([card],
               log_append CallerList (ImagesProcessed 1) (card_store card)).
Proof.
  assert (Hv : option_map
                 (fun r : Blocks * image * log_store =>
                    (qr_top sample_series (fst (fst r)) (snd (fst r)),
                     shape1 (snd (fst r))))
                 (result_of
                    (@measure_blocks sample_metrics sample_draw 4
                       sample_series true
                       (log_append CallerList (Processing "atraxa")
                          (mkStore [] []))))
               = Some (1466, 600))
    by (vm_compute; reflexivity).
  revert Hv.
  destruct (@measure_blocks sample_metrics sample_draw 4 sample_series true
              (log_append CallerList (Processing "atraxa") (mkStore [] [])))
    as [[[b qr_image] st1]| |] eqn:Hm;
    cbn [result_of option_map]; intros Hv; [|discriminate Hv..].
  cbn [fst snd] in Hv. injection Hv as Ht Hq.
  destruct (@compose_faces_in_bounds sample_draw sample_re
              sample_draw_in_place sample_series true true
              b qr_image st1)
    as (card & Hc & _).
  - exact (measure_blocks_measured _ _ _ _ _ _ _ Hm).
  - reflexivity.
  - discriminate.
  - discriminate.
  - rewrite Hq. discriminate.
  - rewrite Ht. discriminate.
  - exists card. unfold main_loop. cbn [process_rows]. unfold create_image.
    change (image_name sample_series) with "atraxa".
    rewrite Hm. cbn [bind]. rewrite Hc. reflexivity.
Qed.

Lemma main_loop_cards_and_log_witness :
  exists images st,
    @main_loop sample_metrics sample_draw sample_re 4 [sample_series]
      true true
    = Returns (images, st)
    /\ List.length images = 1%nat
    /\ filter is_processing (caller_logs st) = [Processing "atraxa"].
Proof.
  destruct sample_batch_returns as (card & Hl).
  exists [card], (log_append CallerList (ImagesProcessed 1) (card_store card)).
  split; [exact Hl|].
  destruct (@main_loop_cards_and_log sample_metrics sample_draw sample_re 4
              [sample_series] true true _ _ Hl) as (_ & Hn & Hf & _).
  split; [exact Hn|exact Hf].
Defined.

Lemma failing_row_fails_the_batch_witness :
  @create_image sample_metrics sample_draw sample_re 4 overhang_series
    false true empty_store
  = Raises ValueError
  /\ match @main_loop sample_metrics sample_draw sample_re 4
             [sample_series; overhang_series] false true with
     | Returns _ => False
     | _ => True
     end.
Proof.
  assert (Hr : @create_image sample_metrics sample_draw sample_re 4
                 overhang_series false true empty_store
               = Raises ValueError) by (vm_compute; reflexivity).
  split; [exact Hr|].
  destruct (@main_loop sample_metrics sample_draw sample_re 4
              [sample_series; overhang_series] false true)
    as [result| |] eqn:E; [|exact I..].
  exact (@failing_row_fails_the_batch sample_metrics sample_draw sample_re 4
           [sample_series; overhang_series] false true
           overhang_series empty_store ValueError
           (or_intror (or_introl eq_refl)) Hr result E).
Defined.

Lemma cards_do_not_depend_on_earlier_rows_witness :
  exists card,
    faces (@create_image sample_metrics sample_draw sample_re 4 sample_series
             true true (mkStore [] []))
    = Returns (card_front card, card_back card, card_blocks card).
Proof.
  destruct sample_batch_returns as (card & Hl).
  exists card.
  pose proof (@cards_do_not_depend_on_earlier_rows sample_metrics sample_draw
                sample_re 4 [sample_series] true true _ _ Hl) as Hall.
  inversion Hall as [|row card' rows' cards' Hcard _]. exact Hcard.
Defined.


(** ** Placing a block without bold words *)

Lemma line_text_app (a b : list string) :
  line_text (a ++ b) = line_text a ++ line_text b.
Proof.
  induction a as [|x a IH]; [reflexivity|].
  cbn [app]. now rewrite !line_text_cons, IH, append_assoc.
Qed.

Lemma written_app (a b : list draw_call) :
  written (a ++ b) = written a ++ written b.
Proof. unfold written. now rewrite map_app, line_text_app. Qed.

Lemma written_circle (center : Z * Z) (radius : Z) (color : Z * Z * Z)
    (calls : list draw_call) :
  written (Circle center radius color :: calls) = written calls.
Proof. unfold written. cbn [map call_text]. now rewrite line_text_cons. Qed.

Section Placing.

Context {metrics : GlyphMetrics}.
Variable tb : TextBox.

Lemma put_words_tail_written (current_Y : Z) (words : list string) :
  forall k current_X word_size,
    written (fst (put_words tb current_Y (S k) words current_X word_size))
    = line_text (map (fun w => " " ++ w) words).
Proof.
  induction words as [|w rest IH]; intros k X ws; [reflexivity|].
  cbn [put_words Nat.eqb].
  specialize (IH (S k) (X + fst (text_size tb (" " ++ w)))
                (Some (text_size tb (" " ++ w)))).
  destruct (put_words tb current_Y (S (S k)) rest _ _) as [calls state].
  cbn [fst] in *. unfold written in *. cbn [map call_text].
  now rewrite !line_text_cons, IH.
Qed.

Lemma put_words_line_written (current_Y : Z) (line : string) (current_X : Z)
    (word_size : option (Z * Z)) :
  written (fst (put_words tb current_Y 0 (Py.split " " line) current_X
                  word_size))
  = line.
Proof.
  pose proof (join_split_from " " ltac:(discriminate) line 0%nat) as Hj.
  cbn [drop] in Hj. fold (Py.split " " line) in Hj.
  pose proof (split_not_nil " " line) as Hn.
  destruct (Py.split " " line) as [|w rest]; [congruence|].
  cbn [put_words Nat.eqb].
  pose proof (put_words_tail_written current_Y rest 0
                (current_X + fst (text_size tb w)) (Some (text_size tb w)))
    as Ht.
  destruct (put_words tb current_Y 1 rest _ _) as [calls state].
  cbn [fst] in *. unfold written in *. cbn [map call_text].
  rewrite line_text_cons, Ht, <- join_as_prefixed. exact Hj.
Qed.

Lemma put_words_no_circle (current_Y : Z) (words : list string) :
  forall k current_X word_size,
    filter is_circle
      (fst (put_words tb current_Y k words current_X word_size)) = [].
Proof.
  induction words as [|w rest IH]; intros k X ws; [reflexivity|].
  cbn [put_words].
  match goal with
  | |- context [put_words tb current_Y (S k) rest ?x ?s] =>
      specialize (IH (S k) x s);
      destruct (put_words tb current_Y (S k) rest x s) as [calls state]
  end.
  cbn [fst filter is_circle] in *. exact IH.
Qed.

Lemma put_words_bound (current_Y : Z) (words : list string) :
  forall k current_X word_size,
    words <> [] \/ word_size <> None ->
    snd (snd (put_words tb current_Y k words current_X word_size)) <> None.
Proof.
  induction words as [|w rest IH]; intros k X ws H.
  - cbn. destruct H as [H | H]; [congruence|exact H].
  - cbn [put_words].
    match goal with
    | |- context [put_words tb current_Y (S k) rest ?x ?s] =>
        specialize (IH (S k) x s);
        destruct (put_words tb current_Y (S k) rest x s) as [calls state]
    end.
    cbn [snd] in *. apply IH. right. discriminate.
Qed.

Lemma put_lines_drawn (image_width : Z) (centered : bool) (x_left : Z)
    (lines : list string) :
  forall current_Y word_size,
    exists calls y_end size,
      put_lines tb image_width centered x_left lines current_Y word_size
      = Drawn (calls, (y_end, size))
      /\ written calls = line_text lines
      /\ filter is_circle calls = [].
Proof.
  induction lines as [|line rest IH]; intros Y ws.
  - exists [], Y, ws. repeat split.
  - cbn [put_lines].
    match goal with
    | |- context [put_words tb Y 0 ?w ?x ws] =>
        pose proof (put_words_line_written Y line x ws) as Hw;
        pose proof (put_words_no_circle Y w 0 x ws) as Hc;
        pose proof (put_words_bound Y w 0 x ws
                      (or_introl (split_not_nil " " line))) as Hb;
        destruct (put_words tb Y 0 w x ws) as [calls [x_end size]]
    end.
    cbn [fst snd] in *.
    destruct rest as [|line2 rest].
    + exists calls, Y, size. split; [reflexivity|].
      split; [|exact Hc]. rewrite line_text_cons. cbn.
      now rewrite append_nil_r.
    + destruct size as [size|]; [|congruence].
      destruct (IH (Y + Py.int (inject_Z (snd size) * (1 + line_spacing tb)))
                  (Some size))
        as (more & y_end & size' & -> & Hw' & Hc').
      cbn [and_then]. exists (calls ++ more)%list, y_end, size'.
      split; [reflexivity|]. split.
      * now rewrite written_app, Hw, Hw', (line_text_cons line).
      * now rewrite filter_app, Hc, Hc'.
Qed.

Lemma put_paragraphs_bound (image_width : Z) (centered : bool) (x : Z)
    (size : Z * Z) (ps : list (list string)) :
  forall i current_Y word_size,
    exists calls y_end,
      put_paragraphs tb image_width centered x (Some size) i ps current_Y
        word_size = Drawn (calls, y_end)
      /\ written calls = line_text (List.concat ps)
      /\ List.length (filter is_circle calls)
         = if paragraph_break tb && circle tb then List.length ps else 0%nat.
Proof.
  induction ps as [|p rest IH]; intros i Y ws.
  - exists [], Y. repeat split. now destruct (_ && _).
  - cbn [put_paragraphs].
    destruct (i =? 0)%nat; cbn [and_then];
      destruct (paragraph_break tb && circle tb) eqn:Eb; cbn [and_then];
      match goal with
      | |- context [put_lines tb ?w ?c ?xl p ?Y1 ws] =>
          destruct (put_lines_drawn w c xl p Y1 ws)
            as (calls & y2 & ws2 & -> & Hw & Hc)
      end; cbn [and_then];
      destruct (IH (S i) y2 ws2) as (more & y_end & -> & Hw' & Hc');
      try rewrite Eb in Hc'; cbn [and_then]; do 2 eexists;
      (split; [reflexivity|]); split;
      cbn [app List.concat filter is_circle List.length];
      rewrite ?written_circle, ?written_app, ?filter_app, ?line_text_app,
        ?Hw, ?Hw', ?Hc; cbn [app]; rewrite ?Hc'; reflexivity.
Qed.

Lemma put_paragraphs_plain (image_width : Z) (centered : bool) (x : Z)
    (ps : list (list string)) (current_Y : Z) (word_size : option (Z * Z)) :
  paragraph_break tb = false ->
  match ps with
  | _ :: _ :: _ =>
      put_paragraphs tb image_width centered x None 0 ps current_Y word_size
      = UnboundLocalError "space_size"
  | _ =>
      exists calls y_end,
        put_paragraphs tb image_width centered x None 0 ps current_Y word_size
        = Drawn (calls, y_end)
        /\ written calls = line_text (List.concat ps)
        /\ filter is_circle calls = []
  end.
Proof.
  intros Hp. destruct ps as [|p [|p2 rest]].
  - exists [], current_Y. repeat split.
  - cbn [put_paragraphs Nat.eqb and_then]. rewrite Hp. cbn [andb and_then].
    destruct (put_lines_drawn image_width centered x p current_Y word_size)
      as (calls & y2 & ws2 & -> & Hw & Hc).
    cbn [and_then]. do 2 eexists. split; [reflexivity|].
    cbn [app List.concat]. rewrite !app_nil_r. now split.
  - cbn [put_paragraphs Nat.eqb and_then]. rewrite Hp. cbn [andb and_then].
    destruct (put_lines_drawn image_width centered x p current_Y word_size)
      as (calls & y2 & ws2 & -> & _).
    reflexivity.
Qed.

Lemma place_text_calls_cases (image_width x y : Z) (centered : bool) :
  if paragraph_break tb || (List.length (paragraphs tb) <=? 1)%nat
  then exists calls,
         place_text_calls tb image_width x y centered
         = Drawn (calls, y + snd (bounding_box tb))
         /\ written calls = line_text (List.concat (paragraphs tb))
         /\ List.length (filter is_circle calls)
            = (if paragraph_break tb && circle tb
               then List.length (paragraphs tb) else 0%nat)
  else place_text_calls tb image_width x y centered
       = UnboundLocalError "space_size".
Proof.
  unfold place_text_calls. cbv zeta.
  destruct (paragraph_break tb) eqn:Hp; cbn [orb andb].
  - match goal with
    | |- context [put_paragraphs tb ?w ?c ?x0 (Some ?s) ?i ?ps ?y0 ?ws] =>
        destruct (put_paragraphs_bound w c x0 s ps i y0 ws)
          as (calls0 & y0' & -> & Hw & Hc)
    end.
    cbn [and_then]. rewrite Hp in Hc. now exists calls0.
  - match goal with
    | |- context [put_paragraphs tb ?w ?c ?x0 None 0 ?ps ?y0 ?ws] =>
        pose proof (put_paragraphs_plain w c x0 ps y0 ws Hp) as H
    end.
    destruct (paragraphs tb) as [|p [|p2 rest]]; cbn [List.length Nat.leb].
    + destruct H as (calls0 & y0' & -> & Hw & Hc).
      cbn [and_then]. exists calls0. now rewrite Hc.
    + destruct H as (calls0 & y0' & -> & Hw & Hc).
      cbn [and_then]. exists calls0. now rewrite Hc.
    + now rewrite H.
Qed.

(** X20.  What [place_text] writes without bold words, put together in the
    order of the calls, is the lines of the block one after the other; a
    bullet is drawn for each paragraph in paragraph mode with bullets and
    none otherwise; the value returned is [y] plus the height of the
    bounding box. *)
Theorem place_text_spells_the_lines (image_width x y : Z) (centered : bool)
    (calls : list draw_call) (y_end : Z) :
  place_text_calls tb image_width x y centered = Drawn (calls, y_end) ->
  written calls = line_text (List.concat (paragraphs tb))
  /\ List.length (filter is_circle calls)
     = (if paragraph_break tb && circle tb
        then List.length (paragraphs tb) else 0%nat)
  /\ y_end = y + snd (bounding_box tb).
Proof.
  intros H.
  pose proof (place_text_calls_cases image_width x y centered) as Hcases.
  destruct (paragraph_break tb || _).
  - destruct Hcases as (calls0 & Hc & Hw & Hn).
    rewrite Hc in H. injection H as <- <-. now repeat split.
  - rewrite Hcases in H. discriminate H.
Qed.

(** X21.  Without bold words [place_text] runs to its end exactly for the
    blocks in paragraph mode and the blocks of at most one paragraph; for a
    block outside paragraph mode with two paragraphs or more it stops at
    the second one, where [space_size] is read without being bound. *)
Theorem place_text_needs_space_size (image_width x y : Z) (centered : bool) :
  (paragraph_break tb = true \/ (List.length (paragraphs tb) <= 1)%nat ->
   exists calls,
     place_text_calls tb image_width x y centered
     = Drawn (calls, y + snd (bounding_box tb)))
  /\ (paragraph_break tb = false ->
      (2 <= List.length (paragraphs tb))%nat ->
      place_text_calls tb image_width x y centered
      = UnboundLocalError "space_size").
Proof.
  pose proof (place_text_calls_cases image_width x y centered) as Hcases.
  split.
  - intros H.
    assert (Hc : paragraph_break tb
                 || (List.length (paragraphs tb) <=? 1)%nat = true).
    { destruct H as [-> | H]; [reflexivity|].
      apply orb_true_iff. right. now apply Nat.leb_le. }
    rewrite Hc in Hcases. destruct Hcases as (calls & Hd & _).
    now exists calls.
  - intros Hp Hlen.
    assert (Hc : paragraph_break tb
                 || (List.length (paragraphs tb) <=? 1)%nat = false).
    { rewrite Hp. cbn [orb]. apply Nat.leb_gt. lia. }
    now rewrite Hc in Hcases.
Qed.

End Placing.

Lemma place_text_spells_the_lines_witness :
  exists calls,
    @place_text_calls sample_metrics
      (set_measure bullets_block 80 252 720 (820, 332)
         [["First"; "point"]; ["Second point"]])
      4488 400 1000 false = Drawn (calls, 1332)
    /\ written calls = "FirstpointSecond point"
    /\ List.length (filter is_circle calls) = 2%nat.
Proof.
  assert (H : exists calls,
             @place_text_calls sample_metrics
               (set_measure bullets_block 80 252 720 (820, 332)
                  [["First"; "point"]; ["Second point"]])
               4488 400 1000 false = Drawn (calls, 1332)).
  { eexists. vm_compute. reflexivity. }
  destruct H as (calls & H). exists calls. split; [exact H|].
  destruct (place_text_spells_the_lines _ _ _ _ _ _ _ H) as (Hw & Hc & _).
  split; [exact Hw|exact Hc].
Defined.

Lemma place_text_needs_space_size_witness :
  @place_text_calls sample_metrics two_plain_paragraphs 4488 400 1000 true
  = UnboundLocalError "space_size".
Proof.
  apply (proj2 (@place_text_needs_space_size sample_metrics
                  two_plain_paragraphs 4488 400 1000 true)).
  - reflexivity.
  - cbn. lia.
Defined.

Section PlacingMeasured.

Context {metrics : GlyphMetrics}.

(** X22.  A block that [calculate_text_bb] has returned can be placed
    without bold words, whatever the position and the centring: the call
    runs to its end and writes the lines the measurement left. *)
Theorem measured_block_can_be_placed (fuel : nat) (tb : TextBox)
    (img : image) (max_bb_size : Z) (min_font_scale : Q) (r : log_ref)
    (st : log_store) (tb' : TextBox) (st' : log_store) :
  calculate_text_bb fuel tb img max_bb_size min_font_scale r st
  = Returns (tb', st') ->
  forall image_width x y centered,
    exists calls,
      place_text_calls tb' image_width x y centered
      = Drawn (calls, y + snd (bounding_box tb'))
      /\ written calls = line_text (List.concat (paragraphs tb')).
Proof.
  intros H image_width x y centered.
  pose proof (calculate_text_bb_paragraphs _ _ _ _ _ _ _ _ _ H) as Hp.
  pose proof (calculate_text_bb_static _ _ _ _ _ _ _ _ _ H)
    as (_ & _ & _ & _ & _ & _ & Hpb & _).
  pose proof (place_text_calls_cases tb' image_width x y centered) as Hcases.
  assert (Hc : paragraph_break tb'
               || (List.length (paragraphs tb') <=? 1)%nat = true).
  { destruct (paragraph_break tb') eqn:E; [reflexivity|].
    rewrite Hp. unfold paragraphs_raw. rewrite Hpb. reflexivity. }
  rewrite Hc in Hcases. destruct Hcases as (calls & Hd & Hw & _).
  now exists calls.
Qed.

End PlacingMeasured.

Lemma measured_block_can_be_placed_witness :
  exists tb' st' calls,
    @calculate_text_bb sample_metrics 4 bullets_block (strip 4488) 2400
      (5 # 2) CallerList empty_store = Returns (tb', st')
    /\ @place_text_calls sample_metrics tb' 4488 400 1000 false
       = Drawn (calls, 1000 + snd (bounding_box tb'))
    /\ written calls = "First pointSecond point".
Proof.
  assert (H : exists tb' st',
             @calculate_text_bb sample_metrics 4 bullets_block (strip 4488)
               2400 (5 # 2) CallerList empty_store = Returns (tb', st')
             /\ line_text (List.concat (paragraphs tb'))
                = "First pointSecond point").
  { do 2 eexists. split; vm_compute; reflexivity. }
  destruct H as (tb' & st' & H & Hl).
  destruct (measured_block_can_be_placed _ _ _ _ _ _ _ _ _ H 4488 400 1000
              false) as (calls & Hc & Hw).
  exists tb', st', calls. split; [exact H|]. split; [exact Hc|].
  now rewrite Hw.
Defined.

(** ** Baselines of a placed block *)

Lemma int_nonneg (q : Q) : (0 <= q)%Q -> 0 <= Py.int q.
Proof.
  intros Hq. unfold Py.int. apply Z.quot_pos; [|lia].
  unfold Qle in Hq. cbn in Hq. lia.
Qed.

Lemma int_one_plus (h : Z) (q : Q) :
  0 <= h -> (0 <= q)%Q ->
  Py.int (inject_Z h * (1 + q)) = h + Py.int (inject_Z h * q)
  /\ Py.int ((1 + q) * inject_Z h) = h + Py.int (inject_Z h * q).
Proof.
  intros Hh Hq. destruct q as [n d]. unfold Qle in Hq. cbn in Hq.
  assert (Hn : 0 <= n) by lia.
  unfold Py.int. cbn [Qnum Qden Qmult Qplus inject_Z].
  rewrite !Pos.mul_1_l, ?Pos.mul_1_r, !Z.mul_1_l, !Z.mul_1_r.
  rewrite !Z.quot_div_nonneg by nia.
  split.
  - replace (h * (Z.pos d + n)) with (h * Z.pos d + h * n) by ring.
    now rewrite Z.div_add_l by lia.
  - replace ((Z.pos d + n) * h) with (h * Z.pos d + h * n) by ring.
    now rewrite Z.div_add_l by lia.
Qed.

Lemma on_baseline_weaken (lo hi lo' hi' : Z) (calls : list draw_call) :
  lo' <= lo -> hi <= hi' ->
  Forall (on_baseline lo hi) calls -> Forall (on_baseline lo' hi') calls.
Proof.
  intros Hlo Hhi H. eapply Forall_impl; [|exact H].
  intros [c r col|w [cx cy] col]; cbn; lia.
Qed.

Section Baselines.

Context {metrics : GlyphMetrics}.
Variable tb : TextBox.
Variable H : Z.

Hypothesis level : forall s, snd (text_size tb s) = H.
Hypothesis H_nonneg : 0 <= H.
Hypothesis line_spacing_nonneg : (0 <= line_spacing tb)%Q.
Hypothesis paragraph_spacing_nonneg : (0 <= paragraph_spacing tb)%Q.

Local Abbreviation line_gap := (Py.int (inject_Z H * line_spacing tb)).
Local Abbreviation paragraph_gap :=
  (Py.int (inject_Z H * (paragraph_spacing tb * line_spacing tb))).

Lemma inject_nonneg : (0 <= inject_Z H)%Q.
Proof. unfold Qle. cbn. lia. Qed.

Lemma line_gap_nonneg : 0 <= line_gap.
Proof.
  apply int_nonneg, Qmult_le_0_compat;
    [apply inject_nonneg|exact line_spacing_nonneg].
Qed.

Lemma paragraph_gap_nonneg : 0 <= paragraph_gap.
Proof.
  apply int_nonneg, Qmult_le_0_compat; [apply inject_nonneg|].
  now apply Qmult_le_0_compat.
Qed.

Lemma measure_lines_level (lines : list string) :
  forall h w,
    fst (measure_lines tb H lines (h, w))
    = h + match lines with
          | [] => 0
          | _ :: rest => H + Z.of_nat (List.length rest) * (H + line_gap)
          end.
Proof.
  induction lines as [|l rest IH]; intros h w.
  - cbn. lia.
  - cbn [measure_lines]. rewrite IH, level.
    destruct rest as [|l2 rest]; cbn [List.length]; lia.
Qed.

Lemma measure_paragraphs_level (first : bool) (l : string) (r : list string)
    (rest : list (list string)) :
  fst (measure_paragraphs tb H first ((l :: r) :: rest) (0, 0))
  = (if first then 0 else paragraph_gap)
    + H + Z.of_nat (List.length r) * (H + line_gap)
    + fst (measure_paragraphs tb H false rest (0, 0)).
Proof.
  cbn [measure_paragraphs].
  pose proof (measure_lines_level (l :: r)
                (if first then 0 else 0 + paragraph_gap) 0) as Hl.
  destruct (measure_lines tb H (l :: r) _) as [h1 w1].
  rewrite measure_paragraphs_acc. cbn [fst] in *. rewrite Hl.
  destruct first; lia.
Qed.

Lemma put_words_level (current_Y : Z) (words : list string) :
  forall k current_X word_size,
    (forall s, word_size = Some s -> snd s = H) ->
    Forall (on_baseline current_Y current_Y)
      (fst (put_words tb current_Y k words current_X word_size))
    /\ forall s,
         snd (snd (put_words tb current_Y k words current_X word_size))
         = Some s -> snd s = H.
Proof.
  induction words as [|w rest IH]; intros k X ws Hws.
  - split; [constructor|exact Hws].
  - cbn [put_words].
    match goal with
    | |- context [put_words tb current_Y (S k) rest ?x (Some ?s)] =>
        destruct (IH (S k) x (Some s)) as [Hb Hs];
        [intros s0 [= <-]; apply level|];
        destruct (put_words tb current_Y (S k) rest x (Some s))
          as [calls state]
    end.
    cbn [fst snd] in *. split; [|exact Hs].
    constructor; [cbn; lia|exact Hb].
Qed.

Lemma put_lines_level (image_width : Z) (centered : bool) (x_left : Z)
    (lines : list string) :
  forall current_Y word_size calls y_end size,
    (forall s, word_size = Some s -> snd s = H) ->
    put_lines tb image_width centered x_left lines current_Y word_size
    = Drawn (calls, (y_end, size)) ->
    y_end = current_Y
            + match lines with
              | [] => 0
              | _ :: rest => Z.of_nat (List.length rest) * (H + line_gap)
              end
    /\ Forall (on_baseline current_Y y_end) calls
    /\ forall s, size = Some s -> snd s = H.
Proof.
  pose proof line_gap_nonneg as Hgap.
  induction lines as [|line rest IH]; intros Y ws calls y_end size Hws Hput.
  - injection Hput as <- <- <-. split; [lia|]. split; [constructor|exact Hws].
  - cbn [put_lines] in Hput.
    match type of Hput with
    | context [put_words tb Y 0 ?w ?x ws] =>
        destruct (put_words_level Y w 0 x ws Hws) as [Hb Hs];
        destruct (put_words tb Y 0 w x ws) as [calls0 [x_end ws1]]
    end.
    cbn [fst snd] in *.
    destruct rest as [|line2 rest].
    + injection Hput as <- <- <-. cbn [List.length Z.of_nat].
      split; [lia|]. split; [|exact Hs].
      eapply on_baseline_weaken; [| |exact Hb]; lia.
    + destruct ws1 as [s1|]; [|discriminate Hput].
      rewrite (Hs s1 eq_refl) in Hput.
      rewrite (proj1 (int_one_plus H (line_spacing tb) H_nonneg
                        line_spacing_nonneg)) in Hput.
      destruct (put_lines tb image_width centered x_left (line2 :: rest) _ _)
        as [[more [y2 ws2]]|] eqn:El; [|discriminate Hput].
      cbn [and_then] in Hput. injection Hput as <- <- <-.
      apply IH in El; [|exact Hs].
      destruct El as (Hy & Hm & Hs2).
      assert (Hn : 0 <= Z.of_nat (List.length rest) * (H + line_gap))
        by nia.
      change (List.length (line2 :: rest)) with (S (List.length rest)).
      rewrite Nat2Z.inj_succ.
      split; [lia|]. split; [|exact Hs2].
      apply Forall_app. split.
      * eapply on_baseline_weaken; [| |exact Hb]; lia.
      * eapply on_baseline_weaken; [| |exact Hm]; lia.
Qed.

Lemma put_paragraphs_level (image_width : Z) (centered : bool) (x : Z)
    (space_size : option (Z * Z)) (ps : list (list string)) :
  (forall s, space_size = Some s -> snd s = H) ->
  Forall (fun p => p <> []) ps ->
  forall i current_Y word_size calls y_end,
    (forall s, word_size = Some s -> snd s = H) ->
    put_paragraphs tb image_width centered x space_size i ps current_Y
      word_size = Drawn (calls, y_end) ->
    current_Y <= y_end
    /\ Forall (on_baseline current_Y y_end) calls
    /\ y_end + (if (i =? 0)%nat
                then match ps with [] => 0 | _ :: _ => H end
                else 0)
       = current_Y
         + fst (measure_paragraphs tb H (i =? 0)%nat ps (0, 0)).
Proof.
  pose proof line_gap_nonneg as Hgap.
  pose proof paragraph_gap_nonneg as Hpgap.
  intros Hss Hall. induction Hall as [|p rest Hp Hall IH];
    intros i Y ws calls y_end Hws Hput.
  - injection Hput as <- <-. split; [lia|]. split; [constructor|].
    destruct (i =? 0)%nat; cbn; lia.
  - destruct p as [|l r]; [congruence|].
    rewrite measure_paragraphs_level.
    cbn [put_paragraphs] in Hput.
    assert (Hstart : exists Y1,
               Y1 = Y + (if (i =? 0)%nat then 0 else H + paragraph_gap)
               /\ exists bullet x_left,
                    Forall (on_baseline Y y_end) bullet
                    /\ and_then
                         (put_lines tb image_width centered x_left (l :: r)
                            Y1 ws)
                         (fun '(calls, (current_Y, word_size)) =>
                            and_then
                              (put_paragraphs tb image_width centered x
                                 space_size (S i) rest current_Y word_size)
                              (fun '(more, y_end) =>
                                 Drawn ((bullet ++ calls ++ more)%list,
                                        y_end)))
                       = Drawn (calls, y_end)).
    { destruct (i =? 0)%nat.
      - cbn [and_then] in Hput. exists Y. split; [lia|].
        destruct (paragraph_break tb && circle tb).
        + destruct space_size as [ss|]; [|discriminate Hput].
          cbn [and_then] in Hput. do 2 eexists. split; [|exact Hput].
          repeat constructor.
        + cbn [and_then] in Hput. do 2 eexists. split; [|exact Hput].
          constructor.
      - destruct space_size as [ss|]; [|discriminate Hput].
        cbn [and_then] in Hput.
        rewrite (Hss ss eq_refl) in Hput.
        rewrite (proj2 (int_one_plus H
                          (paragraph_spacing tb * line_spacing tb) H_nonneg
                          (Qmult_le_0_compat _ _ paragraph_spacing_nonneg
                             line_spacing_nonneg))) in Hput.
        eexists. split; [reflexivity|].
        destruct (paragraph_break tb && circle tb);
          cbn [and_then] in Hput; do 2 eexists; (split; [|exact Hput]);
          repeat constructor. }
    destruct Hstart as (Y1 & HY1 & bullet & x_left & Hbullet & Hrun).
    destruct (put_lines tb image_width centered x_left (l :: r) Y1 ws)
      as [[calls_p [y2 ws2]]|] eqn:El; [|discriminate Hrun].
    cbn [and_then] in Hrun.
    destruct (put_paragraphs tb image_width centered x space_size (S i) rest
                y2 ws2) as [[more y3]|] eqn:Er; [|discriminate Hrun].
    cbn [and_then] in Hrun. injection Hrun as <- <-.
    apply put_lines_level in El; [|exact Hws].
    destruct El as (Hy2 & Hbp & Hws2).
    apply IH in Er; [|exact Hws2].
    destruct Er as (Hle & Hbm & Hy3).
    cbn [Nat.eqb] in Hy3.
    assert (Hr : 0 <= Z.of_nat (List.length r) * (H + line_gap)) by nia.
    assert (HY : Y <= Y1) by (destruct (i =? 0)%nat; lia).
    split; [lia|]. split.
    + apply Forall_app. split; [exact Hbullet|].
      apply Forall_app. split.
      * eapply on_baseline_weaken; [| |exact Hbp]; lia.
      * eapply on_baseline_weaken; [| |exact Hbm]; lia.
    + destruct (i =? 0)%nat; lia.
Qed.

End Baselines.

Section PlacedHeight.

Context {metrics : GlyphMetrics}.

Lemma measure_pass_height (tb : TextBox) (img : image) :
  height (measure_pass tb img)
  = height tb
    + fst (measure_paragraphs (measure_pass tb img)
             (line_height (measure_pass tb img)) true
             (paragraphs (measure_pass tb img)) (0, 0)).
Proof.
  rewrite !measure_pass_eq. cbv zeta.
  cbn [height line_height paragraphs set_measure].
  rewrite measure_paragraphs_acc. cbn [fst].
  destruct (shifted_fresh_wrap tb) as (_ & _ & _ & _ & -> & _).
  f_equal. f_equal. apply measure_paragraphs_same. repeat split.
Qed.

Lemma quarter_steps_nonneg (q : Q) : quarter_steps q -> (0 <= q)%Q.
Proof.
  intros (n & Hn & ->). apply Qmult_le_0_compat; [|discriminate].
  rewrite <- (Zle_Qle 0). lia.
Qed.

(** X23.  With a font whose line height does not depend on the string and
    is [2 ^ 20] at most, and spacings that are whole numbers of quarters up
    to 256, every word of a measured block is written on a baseline between
    [y + 40] and [y + 40] plus the measured height less one line: the
    placing stays within the height the measurement accounted for. *)
Theorem placed_text_within_measured_height (fuel : nat) (tb : TextBox)
    (img : image) (max_bb_size : Z) (min_font_scale : Q) (r : log_ref)
    (st : log_store) (tb' : TextBox) (st' : log_store)
    (image_width x y : Z) (centered : bool) (calls : list draw_call)
    (y_end : Z) :
  0 <= height tb ->
  (forall s, snd (text_size tb' s) = line_height tb') ->
  0 <= line_height tb' <= 2 ^ 20 ->
  quarter_steps (line_spacing tb) ->
  quarter_steps (paragraph_spacing tb) ->
  calculate_text_bb fuel tb img max_bb_size min_font_scale r st
  = Returns (tb', st') ->
  place_text_calls tb' image_width x y centered = Drawn (calls, y_end) ->
  Forall (on_baseline (y + 40) (y + 40 + height tb' - line_height tb')) calls.
Proof.
  intros Hh Hlevel [Hlh _] Hls Hps Hcall Hplace.
  apply quarter_steps_nonneg in Hls, Hps.
  pose proof (calculate_text_bb_static _ _ _ _ _ _ _ _ _ Hcall)
    as (_ & _ & _ & _ & _ & Hl & _ & _ & _ & Hp & _).
  pose proof (calculate_text_bb_paragraphs _ _ _ _ _ _ _ _ _ Hcall) as Hpar.
  assert (Hne : Forall (fun p => p <> []) (paragraphs tb')).
  { rewrite Hpar. apply Forall_map, Forall_forall.
    intros p _. apply split_not_nil. }
  assert (Hsome : paragraphs tb' <> []).
  { rewrite Hpar. unfold paragraphs_raw.
    destruct (paragraph_break tb); [|discriminate].
    pose proof (split_not_nil "\p" (text tb)) as Hs.
    destruct (Py.split "\p" (text tb)); [congruence|discriminate]. }
  assert (Hmeasure : fst (measure_paragraphs tb' (line_height tb') true
                            (paragraphs tb') (0, 0)) <= height tb'
                     /\ snd (bounding_box tb') - height tb' = 80).
  { apply calculate_text_bb_last_pass in Hcall.
    destruct Hcall as (tb0 & -> & _ & Hfrom).
    rewrite measure_pass_bounding_box. cbn [snd].
    pose proof (measure_pass_height tb0 img) as Hmh.
    assert (0 <= height tb0) by (destruct Hfrom as [-> | [-> _]]; lia).
    split; lia. }
  destruct Hmeasure as [Hm Hbb].
  unfold place_text_calls in Hplace. cbv zeta in Hplace.
  rewrite Hbb in Hplace. change (Py.int_half 80) with 40 in Hplace.
  destruct (put_paragraphs tb' image_width centered x _ 0 (paragraphs tb')
              (y + 40) None) as [[calls0 y0]|] eqn:Ep; [|discriminate Hplace].
  cbn [and_then] in Hplace. injection Hplace as <- _.
  apply (put_paragraphs_level tb' (line_height tb') Hlevel Hlh) in Ep.
  - destruct Ep as (_ & Hb & Hy). cbn [Nat.eqb] in Hy.
    eapply on_baseline_weaken; [| |exact Hb]; [lia|].
    destruct (paragraphs tb'); [congruence|lia].
  - now rewrite <- Hl.
  - now rewrite <- Hp.
  - intros s. destruct (paragraph_break tb'); [|discriminate].
    intros [= <-]. apply Hlevel.
  - exact Hne.
  - discriminate.
Qed.

End PlacedHeight.

Lemma placed_text_within_measured_height_witness :
  exists tb' st' calls,
    @calculate_text_bb sample_metrics 4 quarter_spaced_block (strip 4488)
      2400 (5 # 2) CallerList empty_store = Returns (tb', st')
    /\ @place_text_calls sample_metrics tb' 4488 400 1000 false
       = Drawn (calls, 1000 + snd (bounding_box tb'))
    /\ Forall (on_baseline 1040 (1040 + height tb' - line_height tb')) calls.
Proof.
  assert (H : exists tb' st',
             @calculate_text_bb sample_metrics 4 quarter_spaced_block
               (strip 4488) 2400 (5 # 2) CallerList empty_store
             = Returns (tb', st')
             /\ font tb' = 0 /\ font_scale tb' = 7 # 2 /\ font_width tb' = 11
             /\ line_height tb' = 80).
  { do 2 eexists. split; [vm_compute; reflexivity|]. repeat split. }
  destruct H as (tb' & st' & H & Hf & Hs & Hw & Hlh).
  pose proof (@place_text_calls_cases sample_metrics tb' 4488 400 1000 false)
    as Hcases.
  pose proof (calculate_text_bb_static _ _ _ _ _ _ _ _ _ H)
    as (_ & _ & _ & _ & _ & _ & Hpb & _).
  rewrite <- Hpb in Hcases.
  cbn [paragraph_break quarter_spaced_block TextBox_init orb] in Hcases.
  destruct Hcases as (calls & Hc & _).
  exists tb', st', calls. split; [exact H|]. split; [exact Hc|].
  apply (@placed_text_within_measured_height sample_metrics 4
           quarter_spaced_block (strip 4488) 2400 (5 # 2) CallerList
           empty_store tb' st' 4488 400 1000 false calls
           (1000 + snd (bounding_box tb'))).
  - cbn. lia.
  - intros s. unfold text_size. rewrite Hf, Hs, Hw, Hlh. reflexivity.
  - rewrite Hlh. split; [lia|vm_compute; discriminate].
  - exists 5. split; [lia|reflexivity].
  - exists 6. split; [lia|reflexivity].
  - exact H.
  - exact Hc.
Defined.
